(** * Orchestration logic of temporal-ecommerce, shallowly embedded

    The three workflow files of the repository are modelled here:
    - [src/workflows/order-workflow.ts]       (module [Order]),
    - [src/workflows/ml-training-workflow.ts] (modules [Rng] and [Training]),
    - the agent workflows in [unnamed/part_001] (modules [Analysis] and [MultiAgent]).

    The durable-execution substrate is not modelled; what it contributes to a run
    (activity results, signal deliveries, timer outcomes) is given as an explicit
    environment record, one per workflow.  Workflow code itself is written in a
    small state/error monad: [throw] in TypeScript is [raise], [try/catch] is
    [catch], and every write to the workflow's state is an explicit [modify]. *)

From Stdlib Require Import Lqa.
From Stdlib Require Import ZArith QArith Qround Znumtheory List String Ascii Bool Lia Sorted.
Import ListNotations.

(** ** A state/error monad for workflow bodies *)

Section StateError.
Context {S E : Type}.

Definition SE (A : Type) : Type := S -> (E + A) * S.

Definition ret {A} (a : A) : SE A := fun s => (inr a, s).

Definition bind {A B} (m : SE A) (k : A -> SE B) : SE B :=
  fun s => match m s with
           | (inr a, s') => k a s'
           | (inl e, s') => (inl e, s')
           end.

Definition raise {A} (e : E) : SE A := fun s => (inl e, s).

Definition modify (f : S -> S) : SE unit := fun s => (inr tt, f s).

Definition get : SE S := fun s => (inr s, s).

(** [try { m } catch (e) { h(e) }] *)
Definition catch {A} (m : SE A) (h : E -> SE A) : SE A :=
  fun s => match m s with
           | (inl e, s') => h e s'
           | r => r
           end.
End StateError.

Arguments SE : clear implicits.

Notation "x <- m ;; k" := (bind m (fun x => k))
  (at level 61, m at next level, right associativity).
Notation "m ;; k" := (bind m (fun _ => k))
  (at level 61, right associativity).

(** JavaScript truthiness of a string: only the empty string is falsy. *)
Definition truthy (s : string) : bool := negb (String.eqb s "").

(** JavaScript [x % m === 0] on integers: [%] is the truncated remainder and
    [x % 0] is [NaN], which is never [=== 0]. *)
Definition js_mod_is_zero (x m : Z) : bool :=
  if Z.eqb m 0 then false else Z.eqb (Z.rem x m) 0.

(** [a < b] on numbers, as a boolean. *)
Definition qlt_b (a b : Q) : bool := negb (Qle_bool b a).

(** ** SeededRNG (ml-training-workflow.ts, lines 119-136) *)

Module Rng.

Definition MODULUS : Z := 2147483647.

(** [constructor(seed)]: [state = seed % 2147483647; if (state <= 0) state += 2147483646]. *)
Definition SeededRNG (seed : Z) : Z :=
  let s := Z.rem seed MODULUS in
  if Z.leb s 0 then s + 2147483646 else s.

(** [next()]: returns the new state and the drawn number. *)
Definition next (state : Z) : Z * Q :=
  let state' := Z.rem (state * 48271) MODULUS in
  (state', Qmake (state' - 1) 2147483646).

(** [nextInt(min, max) = Math.floor(next() * (max - min + 1)) + min]. *)
Definition nextInt (state min max : Z) : Z * Z :=
  let (state', u) := next state in
  (state', Qfloor (u * inject_Z (max - min + 1)) + min).

(** A state that [next] keeps inside [1 .. 2^31 - 2]. *)
Definition valid_state (state : Z) : Prop := 1 <= state <= MODULUS - 1.

End Rng.

(** ** orderWorkflow (order-workflow.ts) *)

Module Order.

Inductive OrderStatus :=
| pending | inventory_reserved | payment_processing | payment_completed
| awaiting_approval | rejected | approved | shipment_created | shipped
| completed | compensating | failed.

Record OrderInput := { orderId : string; customerId : string; totalAmount : Q }.

Record ApprovalDecision := {
  ad_approved : bool;
  ad_approvedBy : option string;
  ad_reason : option string }.

(** The forward steps of the saga, each with its correlation id. *)
Inductive Step := SReserve | SPay | SShip.

(** Moment at which the [cancelOrder] signal is delivered, relative to the
    code: before the [n]-th [if (isCancelled)] check (lines 137, 169, 208),
    while [createShipment] runs, during [sleep('7 days')], after the run
    ended, or never. *)
Inductive CancelTiming :=
| CancelBeforeCheck (n : nat)
| CancelDuringShipment
| CancelDuringTail
| CancelAfterEnd
| NoCancel.

(** What the substrate and the activities contribute to one run. *)
Record OrderEnv := {
  env_reserve : option string;            (* reserveInventory: reservationId, or None when it throws *)
  env_pay : option string;                (* processPayment: paymentId *)
  env_ship : option (string * string);    (* createShipment: shipmentId, trackingNumber *)
  env_cancel : CancelTiming;              (* cancelOrder signal *)
  env_approval : option ApprovalDecision; (* slot content when the 24h condition returns; None: timeout *)
  env_sleep_cancelled : bool;             (* workflow cancellation while in sleep('7 days') *)
  env_comp_fails : Step -> bool }.        (* the compensating activity of this step throws *)

(** Observable events: completed forward steps and attempted compensations. *)
Inductive Event :=
| Done (s : Step) (id : string)
| Comp (s : Step) (id : string).

Inductive OrderError :=
| ErrActivity (s : Step)            (* a forward activity threw *)
| ErrCompensation (s : Step)        (* a compensating activity threw *)
| ErrCancelledByCustomer            (* 'Order cancelled by customer' *)
| ErrRejected (reason : string)     (* 'Order rejected: ...' *)
| ErrWorkflowCancelled.             (* CancelledFailure out of sleep *)

(** The workflow's [state] object together with its local variables
    [reservationId], [paymentId], [shipmentId], and the history of status
    values and events. *)
Record World := mkWorld {
  status : OrderStatus;
  inventoryReserved : bool;
  paymentProcessed : bool;
  shipmentCreated : bool;
  reservationId : option string;
  paymentId : option string;
  shipmentId : option string;
  trackingNumber : option string;
  approvedBy : option string;
  rejectedReason : option string;
  statusHistory : list OrderStatus;
  events : list Event }.

Definition OM := SE World OrderError.

Definition init_world : World :=
  mkWorld pending false false false None None None None None None [pending] [].

(** [state.status = s] *)
Definition set_status (s : OrderStatus) : OM unit :=
  modify (fun w => mkWorld s w.(inventoryReserved) w.(paymentProcessed) w.(shipmentCreated)
                     w.(reservationId) w.(paymentId) w.(shipmentId) w.(trackingNumber)
                     w.(approvedBy) w.(rejectedReason) (w.(statusHistory) ++ [s]) w.(events)).

Definition log (ev : Event) : OM unit :=
  modify (fun w => mkWorld w.(status) w.(inventoryReserved) w.(paymentProcessed) w.(shipmentCreated)
                     w.(reservationId) w.(paymentId) w.(shipmentId) w.(trackingNumber)
                     w.(approvedBy) w.(rejectedReason) w.(statusHistory) (w.(events) ++ [ev])).

(** Lines 120-122. *)
Definition record_reservation (r : string) : OM unit :=
  modify (fun w => mkWorld w.(status) true w.(paymentProcessed) w.(shipmentCreated)
                     (Some r) w.(paymentId) w.(shipmentId) w.(trackingNumber)
                     w.(approvedBy) w.(rejectedReason) w.(statusHistory) w.(events)).

(** Lines 152-154. *)
Definition record_payment (p : string) : OM unit :=
  modify (fun w => mkWorld w.(status) w.(inventoryReserved) true w.(shipmentCreated)
                     w.(reservationId) (Some p) w.(shipmentId) w.(trackingNumber)
                     w.(approvedBy) w.(rejectedReason) w.(statusHistory) w.(events)).

(** Lines 223-226. *)
Definition record_shipment (sid tn : string) : OM unit :=
  modify (fun w => mkWorld w.(status) w.(inventoryReserved) w.(paymentProcessed) true
                     w.(reservationId) w.(paymentId) (Some sid) (Some tn)
                     w.(approvedBy) w.(rejectedReason) w.(statusHistory) w.(events)).

Definition set_approvedBy (a : option string) : OM unit :=
  modify (fun w => mkWorld w.(status) w.(inventoryReserved) w.(paymentProcessed) w.(shipmentCreated)
                     w.(reservationId) w.(paymentId) w.(shipmentId) w.(trackingNumber)
                     a w.(rejectedReason) w.(statusHistory) w.(events)).

Definition set_rejectedReason (r : string) : OM unit :=
  modify (fun w => mkWorld w.(status) w.(inventoryReserved) w.(paymentProcessed) w.(shipmentCreated)
                     w.(reservationId) w.(paymentId) w.(shipmentId) w.(trackingNumber)
                     w.(approvedBy) (Some r) w.(statusHistory) w.(events)).

(** A forward activity: it either returns its result, logged as a completed
    step, or throws. *)
Definition forward {A} (s : Step) (id_of : A -> string) (r : option A) : OM A :=
  match r with
  | Some a => log (Done s (id_of a)) ;; ret a
  | None => raise (ErrActivity s)
  end.

(** [if (isCancelled) throw new Error('Order cancelled by customer')], the
    [n]-th such check of the body. *)
Definition is_cancelled_at (c : CancelTiming) (n : nat) : bool :=
  match c with
  | CancelBeforeCheck m => Nat.leb m n
  | _ => false
  end.

Definition check_cancel (env : OrderEnv) (n : nat) : OM unit :=
  if is_cancelled_at env.(env_cancel) n then raise ErrCancelledByCustomer else ret tt.

(** [approvalDecision?.reason || 'Approval timeout'] *)
Definition reason_or_timeout (d : option ApprovalDecision) : string :=
  match d with
  | Some a => match a.(ad_reason) with
              | Some r => if truthy r then r else "Approval timeout"
              | None => "Approval timeout"
              end
  | None => "Approval timeout"
  end.

(** Lines 173-205: the approval gate of high-value orders. *)
Definition approval_step (env : OrderEnv) (o : OrderInput) : OM unit :=
  if qlt_b 5000 o.(totalAmount) then
    set_status awaiting_approval ;;
    match env.(env_approval) with
    | Some d =>
        if d.(ad_approved) then set_approvedBy d.(ad_approvedBy) ;; set_status approved
        else set_status rejected ;;
             set_rejectedReason (reason_or_timeout (Some d)) ;;
             raise (ErrRejected (reason_or_timeout (Some d)))
    | None =>
        set_status rejected ;;
        set_rejectedReason (reason_or_timeout None) ;;
        raise (ErrRejected (reason_or_timeout None))
    end
  else ret tt.

(** The [try] block, lines 110-258 (notifications have their failures
    swallowed by [.catch(() => {})] and are left out). *)
Definition order_body (env : OrderEnv) (o : OrderInput) : OM unit :=
  set_status pending ;;
  r <- forward SReserve (fun r => r) env.(env_reserve) ;;
  record_reservation r ;;
  set_status inventory_reserved ;;
  check_cancel env 1 ;;
  set_status payment_processing ;;
  p <- forward SPay (fun p => p) env.(env_pay) ;;
  record_payment p ;;
  set_status payment_completed ;;
  check_cancel env 2 ;;
  approval_step env o ;;
  check_cancel env 3 ;;
  set_status shipment_created ;;
  sh <- forward SShip fst env.(env_ship) ;;
  record_shipment (fst sh) (snd sh) ;;
  set_status shipped ;;
  (if env.(env_sleep_cancelled) then raise ErrWorkflowCancelled else ret tt) ;;
  set_status completed.

(** One compensation (lines 268-275, 278-284, 287-293):
    [if (id) { try { await comp(id) } catch (e) { console.error(...) } }]. *)
Definition compensate (env : OrderEnv) (s : Step) (id : option string) : OM unit :=
  match id with
  | Some i =>
      if truthy i then
        catch (log (Comp s i) ;;
               if env.(env_comp_fails) s then raise (ErrCompensation s) else ret tt)
              (fun _ => ret tt)
      else ret tt
  | None => ret tt
  end.

(** The [catch] block, lines 259-310. *)
Definition order_handler (env : OrderEnv) (err : OrderError) : OM unit :=
  set_status compensating ;;
  w <- get ;;
  compensate env SShip w.(shipmentId) ;;
  compensate env SPay w.(paymentId) ;;
  compensate env SReserve w.(reservationId) ;;
  set_status failed ;;
  raise err.

Definition orderWorkflow (env : OrderEnv) (o : OrderInput) : (OrderError + unit) * World :=
  catch (order_body env o) (order_handler env) init_world.

(** The compensation that undoes a completed step. *)
Definition undo (ev : Event) : list Event :=
  match ev with
  | Done s id => [Comp s id]
  | Comp _ _ => []
  end.

(** Every correlation id the activities return is non-empty (they are uuids). *)
Definition ids_nonempty (env : OrderEnv) : Prop :=
  (forall r, env.(env_reserve) = Some r -> truthy r = true) /\
  (forall p, env.(env_pay) = Some p -> truthy p = true) /\
  (forall sh, env.(env_ship) = Some sh -> truthy (fst sh) = true).

(** The same run with the [cancelOrder] signal delivered at another moment. *)
Definition with_cancel (env : OrderEnv) (c : CancelTiming) : OrderEnv :=
  {| env_reserve := env.(env_reserve); env_pay := env.(env_pay); env_ship := env.(env_ship);
     env_cancel := c; env_approval := env.(env_approval);
     env_sleep_cancelled := env.(env_sleep_cancelled); env_comp_fails := env.(env_comp_fails) |}.

(** The (step, correlation id) pairs of the completed forward steps. *)
Definition completed_steps (l : list Event) : list (Step * string) :=
  flat_map (fun ev => match ev with Done s i => [(s, i)] | Comp _ _ => [] end) l.

End Order.

(** ** mlTrainingWorkflow (ml-training-workflow.ts) *)

Module Training.

Inductive TrainingStatus :=
| initializing | training | checkpointing | evaluating | awaiting_approval
| completed | failed | cancelled.

Inductive Action := act_continue | act_adjust | act_stop.

(** A delivered [researcherDecision] signal; [rd_id] tells deliveries apart. *)
Record ResearcherDecision := { rd_id : nat; rd_action : Action }.

Record CheckpointInfo := {
  checkpointId : string; ck_epoch : Z; ck_loss : Q; s3Path : string }.

Record TrainingConfig := {
  modelId : string; epochs : Z; checkpointInterval : Z; randomSeed : option Z }.

(** A loss value; [None] is [Infinity]. *)
Definition Loss := option Q.

(** [loss < best] with [Infinity] as the largest value. *)
Definition loss_lt (l : Q) (best : Loss) : bool :=
  match best with None => true | Some b => qlt_b l b end.

(** What the substrate and the activities contribute to one run. *)
Record TrainingEnv := {
  te_workflowId : string;                      (* workflowInfo().workflowId *)
  te_init_ok : bool;                           (* initializeTraining succeeds *)
  te_cancel : Z -> bool;                       (* [cancelled] as read at the top of epoch e *)
  te_train : Z -> option Q;                    (* trainEpoch(e): loss, or None when it throws *)
  te_save : Z -> option (string * string);     (* saveCheckpoint(epoch): checkpointId, s3Path *)
  te_signal : Z -> option ResearcherDecision;  (* decision delivered during epoch e, before its review *)
  te_eval_ok : bool }.                         (* evaluateModel succeeds *)

Inductive TEvent :=
| EvTrainEpoch (epoch shuffleSeed : Z)
| EvSaveCheckpoint (epoch : Z)
| EvReview (epoch : Z) (seen : option ResearcherDecision)
| EvCleanup.

Inductive TrainingError := ErrActivityFailed | ErrTrainingCancelled.

(** The [state] object, the RNG, the decision slot [researcherDecision],
    and the log of activity calls and reviews. *)
Record TrainingState := mkTS {
  t_status : TrainingStatus;
  currentEpoch : Z;
  totalEpochs : Z;
  currentLoss : Loss;
  bestLoss : Loss;
  checkpoints : list CheckpointInfo;
  rng : Z;
  researcherDecision : option ResearcherDecision;
  tlog : list TEvent }.

Record TrainingResult := {
  finalLoss : Loss; res_totalEpochs : Z; res_checkpoints : list CheckpointInfo }.

Definition TM := SE TrainingState TrainingError.

Definition set_status (st : TrainingStatus) : TM unit :=
  modify (fun t => mkTS st t.(currentEpoch) t.(totalEpochs) t.(currentLoss) t.(bestLoss)
                     t.(checkpoints) t.(rng) t.(researcherDecision) t.(tlog)).

Definition log (ev : TEvent) : TM unit :=
  modify (fun t => mkTS t.(t_status) t.(currentEpoch) t.(totalEpochs) t.(currentLoss) t.(bestLoss)
                     t.(checkpoints) t.(rng) t.(researcherDecision) (t.(tlog) ++ [ev])).

Definition set_rng (r : Z) : TM unit :=
  modify (fun t => mkTS t.(t_status) t.(currentEpoch) t.(totalEpochs) t.(currentLoss) t.(bestLoss)
                     t.(checkpoints) r t.(researcherDecision) t.(tlog)).

(** Lines 218-224. *)
Definition record_epoch (epoch : Z) (loss : Q) : TM unit :=
  modify (fun t => mkTS t.(t_status) epoch t.(totalEpochs) (Some loss)
                     (if loss_lt loss t.(bestLoss) then Some loss else t.(bestLoss))
                     t.(checkpoints) t.(rng) t.(researcherDecision) t.(tlog)).

(** [state.checkpoints.push(c)] *)
Definition push_checkpoint (c : CheckpointInfo) : TM unit :=
  modify (fun t => mkTS t.(t_status) t.(currentEpoch) t.(totalEpochs) t.(currentLoss) t.(bestLoss)
                     (t.(checkpoints) ++ [c]) t.(rng) t.(researcherDecision) t.(tlog)).

(** The signal handler: [researcherDecision = decision] (last one wins). *)
Definition deliver (d : option ResearcherDecision) : TM unit :=
  match d with
  | Some _ =>
      modify (fun t => mkTS t.(t_status) t.(currentEpoch) t.(totalEpochs) t.(currentLoss)
                         t.(bestLoss) t.(checkpoints) t.(rng) d t.(tlog))
  | None => ret tt
  end.

(** [researcherDecision = undefined] *)
Definition clear_decision : TM unit :=
  modify (fun t => mkTS t.(t_status) t.(currentEpoch) t.(totalEpochs) t.(currentLoss) t.(bestLoss)
                     t.(checkpoints) t.(rng) None t.(tlog)).

Definition activity {A} (r : option A) : TM A :=
  match r with Some a => ret a | None => raise ErrActivityFailed end.

(** The training loop, lines 201-281, from [epoch] with [fuel] iterations
    left; the review gate's [break] ends the recursion. *)
Fixpoint training_loop (cfg : TrainingConfig) (env : TrainingEnv) (fuel : nat) (epoch : Z)
    : TM unit :=
  match fuel with
  | O => ret tt
  | S fuel' =>
      if env.(te_cancel) epoch then raise ErrTrainingCancelled else
      t <- get ;;
      let (rng', shuffleSeed) := Rng.nextInt t.(rng) 0 1000000 in
      set_rng rng' ;;
      log (EvTrainEpoch epoch shuffleSeed) ;;
      loss <- activity (env.(te_train) epoch) ;;
      record_epoch epoch loss ;;
      (if js_mod_is_zero (epoch + 1) cfg.(checkpointInterval) then
         set_status checkpointing ;;
         log (EvSaveCheckpoint (epoch + 1)) ;;
         ck <- activity (env.(te_save) (epoch + 1)) ;;
         push_checkpoint {| checkpointId := fst ck; ck_epoch := epoch + 1;
                            ck_loss := loss; s3Path := snd ck |} ;;
         set_status training
       else ret tt) ;;
      deliver (env.(te_signal) epoch) ;;
      if js_mod_is_zero (epoch + 1) 10 then
        set_status awaiting_approval ;;
        t <- get ;;
        log (EvReview epoch t.(researcherDecision)) ;;
        match t.(researcherDecision) with
        | Some d =>
            match d.(rd_action) with
            | act_stop => ret tt
            | act_adjust | act_continue =>
                set_status training ;; clear_decision ;;
                training_loop cfg env fuel' (epoch + 1)
            end
        | None => set_status training ;; training_loop cfg env fuel' (epoch + 1)
        end
      else training_loop cfg env fuel' (epoch + 1)
  end.

(** JavaScript [ToInt32]. *)
Definition toInt32 (x : Z) : Z :=
  let m := x mod 2 ^ 32 in if Z.leb (2 ^ 31) m then m - 2 ^ 32 else m.

(** [hash = (hash << 5) - hash + char; hash = hash & hash] over the id. *)
Fixpoint hash_chars (hash : Z) (s : string) : Z :=
  match s with
  | EmptyString => hash
  | String c rest =>
      hash_chars (toInt32 (toInt32 (hash * 32) - hash + Z.of_nat (nat_of_ascii c))) rest
  end.

Definition hashWorkflowId (workflowId : string) : Z := Z.abs (hash_chars 0 workflowId).

(** [config.randomSeed || hashWorkflowId(workflowInfo().workflowId)] *)
Definition seed_of (cfg : TrainingConfig) (env : TrainingEnv) : Z :=
  match cfg.(randomSeed) with
  | Some s => if Z.eqb s 0 then hashWorkflowId env.(te_workflowId) else s
  | None => hashWorkflowId env.(te_workflowId)
  end.

(** Lines 158-169: [currentEpoch: resumeFromCheckpoint?.epoch || 0], the
    losses [resumeFromCheckpoint?.loss || Infinity], and the checkpoints
    list seeded with the resumed checkpoint. *)
Definition init_state (cfg : TrainingConfig) (env : TrainingEnv)
    (resume : option CheckpointInfo) : TrainingState :=
  let loss := match resume with
              | Some c => if Qeq_bool c.(ck_loss) 0 then None else Some c.(ck_loss)
              | None => None
              end in
  mkTS initializing
       (match resume with Some c => c.(ck_epoch) | None => 0 end)
       cfg.(epochs) loss loss
       (match resume with Some c => [c] | None => [] end)
       (Rng.SeededRNG (seed_of cfg env)) None [].

(** Lines 186-318. *)
Definition training_body (cfg : TrainingConfig) (env : TrainingEnv) : TM TrainingResult :=
  set_status initializing ;;
  activity (if env.(te_init_ok) then Some tt else None) ;;
  set_status training ;;
  t <- get ;;
  training_loop cfg env (Z.to_nat (t.(totalEpochs) - t.(currentEpoch))) t.(currentEpoch) ;;
  set_status evaluating ;;
  activity (if env.(te_eval_ok) then Some tt else None) ;;
  set_status completed ;;
  t <- get ;;
  ret {| finalLoss := t.(currentLoss); res_totalEpochs := t.(currentEpoch) + 1;
         res_checkpoints := t.(checkpoints) |}.

Definition mlTrainingWorkflow (cfg : TrainingConfig) (env : TrainingEnv)
    (resume : option CheckpointInfo) : (TrainingError + TrainingResult) * TrainingState :=
  catch (training_body cfg env)
        (fun e => set_status failed ;; log EvCleanup ;; raise e)
        (init_state cfg env resume).

(** Epochs passed to [trainEpoch], in call order. *)
Definition trained_epochs (l : list TEvent) : list Z :=
  flat_map (fun ev => match ev with EvTrainEpoch e _ => [e] | _ => [] end) l.

(** Decisions observed by the review gate, in order. *)
Definition reviewed_decisions (l : list TEvent) : list ResearcherDecision :=
  flat_map (fun ev => match ev with EvReview _ (Some d) => [d] | _ => [] end) l.

(** Invariants of [training_loop] at the top of epoch [epoch]. *)

(** Resumed at [lo]: no epoch below [lo] trained, checkpoint epochs
    increasing and none beyond [epoch]. *)
Definition loop_inv (lo epoch : Z) (t : TrainingState) : Prop :=
  (lo <= epoch /\
   (forall e, In e (trained_epochs t.(tlog)) -> lo <= e) /\
   Sorted Z.lt (map ck_epoch t.(checkpoints)) /\
   Forall (fun c => ck_epoch c <= epoch) t.(checkpoints))%Z.

(** Each delivery of [researcherDecision] carries its own id. *)
Definition signal_ids_distinct (env : TrainingEnv) : Prop :=
  forall e1 e2 d1 d2, env.(te_signal) e1 = Some d1 -> env.(te_signal) e2 = Some d2 ->
    d1.(rd_id) = d2.(rd_id) -> e1 = e2.

(** Decisions seen by the gate so far were delivered before epoch [w];
    their ids are distinct; the slot holds nothing or a decision delivered
    in [[w, epoch)]. *)
Definition gate_inv (env : TrainingEnv) (w epoch : Z) (t : TrainingState) : Prop :=
  (w <= epoch /\
   (forall d, In d (reviewed_decisions t.(tlog)) -> exists e, e < w /\ env.(te_signal) e = Some d) /\
   NoDup (map rd_id (reviewed_decisions t.(tlog))) /\
   (forall d, t.(researcherDecision) = Some d -> exists e, w <= e < epoch /\ env.(te_signal) e = Some d))%Z.

End Training.

(** ** codebaseAnalysisWorkflow (unnamed/part_001, lines 123-328) *)

Module Analysis.

Inductive AnalysisStatus :=
| initializing | analyzing | planning | awaiting_approval | refactoring | testing
| budget_exceeded | completed | failed | cancelled.

Inductive Improvement := imp_performance | imp_maintainability | imp_security.

(** The task; [budget] and [requiresApproval] are optional fields. *)
Record CodebaseAnalysisTask := {
  taskId : string;
  files : list string;
  targetImprovement : option Improvement;
  budget : option Q;
  requiresApproval : option bool }.

(** A delivered [approveBudget] signal; [ba_id] tells deliveries apart. *)
Record BudgetApproval := { ba_id : nat; approved : bool; newBudget : option Q }.

(** The result of [analyzeFile]: its cost and the types of the issues found. *)
Record FileAnalysis := { fa_cost : Q; fa_issues : list string }.

Record RefactorPlan := { planId : string; batches : list string }.

(** Call sites of [notifyUser]. *)
Inductive NotifySite :=
| NBudget (i : nat) | NPlan | NBatchFailed (j : nat) | NDone.

(** What the substrate and the activities contribute to one run. *)
Record AnalysisEnv := {
  ae_cancel : nat -> bool;                     (* [cancelled] as read at the top of iteration i *)
  ae_analyze : nat -> option FileAnalysis;     (* analyzeFile(files[i]), None when it throws *)
  ae_budget_signal : nat -> option BudgetApproval;
      (* approveBudget delivered during iteration i, before its budget check resolves *)
  ae_notify_ok : NotifySite -> bool;           (* notifyUser succeeds *)
  ae_progress_ok : nat -> bool;                (* emitProgress at iteration i succeeds *)
  ae_plan : option RefactorPlan;               (* generateRefactorPlan *)
  ae_plan_signal : option bool;                (* planApproval.approved when the 24h wait ends; None: timeout *)
  ae_refactor : nat -> option Q;               (* refactorBatch(batches[j]): its cost *)
  ae_tests : nat -> option bool;               (* runTests(batches[j]): passed *)
  ae_rollback_ok : nat -> bool }.              (* rollbackBatch(batches[j]) succeeds *)

(** Which step a cost comes from. *)
Inductive CostSource := CostAnalyze | CostPlan | CostRefactor.

(** Activity calls, ledger updates and ceiling checks, in program order. *)
Inductive AEvent :=
| EvAnalyzeFile (i : nat)
| EvAddCost (src : CostSource) (total : Q)
| EvCeilingCheck (total ceiling : Q)
| EvNotify (site : NotifySite)
| EvBudgetGate (i : nat) (seen : option BudgetApproval)
| EvEmitProgress (i : nat)
| EvGeneratePlan
| EvPlanGate (seen : option bool)
| EvRefactorBatch (j : nat)
| EvRunTests (j : nat)
| EvRollback (j : nat).

(** An activity call that threw. *)
Inductive AnalysisError := ErrActivity (call : AEvent).

(** The [state] object, the local [analyses] array, the [budgetApproval]
    slot, and the log. *)
Record AnalysisState := mkAS {
  a_status : AnalysisStatus;
  filesAnalyzed : nat;
  totalFiles : nat;
  costSoFar : Q;
  budgetRemaining : Q;
  issues : list string;
  refactorPlan : option RefactorPlan;
  analyses : list FileAnalysis;
  results : list FileAnalysis;
  budgetApproval : option BudgetApproval;
  alog : list AEvent }.

Definition AM := SE AnalysisState AnalysisError.

(** [task.budget || 100] *)
Definition budget_or_default (b : option Q) : Q :=
  match b with
  | Some x => if Qeq_bool x 0 then 100 else x
  | None => 100
  end.

Definition set_status (st : AnalysisStatus) : AM unit :=
  modify (fun a => mkAS st a.(filesAnalyzed) a.(totalFiles) a.(costSoFar) a.(budgetRemaining)
                     a.(issues) a.(refactorPlan) a.(analyses) a.(results) a.(budgetApproval) a.(alog)).

Definition log (ev : AEvent) : AM unit :=
  modify (fun a => mkAS a.(a_status) a.(filesAnalyzed) a.(totalFiles) a.(costSoFar) a.(budgetRemaining)
                     a.(issues) a.(refactorPlan) a.(analyses) a.(results) a.(budgetApproval)
                     (a.(alog) ++ [ev])).

(** [analyses.push(fa); state.filesAnalyzed = n; state.issues.push(...fa.issues)] *)
Definition record_file (n : nat) (fa : FileAnalysis) : AM unit :=
  modify (fun a => mkAS a.(a_status) n a.(totalFiles) a.(costSoFar) a.(budgetRemaining)
                     (a.(issues) ++ fa.(fa_issues)) a.(refactorPlan) (a.(analyses) ++ [fa])
                     a.(results) a.(budgetApproval) a.(alog)).

(** [state.costSoFar += c], recorded in the log with the new total. *)
Definition add_cost (src : CostSource) (c : Q) : AM unit :=
  modify (fun a => mkAS a.(a_status) a.(filesAnalyzed) a.(totalFiles) (a.(costSoFar) + c)
                     a.(budgetRemaining) a.(issues) a.(refactorPlan) a.(analyses) a.(results)
                     a.(budgetApproval) (a.(alog) ++ [EvAddCost src (a.(costSoFar) + c)])).

Definition set_budgetRemaining (r : Q) : AM unit :=
  modify (fun a => mkAS a.(a_status) a.(filesAnalyzed) a.(totalFiles) a.(costSoFar) r
                     a.(issues) a.(refactorPlan) a.(analyses) a.(results) a.(budgetApproval) a.(alog)).

Definition set_refactorPlan (p : RefactorPlan) : AM unit :=
  modify (fun a => mkAS a.(a_status) a.(filesAnalyzed) a.(totalFiles) a.(costSoFar) a.(budgetRemaining)
                     a.(issues) (Some p) a.(analyses) a.(results) a.(budgetApproval) a.(alog)).

(** [state.results = analyses] *)
Definition set_results : AM unit :=
  modify (fun a => mkAS a.(a_status) a.(filesAnalyzed) a.(totalFiles) a.(costSoFar) a.(budgetRemaining)
                     a.(issues) a.(refactorPlan) a.(analyses) a.(analyses) a.(budgetApproval) a.(alog)).

(** The [approveBudget] handler: [budgetApproval = approval]. *)
Definition deliver (d : option BudgetApproval) : AM unit :=
  match d with
  | Some _ =>
      modify (fun a => mkAS a.(a_status) a.(filesAnalyzed) a.(totalFiles) a.(costSoFar)
                         a.(budgetRemaining) a.(issues) a.(refactorPlan) a.(analyses) a.(results)
                         d a.(alog))
  | None => ret tt
  end.

(** [budgetApproval = undefined] *)
Definition clear_budgetApproval : AM unit :=
  modify (fun a => mkAS a.(a_status) a.(filesAnalyzed) a.(totalFiles) a.(costSoFar) a.(budgetRemaining)
                     a.(issues) a.(refactorPlan) a.(analyses) a.(results) None a.(alog)).

(** An awaited activity call: it is logged, then returns or throws. *)
Definition call {A} (ev : AEvent) (r : option A) : AM A :=
  log ev ;;
  match r with Some a => ret a | None => raise (ErrActivity ev) end.

Definition call_ok (ev : AEvent) (ok : bool) : AM unit :=
  call ev (if ok then Some tt else None).

(** Lines 203-219: the budget gate at iteration [i]; [false] is the early
    [return state]. *)
Definition budget_gate (env : AnalysisEnv) (i : nat) : AM bool :=
  set_status budget_exceeded ;;
  call_ok (EvNotify (NBudget i)) (env.(ae_notify_ok) (NBudget i)) ;;
  a <- get ;;
  log (EvBudgetGate i a.(budgetApproval)) ;;
  match a.(budgetApproval) with
  | Some ba =>
      if ba.(approved) then
        (match ba.(newBudget) with
         | Some nb => if Qeq_bool nb 0 then ret tt
                      else (a <- get ;; set_budgetRemaining (nb - a.(costSoFar)))
         | None => ret tt
         end) ;;
        clear_budgetApproval ;;
        set_status analyzing ;;
        ret true
      else set_status cancelled ;; ret false
  | None => set_status cancelled ;; ret false
  end.

(** Lines 164-230: the loop over [task.files] from index [i]; [false] is an
    early [return state]. *)
Fixpoint file_loop (task : CodebaseAnalysisTask) (env : AnalysisEnv) (fs : list string) (i : nat)
    : AM bool :=
  match fs with
  | [] => ret true
  | _ :: fs' =>
      if env.(ae_cancel) i then set_status cancelled ;; ret false else
      fa <- call (EvAnalyzeFile i) (env.(ae_analyze) i) ;;
      record_file (S i) fa ;;
      add_cost CostAnalyze fa.(fa_cost) ;;
      a <- get ;;
      set_budgetRemaining (budget_or_default task.(budget) - a.(costSoFar)) ;;
      deliver (env.(ae_budget_signal) i) ;;
      a <- get ;;
      log (EvCeilingCheck a.(costSoFar) (budget_or_default task.(budget))) ;;
      cont <- (if qlt_b (budget_or_default task.(budget)) a.(costSoFar)
               then budget_gate env i else ret true) ;;
      if cont then
        (if Nat.eqb (i mod 10) 0 || Nat.eqb i (List.length task.(files) - 1)
         then call_ok (EvEmitProgress i) (env.(ae_progress_ok) i) else ret tt) ;;
        file_loop task env fs' (S i)
      else ret false
  end.

(** Lines 267-301: one iteration per batch, with the inner [try/catch]. *)
Fixpoint batch_loop (env : AnalysisEnv) (bs : list string) (j : nat) : AM unit :=
  match bs with
  | [] => ret tt
  | _ :: bs' =>
      catch
        (c <- call (EvRefactorBatch j) (env.(ae_refactor) j) ;;
         add_cost CostRefactor c ;;
         set_status testing ;;
         passed <- call (EvRunTests j) (env.(ae_tests) j) ;;
         (if passed then ret tt
          else call_ok (EvRollback j) (env.(ae_rollback_ok) j) ;;
               call_ok (EvNotify (NBatchFailed j)) (env.(ae_notify_ok) (NBatchFailed j))) ;;
         set_status refactoring)
        (fun e => call_ok (EvRollback j) (env.(ae_rollback_ok) j) ;; raise e) ;;
      batch_loop env bs' (S j)
  end.

(** Lines 235-303: stages 2 to 4; [false] is an early [return state]. *)
Definition plan_stage (task : CodebaseAnalysisTask) (env : AnalysisEnv) : AM bool :=
  a <- get ;;
  match task.(targetImprovement), a.(analyses) with
  | Some _, _ :: _ =>
      set_status planning ;;
      plan <- call EvGeneratePlan env.(ae_plan) ;;
      set_refactorPlan plan ;;
      add_cost CostPlan (1 # 10) ;;
      match task.(requiresApproval) with
      | Some true =>
          set_status awaiting_approval ;;
          call_ok (EvNotify NPlan) (env.(ae_notify_ok) NPlan) ;;
          log (EvPlanGate env.(ae_plan_signal)) ;;
          match env.(ae_plan_signal) with
          | Some true =>
              set_status refactoring ;;
              batch_loop env plan.(batches) 0 ;;
              ret true
          | _ => set_status cancelled ;; ret false
          end
      | _ => ret true
      end
  | _, _ => ret true
  end.

(** Lines 158-322. *)
Definition analysis_body (task : CodebaseAnalysisTask) (env : AnalysisEnv) : AM unit :=
  set_status analyzing ;;
  cont <- file_loop task env task.(files) 0 ;;
  if cont then
    set_results ;;
    cont <- plan_stage task env ;;
    if cont then
      set_status completed ;;
      call_ok (EvNotify NDone) (env.(ae_notify_ok) NDone)
    else ret tt
  else ret tt.

Definition init_analysis (task : CodebaseAnalysisTask) : AnalysisState :=
  mkAS initializing 0 (List.length task.(files)) 0 (budget_or_default task.(budget))
       [] None [] [] None [].

(** The returned (or, on a throw, the final) [state] comes with the outcome. *)
Definition codebaseAnalysisWorkflow (task : CodebaseAnalysisTask) (env : AnalysisEnv)
    : (AnalysisError + unit) * AnalysisState :=
  catch (analysis_body task env)
        (fun e => set_status failed ;; raise e)
        (init_analysis task).

(** Budget approvals observed by the budget gate, in order. *)
Definition observed_approvals (l : list AEvent) : list BudgetApproval :=
  flat_map (fun ev => match ev with EvBudgetGate _ (Some d) => [d] | _ => [] end) l.

(** The ledger totals, in order. *)
Definition cost_trace (l : list AEvent) : list Q :=
  flat_map (fun ev => match ev with EvAddCost _ t => [t] | _ => [] end) l.

(** Every analyzeFile cost is followed at once by a ceiling check. *)
Fixpoint checked_after_analyze (l : list AEvent) : bool :=
  match l with
  | [] => true
  | EvAddCost CostAnalyze _ :: rest =>
      match rest with
      | EvCeilingCheck _ _ :: _ => checked_after_analyze rest
      | _ => false
      end
  | _ :: rest => checked_after_analyze rest
  end.

(** Every ledger update is followed at once by a ceiling check. *)
Fixpoint checked_after_every_cost (l : list AEvent) : bool :=
  match l with
  | [] => true
  | EvAddCost _ _ :: rest =>
      match rest with
      | EvCeilingCheck _ _ :: _ => checked_after_every_cost rest
      | _ => false
      end
  | _ :: rest => checked_after_every_cost rest
  end.

(** Activities of stage 4. *)
Definition is_batch_call (ev : AEvent) : bool :=
  match ev with EvRefactorBatch _ | EvRunTests _ | EvRollback _ => true | _ => false end.

Definition budget_gates (l : list AEvent) : list AEvent :=
  filter (fun ev => match ev with EvBudgetGate _ _ => true | _ => false end) l.

(** Each delivery of [approveBudget] carries its own id. *)
Definition approval_ids_distinct (env : AnalysisEnv) : Prop :=
  forall i1 i2 d1 d2, env.(ae_budget_signal) i1 = Some d1 -> env.(ae_budget_signal) i2 = Some d2 ->
    d1.(ba_id) = d2.(ba_id) -> i1 = i2.

(** Invariant of [file_loop] at iteration [i] for the budget gate. *)
Definition bgate_inv (env : AnalysisEnv) (w i : nat) (a : AnalysisState) : Prop :=
  (w <= i /\
   (forall d, In d (observed_approvals a.(alog)) -> exists k, k < w /\ env.(ae_budget_signal) k = Some d) /\
   NoDup (map ba_id (observed_approvals a.(alog))) /\
   (forall d, a.(budgetApproval) = Some d -> exists k, w <= k < i /\ env.(ae_budget_signal) k = Some d))%nat.

(** The log ends with an analyzeFile cost that awaits its check. *)
Definition pending (l : list AEvent) : bool :=
  match last l EvGeneratePlan with EvAddCost CostAnalyze _ => true | _ => false end.

(** Invariant of the ledger between statements of the workflow. *)
Definition ledger_inv (a : AnalysisState) : Prop :=
  checked_after_analyze a.(alog) = true /\ pending a.(alog) = false /\
  Sorted Qle (0%Q :: cost_trace a.(alog)) /\
  Forall (fun x => x <= a.(costSoFar))%Q (0%Q :: cost_trace a.(alog)).

(** [l'] extends [l] with no stage-4 activity call. *)
Definition no_new_batch_calls (l l' : list AEvent) : Prop :=
  forall ev, In ev l' -> In ev l \/ is_batch_call ev = false.

(** A ledger update of the refactor plan or of a refactor batch. *)
Definition is_late_cost (ev : AEvent) : bool :=
  match ev with EvAddCost CostPlan _ | EvAddCost CostRefactor _ => true | _ => false end.

Definition is_ceiling_check (ev : AEvent) : bool :=
  match ev with EvCeilingCheck _ _ => true | _ => false end.

(** Each ceiling check of [l] comes right after an analyzeFile cost;
    [prev] is the event before [l]. *)
Fixpoint checks_follow_analyze (prev : AEvent) (l : list AEvent) : bool :=
  match l with
  | [] => true
  | ev :: rest =>
      (negb (is_ceiling_check ev) ||
       match prev with EvAddCost CostAnalyze _ => true | _ => false end) &&
      checks_follow_analyze ev rest
  end.

End Analysis.

(** ** multiAgentCodebaseWorkflow (unnamed/part_001, lines 350-407) *)

Module MultiAgent.

Local Open Scope string_scope.

Inductive Child := ChArchitecture | ChSecurity | ChPerformance.

(** A failed child execution, as seen by the parent. *)
Inductive MultiError := ChildFailed (c : Child) (e : Analysis.AnalysisError).

(** The environment of each child run, and the time at which each of the
    two parallel children completes. *)
Record MultiEnv := {
  me_child : Child -> Analysis.AnalysisEnv;
  me_finish : Child -> nat }.

Record MultiResult := {
  mr_status : string;
  architecture : Analysis.AnalysisState;
  security : Analysis.AnalysisState;
  performance : option Analysis.AnalysisState }.

(** The task handed to each child (lines 356-364, 368-376, 387-395). *)
Definition child_task (c : Child) : Analysis.CodebaseAnalysisTask :=
  {| Analysis.taskId := match c with
                        | ChArchitecture => "arch" | ChSecurity => "sec" | ChPerformance => "perf"
                        end;
     Analysis.files := ["file1.ts"; "file2.ts"];
     Analysis.targetImprovement := None;
     Analysis.budget := None;
     Analysis.requiresApproval := None |}.

(** [executeChild(codebaseAnalysisWorkflow, ...)]: the child's returned state,
    or its failure. *)
Definition run_child (env : MultiEnv) (c : Child) : MultiError + Analysis.AnalysisState :=
  match Analysis.codebaseAnalysisWorkflow (child_task c) (env.(me_child) c) with
  | (inr _, st) => inr st
  | (inl e, _) => inl (ChildFailed c e)
  end.

(** [Promise.all([p, q])]: fulfilled when both are, otherwise rejected with
    the rejection that settles first ([p]'s on a tie). *)
Definition promise_all2 {E A B} (p : E + A) (tp : nat) (q : E + B) (tq : nat) : E + (A * B) :=
  match p, q with
  | inr a, inr b => inr (a, b)
  | inl e, inr _ => inl e
  | inr _, inl e => inl e
  | inl ep, inl eq => if Nat.ltb tq tp then inl eq else inl ep
  end.

(** [architectureResult.issues.some(i => i.type === 'performance-issue')] *)
Definition has_performance_issue (st : Analysis.AnalysisState) : bool :=
  existsb (fun i => String.eqb i "performance-issue") st.(Analysis.issues).

(** The parent's outcome, with the children it started, in order. *)
Definition multiAgentCodebaseWorkflow (env : MultiEnv) : (MultiError + MultiResult) * list Child :=
  match promise_all2 (run_child env ChArchitecture) (env.(me_finish) ChArchitecture)
                     (run_child env ChSecurity) (env.(me_finish) ChSecurity) with
  | inl e => (inl e, [ChArchitecture; ChSecurity])
  | inr (ar, sr) =>
      if has_performance_issue ar then
        match run_child env ChPerformance with
        | inl e => (inl e, [ChArchitecture; ChSecurity; ChPerformance])
        | inr pr =>
            (inr {| mr_status := "completed"; architecture := ar; security := sr;
                    performance := Some pr |}, [ChArchitecture; ChSecurity; ChPerformance])
        end
      else
        (inr {| mr_status := "completed"; architecture := ar; security := sr;
                performance := None |}, [ChArchitecture; ChSecurity])
  end.

End MultiAgent.

(** ** JavaScript helpers shared by the activity modules *)

Module Js.

(** A [Map<string, V>]: entries in insertion order. [set] on a present key
    updates it in place, on a new key appends; [delete] removes the entry. *)
Section JsMap.
Context {V : Type}.

Fixpoint map_get (k : string) (m : list (string * V)) : option V :=
  match m with
  | [] => None
  | (k', v) :: rest => if String.eqb k k' then Some v else map_get k rest
  end.

Fixpoint map_set (k : string) (v : V) (m : list (string * V)) : list (string * V) :=
  match m with
  | [] => [(k, v)]
  | (k', v') :: rest => if String.eqb k k' then (k, v) :: rest else (k', v') :: map_set k v rest
  end.

Fixpoint map_delete (k : string) (m : list (string * V)) : list (string * V) :=
  match m with
  | [] => []
  | (k', v') :: rest => if String.eqb k k' then rest else (k', v') :: map_delete k rest
  end.

(** [Array.from(m.values())] *)
Definition map_values (m : list (string * V)) : list V := List.map snd m.

End JsMap.

(** [arr[i]] on an integer index: [undefined] outside the array. *)
Definition js_index {A} (l : list A) (i : Z) : option A :=
  if Z.ltb i 0 then None else nth_error l (Z.to_nat i).

(** A digit in radix up to 36, lowercase as [Number.prototype.toString]. *)
Definition digit_char (d : Z) : ascii :=
  ascii_of_nat (Z.to_nat (if Z.ltb d 10 then 48 + d else 87 + d)).

Fixpoint digits (fuel : nat) (radix n : Z) (acc : string) : string :=
  match fuel with
  | O => acc
  | S fuel' =>
      let acc' := String (digit_char (n mod radix)) acc in
      if Z.eqb (n / radix) 0 then acc' else digits fuel' radix (n / radix) acc'
  end.

(** [n.toString(radix)] for an integer [n]; [log2 n + 1] bounds the number
    of digits for every radix from 2. *)
Definition toString (radix n : Z) : string :=
  let m := Z.abs n in
  let s := digits (S (Z.to_nat (Z.log2 m))) radix m EmptyString in
  if Z.ltb n 0 then String "-" s else s.

Fixpoint repeat_char (n : nat) (c : ascii) : string :=
  match n with O => EmptyString | S n' => String c (repeat_char n' c) end.

(** [s.padStart(targetLength, c)] with a one-character filler. *)
Definition padStart (s : string) (targetLength : nat) (c : ascii) : string :=
  if Nat.ltb (String.length s) targetLength
  then (repeat_char (targetLength - String.length s) c ++ s)%string
  else s.

(** [s.toUpperCase()] on ASCII text. *)
Definition ascii_upper (c : ascii) : ascii :=
  let n := nat_of_ascii c in
  if Nat.leb 97 n && Nat.leb n 122 then ascii_of_nat (n - 32) else c.

Fixpoint toUpperCase (s : string) : string :=
  match s with
  | EmptyString => EmptyString
  | String c rest => String (ascii_upper c) (toUpperCase rest)
  end.

(** [s.substring(a, b)] for [0 <= a <= b]. *)
Definition js_substring (s : string) (a b : nat) : string := String.substring a (b - a) s.

End Js.

(** ** Inventory activities (unnamed/part_001, lines 494-583) *)

Module Inventory.
Import Js.
Local Open Scope string_scope.

(** A stored stock level: a number, or [NaN] ([undefined - q]). *)
Inductive JNum := JInt (z : Z) | JNaN.

(** [inventoryDB.get(id) || 0]: [undefined], [NaN] and [0] give [0]. *)
Definition or_zero (v : option JNum) : Z :=
  match v with Some (JInt z) => z | _ => 0 end.

(** [inventoryDB.get(id)! - q] *)
Definition js_sub (v : option JNum) (q : Z) : JNum :=
  match v with Some (JInt c) => JInt (c - q) | _ => JNaN end.

(** [OrderItem] (types.ts); quantities are integers. *)
Record OrderItem := { productId : string; productName : string; quantity : Z; price : Q }.

Record ReserveInventoryInput := { orderId : string; items : list OrderItem }.

(** [InventoryReservation] without [expiresAt]. *)
Record InventoryReservation := {
  reservationId : string; res_orderId : string; res_items : list OrderItem }.

(** The two module-level maps. *)
Record InventoryStore := mkStore {
  inventoryDB : list (string * JNum);
  reservations : list (string * InventoryReservation) }.

(** [InventoryError('Insufficient inventory for <name>. Requested: q, Available: a')] *)
Inductive InventoryError := InsufficientInventory (productName : string) (requested available : Z).

Definition initialInventoryDB : list (string * JNum) :=
  [("product-1", JInt 100); ("product-2", JInt 50); ("product-3", JInt 200);
   ("product-4", JInt 10); ("product-5", JInt 0)].

(** The first loop (lines 519-529): every item against the stock as it was
    before any reservation. *)
Fixpoint check_items (db : list (string * JNum)) (its : list OrderItem) : option InventoryError :=
  match its with
  | [] => None
  | it :: rest =>
      let available := or_zero (map_get it.(productId) db) in
      if Z.ltb available it.(quantity)
      then Some (InsufficientInventory it.(productName) it.(quantity) available)
      else check_items db rest
  end.

(** The second loop (lines 532-535). *)
Fixpoint reserve_items (db : list (string * JNum)) (its : list OrderItem) : list (string * JNum) :=
  match its with
  | [] => db
  | it :: rest =>
      reserve_items (map_set it.(productId) (js_sub (map_get it.(productId) db) it.(quantity)) db) rest
  end.

(** [reserveInventory(input)]; [uuid] is the value of [uuidv4()]. *)
Definition reserveInventory (uuid : string) (input : ReserveInventoryInput) (s : InventoryStore)
    : (InventoryError + InventoryReservation) * InventoryStore :=
  match check_items s.(inventoryDB) input.(items) with
  | Some e => (inl e, s)
  | None =>
      let r := {| reservationId := uuid; res_orderId := input.(orderId); res_items := input.(items) |} in
      (inr r, mkStore (reserve_items s.(inventoryDB) input.(items))
                      (map_set uuid r s.(reservations)))
  end.

(** Lines 570-573. *)
Fixpoint release_items (db : list (string * JNum)) (its : list OrderItem) : list (string * JNum) :=
  match its with
  | [] => db
  | it :: rest =>
      release_items (map_set it.(productId) (JInt (or_zero (map_get it.(productId) db) + it.(quantity))) db) rest
  end.

Definition releaseInventory (reservationId : string) (s : InventoryStore) : InventoryStore :=
  match map_get reservationId s.(reservations) with
  | None => s
  | Some r => mkStore (release_items s.(inventoryDB) r.(res_items))
                      (map_delete reservationId s.(reservations))
  end.

Definition checkInventory (productId : string) (s : InventoryStore) : Z :=
  or_zero (map_get productId s.(inventoryDB)).

(** Sum of the quantities the items request of one product. *)
Definition total_quantity (p : string) (its : list OrderItem) : Z :=
  fold_right (fun it acc => if String.eqb p it.(productId) then it.(quantity) + acc else acc) 0 its.

(** Every item names a product whose stock entry is an integer. *)
Definition stocked (db : list (string * JNum)) (its : list OrderItem) : Prop :=
  forall it, In it its -> exists c, map_get it.(productId) db = Some (JInt c).

End Inventory.

(** ** Payment activities (payment.ts) *)

Module Payment.
Import Js.

Inductive PaymentStatus := ps_success | ps_failed | ps_pending.

Record PaymentResult := {
  paymentId : string; status : PaymentStatus;
  transactionId : option string; errorMessage : option string }.

Inductive PaymentMethodType := credit_card | debit_card | paypal.

Record ProcessPaymentInput := {
  orderId : string; customerId : string; amount : Q; paymentMethod : PaymentMethodType }.

(** The module-level [payments] map and [paymentAttempts] counter. *)
Record PaymentStore := mkPS { payments : list (string * PaymentResult); paymentAttempts : Z }.

Inductive PaymentError := GatewayUnavailable | Declined.

(** What one call draws: [Math.random()] at line 56, [uuidv4()], and the
    [transactionId] text built from [Date.now()] and [Math.random()]. *)
Record PaymentDraws := { pd_random : Q; pd_uuid : string; pd_txn : string }.

Definition is_success (p : PaymentResult) : bool :=
  match p.(status) with ps_success => true | _ => false end.

(** [processPayment(input)], lines 30-89. *)
Definition processPayment (input : ProcessPaymentInput) (d : PaymentDraws) (s : PaymentStore)
    : (PaymentError + PaymentResult) * PaymentStore :=
  match find (fun p => is_success p && String.eqb input.(orderId) input.(orderId))
             (map_values s.(payments)) with
  | Some existing => (inr existing, s)
  | None =>
      let attempts := s.(paymentAttempts) + 1 in
      if qlt_b d.(pd_random) (3 # 10) && Z.ltb attempts 3 then
        (inl GatewayUnavailable, mkPS s.(payments) attempts)
      else if qlt_b 10000 input.(amount)
              && match input.(paymentMethod) with credit_card => true | _ => false end then
        let failedPayment := {| paymentId := d.(pd_uuid); status := ps_failed; transactionId := None;
                                errorMessage := Some "Payment declined - insufficient funds"%string |} in
        (inl Declined, mkPS (map_set d.(pd_uuid) failedPayment s.(payments)) attempts)
      else
        let payment := {| paymentId := d.(pd_uuid); status := ps_success;
                          transactionId := Some d.(pd_txn); errorMessage := None |} in
        (inr payment, mkPS (map_set d.(pd_uuid) payment s.(payments)) 0)
  end.

(** [refundPayment(paymentId)], lines 97-122: the stored object is mutated.
    The argument is [pid]. *)
Definition refundPayment (pid : string) (s : PaymentStore) : PaymentStore :=
  match map_get pid s.(payments) with
  | None => s
  | Some p =>
      if is_success p then
        mkPS (map_set pid {| paymentId := p.(paymentId); status := ps_failed;
                                   transactionId := p.(transactionId);
                                   errorMessage := Some "Refunded"%string |} s.(payments))
             s.(paymentAttempts)
      else s
  end.

Definition getPaymentStatus (pid : string) (s : PaymentStore) : option PaymentResult :=
  map_get pid s.(payments).

(** A sequence of [processPayment] calls. *)
Fixpoint run_payments (calls : list (ProcessPaymentInput * PaymentDraws)) (s : PaymentStore)
    : list (PaymentError + PaymentResult) * PaymentStore :=
  match calls with
  | [] => ([], s)
  | (i, d) :: rest =>
      let (r, s') := processPayment i d s in
      let (rs, s'') := run_payments rest s' in
      (r :: rs, s'')
  end.

Definition is_transient (r : PaymentError + PaymentResult) : bool :=
  match r with inl GatewayUnavailable => true | _ => false end.

End Payment.

(** ** Shipping activities (activities/index.ts, lines 25-126) *)

Module Shipping.
Import Js.
Local Open Scope string_scope.

(** [ShipmentResult] without [estimatedDeliveryDate]. *)
Record ShipmentResult := { shipmentId : string; trackingNumber : string; carrier : string }.

Definition CARRIERS : list string := ["FedEx"; "UPS"; "USPS"; "DHL"].

Inductive ShipmentError :=
| CarrierUnavailable   (* ShipmentError('Carrier API temporarily unavailable') *)
| TypeErrorUndefined.  (* [undefined.substring] when the carrier index is out of range *)

(** [generateTrackingNumber(carrier)]; [rand36] is [Math.random().toString(36)]. *)
Definition generateTrackingNumber (carrier rand36 : string) : string :=
  toUpperCase (js_substring carrier 0 3) ++ toUpperCase (js_substring rand36 2 15).

(** The draws of one [createShipment] call: the two [Math.random()] values,
    the base-36 text of the third, and [uuidv4()]. *)
Record ShipmentDraws := { sd_fail : Q; sd_carrier : Q; sd_rand36 : string; sd_uuid : string }.

Definition createShipment (d : ShipmentDraws) (s : list (string * ShipmentResult))
    : (ShipmentError + ShipmentResult) * list (string * ShipmentResult) :=
  if qlt_b d.(sd_fail) (1 # 10) then (inl CarrierUnavailable, s) else
  match js_index CARRIERS (Qfloor (d.(sd_carrier) * inject_Z (Z.of_nat (List.length CARRIERS)))) with
  | None => (inl TypeErrorUndefined, s)
  | Some c =>
      let sh := {| shipmentId := d.(sd_uuid); trackingNumber := generateTrackingNumber c d.(sd_rand36);
                   carrier := c |} in
      (inr sh, map_set sh.(shipmentId) sh s)
  end.

Definition cancelShipment (shipmentId : string) (s : list (string * ShipmentResult))
    : list (string * ShipmentResult) :=
  match map_get shipmentId s with
  | None => s
  | Some _ => map_delete shipmentId s
  end.

Definition getShipmentTracking (shipmentId : string) (s : list (string * ShipmentResult))
    : option ShipmentResult :=
  map_get shipmentId s.

End Shipping.

(** ** Agent activities (activities/index.ts, lines 251-363) *)

Module AgentActivities.
Import Js.
Local Open Scope string_scope.

Record CodeIssue := {
  severity : option string; issue_type : option string; message : string; line : Z }.

(** [AnalyzeFileResult] without [analysisTimeMs]. *)
Record AnalyzeFileResult := {
  filePath : string; linesOfCode : Z; complexity : Z; issues : list CodeIssue;
  suggestions : list string; cost : Q }.

Definition SEVERITIES : list string := ["critical"; "high"; "medium"; "low"].
Definition ISSUE_TYPES : list string :=
  ["code-smell"; "security-risk"; "performance-issue"; "maintainability"].

(** The issue loop (lines 266-273); [rand k] is the [k]-th [Math.random()]
    value of the call. *)
Fixpoint issues_loop (fp : string) (loc : Z) (rand : nat -> Q) (k : nat) (n : nat) : list CodeIssue :=
  match n with
  | O => []
  | S n' =>
      {| severity := js_index SEVERITIES (Qfloor (rand k * 4));
         issue_type := js_index ISSUE_TYPES (Qfloor (rand (k + 1)%nat * 4));
         message := "Issue detected in " ++ fp;
         line := Qfloor (rand (k + 2)%nat * inject_Z loc) |}
      :: issues_loop fp loc rand (k + 3) n'
  end.

(** [analyzeFile(input)]; draw 0 is the simulated analysis time. *)
Definition analyzeFile (fp : string) (rand : nat -> Q) : AnalyzeFileResult :=
  let loc := Qfloor (rand 1%nat * 500) + 50 in
  let cx := Qfloor (rand 2%nat * 20) + 1 in
  let numIssues := Qfloor (rand 3%nat * 5) in
  {| filePath := fp; linesOfCode := loc; complexity := cx;
     issues := issues_loop fp loc rand 4 (Z.to_nat numIssues);
     suggestions := ["Refactor " ++ fp; "Add tests for " ++ fp];
     cost := 1 # 100 |}.

Definition sev_is (s : string) (i : CodeIssue) : bool :=
  match i.(severity) with Some s' => String.eqb s' s | None => false end.

Definition is_high (i : CodeIssue) : bool := sev_is "critical" i || sev_is "high" i.

Definition highPriorityFiles (analyses : list AnalyzeFileResult) : list string :=
  map filePath (filter (fun a => existsb is_high a.(issues)) analyses).

Definition mediumPriorityFiles (analyses : list AnalyzeFileResult) (high : list string) : list string :=
  map filePath (filter (fun a => existsb (sev_is "medium") a.(issues)
                                 && negb (existsb (String.eqb a.(filePath)) high)) analyses).

Inductive Priority := p_high | p_medium | p_low.

Record RefactorBatch := {
  batchId : string; files : list string; priority : Priority; estimatedImpact : string }.

(** [createBatches(files, priority)]: [for (i = 0; i < files.length; i += 5)]
    from index [i]; [uuid n] is the [n]-th [uuidv4()] of the call, and the
    loop never needs more than [files.length] iterations. *)
Fixpoint create_batches (uuid : nat -> string) (fuel : nat) (fs : list string) (pr : Priority)
    (i next : nat) : list RefactorBatch :=
  match fuel with
  | O => []
  | S fuel' =>
      if Nat.ltb i (List.length fs) then
        {| batchId := uuid next; files := firstn 5 (skipn i fs); priority := pr;
           estimatedImpact := match pr with p_high => "Fixes critical issues"
                                           | _ => "Improves code quality" end |}
        :: create_batches uuid fuel' fs pr (i + 5) (S next)
      else []
  end.

Record RefactorPlan := {
  planId : string; totalFiles : Z; batches : list RefactorBatch;
  estimatedDuration : Z; estimatedCost : Q; recommendations : list string }.

(** [generateRefactorPlan(input)]; only [input.analyses] is used beyond logging. *)
Definition generateRefactorPlan (uuid : nat -> string) (analyses : list AnalyzeFileResult) : RefactorPlan :=
  let high := highPriorityFiles analyses in
  let medium := mediumPriorityFiles analyses high in
  let hb := create_batches uuid (List.length high) high p_high 0 0 in
  let mb := create_batches uuid (List.length medium) medium p_medium 0 (List.length hb) in
  let bs := (hb ++ mb)%list in
  {| planId := uuid (List.length bs);
     totalFiles := Z.of_nat (List.length analyses);
     batches := bs;
     estimatedDuration := Z.of_nat (List.length bs) * 5;
     estimatedCost := inject_Z (Z.of_nat (List.length bs)) * (1 # 2);
     recommendations := ["Start with high-priority batches"; "Run tests after each batch";
                         "Monitor for regressions"] |}.

End AgentActivities.

(** ** adaptiveAnalysisWorkflow (unnamed/part_001, lines 411-478) *)

Module Adaptive.
Import Js.
Local Open Scope string_scope.

Inductive Strategy := breadth_first | depth_first.

Inductive Recommendation := rec_continue | rec_switch_strategy | rec_complete.

Record QualityAnalysis := {
  coverage : Q; novelty : Q; q_depth : Q;
  recommendation : Recommendation; suggestedStrategy : option Strategy }.

Record AdaptiveAnalysisTask := { topic : string; maxDepth : Z }.

(** Activity results of one run, by loop depth. *)
Record AdaptiveEnv := {
  ad_analyze : Z -> option AgentActivities.AnalyzeFileResult;
  ad_quality : Z -> option QualityAnalysis;
  ad_publish_ok : Z -> bool }.

Inductive AdEvent :=
| EvAnalyzeFile (fp : string) (depth : Z)
| EvAnalyzeQuality (resultCount : nat)
| EvPublishProgress (oldStrategy newStrategy : Strategy).

Inductive AdaptiveError := AdActivityFailed (ev : AdEvent).

Record AdState := mkAd {
  strategy : Strategy; results : list AgentActivities.AnalyzeFileResult; adlog : list AdEvent }.

Definition AdM := SE AdState AdaptiveError.

Definition log (ev : AdEvent) : AdM unit :=
  modify (fun st => mkAd st.(strategy) st.(results) (st.(adlog) ++ [ev])%list).

Definition call {A} (ev : AdEvent) (r : option A) : AdM A :=
  log ev ;; match r with Some a => ret a | None => raise (AdActivityFailed ev) end.

Definition push_result (r : AgentActivities.AnalyzeFileResult) : AdM unit :=
  modify (fun st => mkAd st.(strategy) (st.(results) ++ [r])%list st.(adlog)).

Definition set_strategy (s : Strategy) : AdM unit :=
  modify (fun st => mkAd s st.(results) st.(adlog)).

(** [while (depth <= task.maxDepth)], with [fuel] iterations left. *)
Fixpoint adaptive_loop (task : AdaptiveAnalysisTask) (env : AdaptiveEnv) (fuel : nat) (depth : Z)
    : AdM Z :=
  match fuel with
  | O => ret depth
  | S fuel' =>
      if Z.leb depth task.(maxDepth) then
        let fp := task.(topic) ++ "-depth-" ++ toString 10 depth in
        r <- call (EvAnalyzeFile fp depth) (env.(ad_analyze) depth) ;;
        push_result r ;;
        st <- get ;;
        q <- call (EvAnalyzeQuality (List.length st.(results))) (env.(ad_quality) depth) ;;
        match q.(recommendation) with
        | rec_complete => ret depth
        | rec_switch_strategy =>
            (match q.(suggestedStrategy) with
             | Some s =>
                 set_strategy s ;;
                 st' <- get ;;
                 call (EvPublishProgress st'.(strategy) s)
                      (if env.(ad_publish_ok) depth then Some tt else None)
             | None => ret tt
             end) ;;
            adaptive_loop task env fuel' (depth + 1)
        | rec_continue => adaptive_loop task env fuel' (depth + 1)
        end
      else ret depth
  end.

Definition adaptiveAnalysisWorkflow (task : AdaptiveAnalysisTask) (env : AdaptiveEnv)
    : (AdaptiveError + (Strategy * Z * list AgentActivities.AnalyzeFileResult)) * AdState :=
  (depth <- adaptive_loop task env (Z.to_nat task.(maxDepth)) 1 ;;
   st <- get ;;
   ret (st.(strategy), depth - 1, st.(results))) (mkAd breadth_first [] []).

(** The new strategy of the last [publishProgress] event of a log, [s0] if
    there is none. *)
Definition last_published (l : list AdEvent) (s0 : Strategy) : Strategy :=
  fold_left (fun s ev => match ev with EvPublishProgress _ n => n | _ => s end) l s0.

End Adaptive.

(** ** generateMerkleRoot (activities/ml-training.ts, lines 262-272) *)

Module Merkle.
Import Js.
Local Open Scope string_scope.

(** [loss_toFixed6] is the text of [loss.toFixed(6)]. *)
Definition generateMerkleRoot (modelId : string) (epoch : Z) (loss_toFixed6 : string) : string :=
  let data := modelId ++ "-" ++ toString 10 epoch ++ "-" ++ loss_toFixed6 in
  let hash := Training.hash_chars 0 data in
  "0x" ++ padStart (toString 16 (Z.abs hash)) 64 "0"%char.

End Merkle.

(** ** Sample inputs *)

Module Samples.
Import Order.
Local Open Scope string_scope.

Definition sample_order (amount : Q) : OrderInput :=
  {| orderId := "order-1"; customerId := "customer-1"; totalAmount := amount |}.

(** Reservation and payment succeed; every compensating activity throws. *)
Definition sample_order_env (cancel : CancelTiming) (approval : option ApprovalDecision)
    (ship : option (string * string)) : OrderEnv :=
  {| env_reserve := Some "res-1"; env_pay := Some "pay-1"; env_ship := ship;
     env_cancel := cancel; env_approval := approval; env_sleep_cancelled := false;
     env_comp_fails := fun _ => true |}.

Definition approve_yes : ApprovalDecision :=
  {| ad_approved := true; ad_approvedBy := Some "admin"; ad_reason := None |}.

Definition approve_no : ApprovalDecision :=
  {| ad_approved := false; ad_approvedBy := None; ad_reason := Some "too risky" |}.

End Samples.

Module TrainingSamples.
Import Training.
Local Open Scope string_scope.

Definition sample_training_cfg : TrainingConfig :=
  {| modelId := "model-1"; epochs := 20; checkpointInterval := 5; randomSeed := Some 42%Z |}.

Definition sample_decision : ResearcherDecision := {| rd_id := 1; rd_action := act_continue |}.

(** Every activity succeeds; one decision is delivered during epoch 9. *)
Definition sample_training_env : TrainingEnv :=
  {| te_workflowId := "training-wf-1"; te_init_ok := true; te_cancel := fun _ => false;
     te_train := fun _ => Some (1 # 2); te_save := fun _ => Some ("ckpt", "s3://bucket/ckpt");
     te_signal := fun e => if Z.eqb e 9 then Some sample_decision else None;
     te_eval_ok := true |}.

End TrainingSamples.

Module AnalysisSamples.
Import Analysis.
Local Open Scope string_scope.

(** No cancel; notifications, progress, tests and rollbacks succeed; the
    refactor plan is approved and each batch costs 0.5. *)
Definition base_env (analyze : nat -> option FileAnalysis)
    (budget_signal : nat -> option BudgetApproval) (plan : option RefactorPlan) : AnalysisEnv :=
  {| ae_cancel := fun _ => false; ae_analyze := analyze; ae_budget_signal := budget_signal;
     ae_notify_ok := fun _ => true; ae_progress_ok := fun _ => true; ae_plan := plan;
     ae_plan_signal := Some true; ae_refactor := fun _ => Some (1 # 2);
     ae_tests := fun _ => Some true; ae_rollback_ok := fun _ => true |}.

(** Scenario D: 20 files, budget 5, each file costs 0.5. *)
Definition scenario_d_task : CodebaseAnalysisTask :=
  {| taskId := "task-d"; files := repeat "src/file.ts" 20; targetImprovement := None;
     budget := Some 5%Q; requiresApproval := None |}.

Definition budget_raise : BudgetApproval := {| ba_id := 1; approved := true; newBudget := Some 10%Q |}.

(** One approval with [newBudget = 10], delivered at the first gate (file index 10). *)
Definition scenario_d_env : AnalysisEnv :=
  base_env (fun _ => Some {| fa_cost := 1 # 2; fa_issues := [] |})
           (fun i => if Nat.eqb i 10 then Some budget_raise else None) None.

Definition sample_plan : RefactorPlan :=
  {| planId := "plan-1"; batches := ["batch-1"; "batch-2"; "batch-3"] |}.

(** One file, budget 1, a three-batch plan that needs approval. *)
Definition refactor_task : CodebaseAnalysisTask :=
  {| taskId := "task-r"; files := ["src/a.ts"]; targetImprovement := Some imp_performance;
     budget := Some 1%Q; requiresApproval := Some true |}.

Definition refactor_env : AnalysisEnv :=
  base_env (fun _ => Some {| fa_cost := 1 # 100; fa_issues := [] |}) (fun _ => None) (Some sample_plan).

(** A target improvement without [requiresApproval]. *)
Definition plan_only_task (fs : list string) : CodebaseAnalysisTask :=
  {| taskId := "task-p"; files := fs; targetImprovement := Some imp_maintainability;
     budget := None; requiresApproval := None |}.

End AnalysisSamples.

Module MultiSamples.
Import MultiAgent.

(** A child run whose [analyzeFile] calls all succeed, or all throw. *)
Definition child_env (ok : bool) : Analysis.AnalysisEnv :=
  AnalysisSamples.base_env
    (fun _ => if ok then Some {| Analysis.fa_cost := 1 # 100; Analysis.fa_issues := [] |} else None)
    (fun _ => None) None.

(** Both parallel children fail; the security child fails first. *)
Definition both_fail : MultiEnv :=
  {| me_child := fun _ => child_env false;
     me_finish := fun c => match c with ChArchitecture => 2%nat | _ => 1%nat end |}.

(** The architecture child succeeds, the security child fails. *)
Definition security_fails : MultiEnv :=
  {| me_child := fun c => match c with ChSecurity => child_env false | _ => child_env true end;
     me_finish := fun c => match c with ChArchitecture => 1%nat | _ => 2%nat end |}.

End MultiSamples.

Module InventorySamples.
Import Inventory.
Local Open Scope string_scope.

Definition s0 : InventoryStore := mkStore initialInventoryDB [].

Definition widget (p : string) (q : Z) : OrderItem :=
  {| productId := p; productName := "Widget"; quantity := q; price := 10 |}.

Definition order1 : ReserveInventoryInput :=
  {| orderId := "order-1"; items := [widget "product-1" 3; widget "product-2" 5; widget "product-1" 2] |}.

End InventorySamples.

Module PaymentSamples.
Import Payment.
Local Open Scope string_scope.

Definition ps0 : PaymentStore := mkPS [] 0.

Definition order_payment (o : string) (a : Q) (m : PaymentMethodType) : ProcessPaymentInput :=
  {| orderId := o; customerId := "cust-1"; amount := a; paymentMethod := m |}.

Definition draws (r : Q) (n : string) : PaymentDraws :=
  {| pd_random := r; pd_uuid := "pay-" ++ n; pd_txn := "txn-" ++ n |}.

Definition first_payment : PaymentResult :=
  {| paymentId := "pay-1"; status := ps_success; transactionId := Some "txn-1"; errorMessage := None |}.

Definition paid_store : PaymentStore := mkPS [("pay-1", first_payment)] 0.

(** Three high-value credit-card charges, each drawing [Math.random() = 0]. *)
Definition high_value_calls : list (ProcessPaymentInput * PaymentDraws) :=
  [(order_payment "order-9" 20000 credit_card, draws 0 "1");
   (order_payment "order-9" 20000 credit_card, draws 0 "2");
   (order_payment "order-9" 20000 credit_card, draws 0 "3")].

End PaymentSamples.

Module ShippingSamples.
Import Shipping.
Local Open Scope string_scope.

(** [Math.random()] draws 0.5 (no failure) and 0.3 (carrier index 1). *)
Definition ship_draws : ShipmentDraws :=
  {| sd_fail := 1 # 2; sd_carrier := 3 # 10; sd_rand36 := "0.4fzyo82mvyr"; sd_uuid := "ship-1" |}.

Definition ship_ok : ShipmentResult :=
  {| shipmentId := "ship-1"; trackingNumber := "UPS4FZYO82MVYR"; carrier := "UPS" |}.

End ShippingSamples.

Module AgentSamples.
Import Js AgentActivities.
Local Open Scope string_scope.

(** Distinct [uuidv4()] values: the [n]-th is [n] letters [u]. *)
Definition uuid_seq (n : nat) : string := repeat_char n "u"%char.

(** Every [Math.random()] draw is 0.5. *)
Definition half_draws (k : nat) : Q := 1 # 2.

Definition sample_analysis (fp : string) (sevs : list string) : AnalyzeFileResult :=
  {| filePath := fp; linesOfCode := 100; complexity := 5;
     issues := map (fun s => {| severity := Some s; issue_type := Some "code-smell";
                                message := "Issue detected in " ++ fp; line := 1 |}) sevs;
     suggestions := ["Refactor " ++ fp; "Add tests for " ++ fp]; cost := 1 # 100 |}.

Definition sample_analyses : list AnalyzeFileResult :=
  [sample_analysis "a.ts" ["critical"]; sample_analysis "b.ts" ["high"; "low"];
   sample_analysis "c.ts" ["medium"]; sample_analysis "d.ts" ["high"];
   sample_analysis "e.ts" ["critical"]; sample_analysis "f.ts" ["low"];
   sample_analysis "g.ts" ["high"]; sample_analysis "h.ts" ["critical"]].

End AgentSamples.

Module AdaptiveSamples.
Import Adaptive.
Local Open Scope string_scope.

Definition ad_task : AdaptiveAnalysisTask := {| topic := "auth"; maxDepth := 3 |}.

(** Depth 1 suggests depth-first, depth 2 is complete. *)
Definition ad_env : AdaptiveEnv :=
  {| ad_analyze := fun d => Some (AgentSamples.sample_analysis "auth" ["low"]);
     ad_quality := fun d => Some {| coverage := 1 # 2; novelty := 1 # 2; q_depth := inject_Z d;
                                    recommendation := if Z.eqb d 2 then rec_complete
                                                      else if Z.eqb d 1 then rec_switch_strategy
                                                      else rec_continue;
                                    suggestedStrategy := Some depth_first |};
     ad_publish_ok := fun _ => true |}.

End AdaptiveSamples.

(** ** Checked statements *)

Module ListFacts.

Lemma sorted_snoc {A} (R : A -> A -> Prop) (l : list A) (x : A) :
  Sorted R l -> Forall (fun y => R y x) l -> Sorted R (l ++ [x]).
Proof.
  induction l as [|a l IH]; intros Hs Hf; cbn; [constructor; constructor|].
  inversion Hs as [|? ? Hs' Hhd]; subst. inversion Hf as [|? ? Ha Hf']; subst.
  constructor; [apply IH; assumption|].
  destruct l as [|b l]; cbn; constructor; [assumption|].
  inversion Hhd; assumption.
Qed.

Lemma NoDup_snoc {A} (l : list A) (x : A) : NoDup l -> ~ In x l -> NoDup (l ++ [x]).
Proof.
  intros Hl Hx. apply NoDup_app; [exact Hl | constructor; [intros []| constructor] |].
  intros y Hy [<-|[]]. contradiction.
Qed.

End ListFacts.

Module OrderFacts.
Import Order.

Lemma qlt_b_true (a b : Q) : (a < b)%Q -> qlt_b a b = true.
Proof.
  intros H. unfold qlt_b. apply negb_true_iff.
  destruct (Qle_bool b a) eqn:E; [|reflexivity].
  apply Qle_bool_iff in E. exfalso. apply (Qlt_not_le a b H E).
Qed.

Ltac order_unfold :=
  unfold orderWorkflow, order_handler, order_body, compensate, check_cancel, approval_step,
    forward, set_status, log, record_reservation, record_payment, record_shipment,
    set_approvedBy, set_rejectedReason, catch, bind, ret, raise, modify, get in *.

(** Case analysis on everything the run branches on, with the facts that
    the correlation ids are truthy used as rewrite rules. *)
Ltac order_split :=
  repeat (match goal with
          | |- context [is_cancelled_at ?c ?n] => destruct (is_cancelled_at c n)
          | |- context [qlt_b ?a ?b] => destruct (qlt_b a b)
          | |- context [match ?a with Some _ => _ | None => _ end] => is_var a; destruct a
          | |- context [ad_approved ?d] => destruct (ad_approved d) eqn:?
          | |- context [if ?f ?x then _ else _] => is_var f; destruct (f x)
          | |- context [if ?b then _ else _] => is_var b; destruct b
          | H : truthy ?x = true |- context [truthy ?x] => rewrite H
          | |- context [if truthy ?x then _ else _] => destruct (truthy x)
          end; cbn).

(** Destructs the activity results of [env], keeping the truthiness of the
    returned ids as hypotheses. *)
Ltac order_env env Hr Hp Hs :=
  let r := fresh "r" in let p := fresh "p" in let sid := fresh "sid" in let tn := fresh "tn" in
  destruct env as [[r|] [p|] [[sid tn]|] ? ? ? ?]; cbn in Hr, Hp, Hs;
  try specialize (Hr r eq_refl); try specialize (Hp p eq_refl);
  try specialize (Hs (sid, tn) eq_refl); cbn in Hs.

(** C1: when the body of [orderWorkflow] throws [e] after completing the
    steps [S1 .. Sk] (a prefix of reserve, pay, ship), the workflow runs the
    compensations of exactly [S1 .. Sk] in the order [Sk, ..., S1], each
    once, whatever the compensating activities do (a throwing one neither
    stops the others nor replaces [e]); it ends in status [failed] and
    rethrows [e]. *)
Theorem order_saga_reverse_compensation (env : OrderEnv) (o : OrderInput)
    (e : OrderError) (w0 : World) :
  ids_nonempty env ->
  order_body env o init_world = (inl e, w0) ->
  (exists k, map fst (completed_steps w0.(events)) = firstn k [SReserve; SPay; SShip]) /\
  w0.(events) = map (fun p => Done (fst p) (snd p)) (completed_steps w0.(events)) /\
  exists w, orderWorkflow env o = (inl e, w) /\
    w.(events) = (w0.(events) ++
                  map (fun p => Comp (fst p) (snd p)) (rev (completed_steps w0.(events))))%list /\
    w.(status) = failed.
Proof.
  intros [Hr [Hp Hs]] H. revert H.
  order_env env Hr Hp Hs; order_unfold; cbn; order_split; intros H;
    try discriminate H; injection H as <- <-.
  all: match goal with |- (exists k, map fst (completed_steps ?l) = _) /\ _ =>
         split; [exists (List.length (completed_steps l)); reflexivity|] end.
  all: split; [reflexivity|].
  all: eexists; split; [reflexivity|]; split; reflexivity.
Qed.

Lemma order_saga_reverse_compensation_witness :
  let env := Samples.sample_order_env (CancelBeforeCheck 3) None (Some ("ship-1", "track-1")%string) in
  let o := Samples.sample_order 100 in
  let w0 := snd (order_body env o init_world) in
  ids_nonempty env /\ order_body env o init_world = (inl ErrCancelledByCustomer, w0) /\
  ((exists k, map fst (completed_steps w0.(events)) = firstn k [SReserve; SPay; SShip]) /\
   w0.(events) = map (fun p => Done (fst p) (snd p)) (completed_steps w0.(events)) /\
   exists w, orderWorkflow env o = (inl ErrCancelledByCustomer, w) /\
     w.(events) = (w0.(events) ++
                   map (fun p => Comp (fst p) (snd p)) (rev (completed_steps w0.(events))))%list /\
     w.(status) = failed).
Proof.
  intros env o w0.
  assert (Hids : ids_nonempty env)
    by (repeat split; intros ? Heq; cbn in Heq; injection Heq as <-; reflexivity).
  assert (Hb : order_body env o init_world = (inl ErrCancelledByCustomer, w0))
    by (subst env o w0; vm_compute; reflexivity).
  split; [exact Hids|]. split; [exact Hb|].
  exact (order_saga_reverse_compensation env o ErrCancelledByCustomer w0 Hids Hb).
Defined.

Lemma qlt_b_false (a b : Q) : (b <= a)%Q -> qlt_b a b = false.
Proof.
  intros H. unfold qlt_b. apply negb_false_iff. apply Qle_bool_iff. exact H.
Qed.

(** C5 (as the code does it): a [cancelOrder] signal is only looked at by
    the three [isCancelled] checks before the shipment is created; one that
    arrives while the shipment is created, during the 7-day wait, or after
    the run ended changes nothing: the run is the run without the signal.
    When moreover every step succeeds (reservation, payment, the approval
    of an order above $5000, shipment, and the 7-day wait), the run ends
    [completed], never enters [compensating] and runs no compensation. *)
Theorem order_late_cancel_ignored (env : OrderEnv) (o : OrderInput) :
  env.(env_cancel) = CancelDuringShipment \/ env.(env_cancel) = CancelDuringTail \/
  env.(env_cancel) = CancelAfterEnd ->
  orderWorkflow env o = orderWorkflow (with_cancel env NoCancel) o /\
  (env.(env_reserve) <> None -> env.(env_pay) <> None -> env.(env_ship) <> None ->
   ((o.(totalAmount) <= 5000)%Q \/ exists d, env.(env_approval) = Some d /\ d.(ad_approved) = true) ->
   env.(env_sleep_cancelled) = false ->
   fst (orderWorkflow env o) = inr tt /\ (snd (orderWorkflow env o)).(status) = completed /\
   ~ In compensating (snd (orderWorkflow env o)).(statusHistory) /\
   (forall s i, ~ In (Comp s i) (snd (orderWorkflow env o)).(events))).
Proof.
  intros Hlate. split.
  - revert Hlate. destruct env as [res pay ship canc appr slp cf]; cbn.
    intros [-> | [-> | ->]]; unfold orderWorkflow, order_body, check_cancel;
      cbn - [order_handler approval_step]; reflexivity.
  - destruct env as [[r|] [p|] [[sid tn]|] canc appr slp cf];
      cbn [env_reserve env_pay env_ship env_cancel env_approval env_sleep_cancelled] in *;
      try (intros H1 H2 H3; exfalso;
           first [apply H1; reflexivity | apply H2; reflexivity | apply H3; reflexivity]).
    intros _ _ _ Happ ->.
    assert (Hc : forall n, is_cancelled_at canc n = false)
      by (intros n; destruct Hlate as [-> | [-> | ->]]; reflexivity).
    order_unfold; cbn. rewrite !Hc; cbn.
    destruct Happ as [Hle | [d [-> Hd]]];
      [rewrite (qlt_b_false _ _ Hle) | destruct (qlt_b 5000 (totalAmount o)); [rewrite Hd|]]; cbn.
    all: split; [reflexivity|]; split; [reflexivity|].
    all: split; [intros H; repeat (destruct H as [H|H]; [discriminate H|]); exact H|].
    all: intros s0 i H; repeat (destruct H as [H|H]; [discriminate H|]); exact H.
Qed.

Lemma order_late_cancel_ignored_witness :
  let env := Samples.sample_order_env CancelDuringTail (Some Samples.approve_yes)
                                      (Some ("ship-1", "track-1")%string) in
  let o := Samples.sample_order 6000 in
  (env.(env_cancel) = CancelDuringShipment \/ env.(env_cancel) = CancelDuringTail \/
   env.(env_cancel) = CancelAfterEnd) /\
  (env.(env_reserve) <> None /\ env.(env_pay) <> None /\ env.(env_ship) <> None /\
   ((o.(totalAmount) <= 5000)%Q \/ exists d, env.(env_approval) = Some d /\ d.(ad_approved) = true) /\
   env.(env_sleep_cancelled) = false) /\
  (orderWorkflow env o = orderWorkflow (with_cancel env NoCancel) o /\
   (env.(env_reserve) <> None -> env.(env_pay) <> None -> env.(env_ship) <> None ->
    ((o.(totalAmount) <= 5000)%Q \/ exists d, env.(env_approval) = Some d /\ d.(ad_approved) = true) ->
    env.(env_sleep_cancelled) = false ->
    fst (orderWorkflow env o) = inr tt /\ (snd (orderWorkflow env o)).(status) = completed /\
    ~ In compensating (snd (orderWorkflow env o)).(statusHistory) /\
    (forall s i, ~ In (Comp s i) (snd (orderWorkflow env o)).(events)))).
Proof.
  intros env o. assert (H : env.(env_cancel) = CancelDuringShipment \/
    env.(env_cancel) = CancelDuringTail \/ env.(env_cancel) = CancelAfterEnd)
    by (right; left; reflexivity).
  split; [exact H|].
  split; [split; [discriminate|]; split; [discriminate|]; split; [discriminate|];
          split; [right; exists Samples.approve_yes; split; reflexivity | reflexivity]|].
  exact (order_late_cancel_ignored env o H).
Defined.

(** C5 fails as stated: a cancel signal received during the 7-day tail is
    not observed, and the run ends [completed] without compensation. *)
Lemma order_cancel_during_tail_completes :
  let w := orderWorkflow (Samples.sample_order_env CancelDuringTail None (Some ("ship-1", "track-1")%string))
                         (Samples.sample_order 100) in
  fst w = inr tt /\ (snd w).(status) = completed /\ ~ In compensating (snd w).(statusHistory).
Proof.
  vm_compute. split; [reflexivity|]. split; [reflexivity|].
  intros H. repeat (destruct H as [H|H]; [discriminate H|]). exact H.
Qed.

Lemma is_cancelled_at_mono (c : CancelTiming) (n m : nat) :
  (n <= m)%nat -> is_cancelled_at c m = false -> is_cancelled_at c n = false.
Proof.
  destruct c as [k| | | |]; cbn; try reflexivity.
  intros Hle H. apply Nat.leb_gt in H. apply Nat.leb_gt. lia.
Qed.

(** C7 (as the code does it): for an order above $5000 whose reservation
    and payment succeed and with no cancel signal before the check that
    follows the payment, the status passes through [awaiting_approval];
    an approval [{approved: true}] ends the run [completed] provided no
    cancel signal arrived before the post-approval check, [createShipment]
    succeeds and the 7-day wait is not cancelled; a rejection or the 24h
    timeout (the same code path) ends it [failed], with the refund and the
    release run in that order and no shipment to cancel. *)
Theorem order_high_value_approval (env : OrderEnv) (o : OrderInput) (r p : string) :
  ids_nonempty env ->
  (5000 < o.(totalAmount))%Q ->
  env.(env_reserve) = Some r -> env.(env_pay) = Some p ->
  is_cancelled_at env.(env_cancel) 2 = false ->
  In awaiting_approval (snd (orderWorkflow env o)).(statusHistory) /\
  ((exists d, env.(env_approval) = Some d /\ d.(ad_approved) = true) ->
   is_cancelled_at env.(env_cancel) 3 = false -> env.(env_ship) <> None ->
   env.(env_sleep_cancelled) = false ->
   fst (orderWorkflow env o) = inr tt /\ (snd (orderWorkflow env o)).(status) = completed) /\
  ((env.(env_approval) = None \/ exists d, env.(env_approval) = Some d /\ d.(ad_approved) = false) ->
   fst (orderWorkflow env o) = inl (ErrRejected (reason_or_timeout env.(env_approval))) /\
   (snd (orderWorkflow env o)).(events) = [Done SReserve r; Done SPay p; Comp SPay p; Comp SReserve r] /\
   (snd (orderWorkflow env o)).(status) = failed).
Proof.
  intros [Hr [Hp Hs]] Hamt Hres Hpay Hc2.
  pose proof (is_cancelled_at_mono _ 1 2 ltac:(lia) Hc2) as Hc1.
  apply qlt_b_true in Hamt.
  destruct env as [res pay ship canc appr slp cf]; cbn in *; subst res pay.
  specialize (Hr r eq_refl); specialize (Hp p eq_refl).
  order_unfold; cbn; rewrite Hc1, Hc2, Hamt; cbn.
  order_split.
  all: split; [repeat (first [left; reflexivity | right]) |].
  all: split; [intros [d [Hd Ha]] H3 Hsh Hsl; first [discriminate Hd | injection Hd as <-];
               first [split; reflexivity | congruence] |].
  all: intros [Hn | [d [Hd Ha]]];
         [ first [discriminate Hn | split; [reflexivity | split; reflexivity]]
         | first [discriminate Hd | injection Hd as <-];
           first [split; [reflexivity | split; reflexivity] | congruence]].
Qed.

Lemma order_high_value_approval_witness :
  let env := Samples.sample_order_env NoCancel (Some Samples.approve_no) None in
  let o := Samples.sample_order 10000 in
  (ids_nonempty env /\ (5000 < o.(totalAmount))%Q /\
   env.(env_reserve) = Some "res-1"%string /\ env.(env_pay) = Some "pay-1"%string /\
   is_cancelled_at env.(env_cancel) 2 = false) /\
  (In awaiting_approval (snd (orderWorkflow env o)).(statusHistory) /\
  ((exists d, env.(env_approval) = Some d /\ d.(ad_approved) = true) ->
   is_cancelled_at env.(env_cancel) 3 = false -> env.(env_ship) <> None ->
   env.(env_sleep_cancelled) = false ->
   fst (orderWorkflow env o) = inr tt /\ (snd (orderWorkflow env o)).(status) = completed) /\
  ((env.(env_approval) = None \/ exists d, env.(env_approval) = Some d /\ d.(ad_approved) = false) ->
   fst (orderWorkflow env o) = inl (ErrRejected (reason_or_timeout env.(env_approval))) /\
   (snd (orderWorkflow env o)).(events) =
     [Done SReserve "res-1"%string; Done SPay "pay-1"%string;
      Comp SPay "pay-1"%string; Comp SReserve "res-1"%string] /\
   (snd (orderWorkflow env o)).(status) = failed)).
Proof.
  intros env o.
  assert (Hids : ids_nonempty env)
    by (repeat split; intros ? Heq; cbn in Heq; try discriminate Heq; injection Heq as <-; reflexivity).
  assert (Hamt : (5000 < o.(totalAmount))%Q) by (vm_compute; reflexivity).
  assert (Hr : env.(env_reserve) = Some "res-1"%string) by reflexivity.
  assert (Hp : env.(env_pay) = Some "pay-1"%string) by reflexivity.
  assert (Hc : is_cancelled_at env.(env_cancel) 2 = false) by reflexivity.
  split; [exact (conj Hids (conj Hamt (conj Hr (conj Hp Hc))))|].
  exact (order_high_value_approval env o _ _ Hids Hamt Hr Hp Hc).
Defined.

(** C7 fails as stated: an approved $10,000 order whose [createShipment]
    throws does not end [completed]; it is compensated and ends [failed]. *)
Lemma order_approved_but_shipment_fails :
  let w := orderWorkflow (Samples.sample_order_env NoCancel (Some Samples.approve_yes) None)
                         (Samples.sample_order 10000) in
  fst w = inl (ErrActivity SShip) /\ (snd w).(status) = failed.
Proof. vm_compute. split; reflexivity. Qed.

End OrderFacts.

Module RngFacts.
Import Rng.

(** The constructor yields a valid state for every integer seed except
    those with [seed % 2147483647 = -2147483646]. *)
Lemma SeededRNG_valid (seed : Z) :
  Z.rem seed MODULUS <> -2147483646 -> valid_state (SeededRNG seed).
Proof.
  unfold valid_state, SeededRNG, MODULUS; intros Hne.
  pose proof (Z.rem_bound_abs seed 2147483647 ltac:(lia)) as Hb.
  destruct (Z.leb_spec (Z.rem seed 2147483647) 0); lia.
Qed.

(** From a valid state, [next] stays valid and draws a number in [[0, 1)]. *)
Lemma next_valid (state : Z) :
  valid_state state ->
  valid_state (fst (next state)) /\ (0 <= snd (next state) < 1)%Q.
Proof.
  unfold valid_state, next, MODULUS; cbn [fst snd]; intros Hs.
  rewrite Z.rem_mod_nonneg by lia.
  assert (Hnz : (state * 48271) mod 2147483647 <> 0).
  { intros H0. apply Z.mod_divide in H0; [|lia].
    rewrite Z.mul_comm in H0. apply Z.gauss in H0; [|reflexivity].
    destruct H0 as [q Hq]. nia. }
  pose proof (Z.mod_pos_bound (state * 48271) 2147483647 ltac:(lia)).
  split; [lia|].
  unfold Qle, Qlt; cbn. lia.
Qed.

(** From a valid state, [nextInt(min, max)] lies in [[min, max]]. *)
Lemma nextInt_range (state min max : Z) :
  valid_state state -> min <= max ->
  min <= snd (nextInt state min max) <= max.
Proof.
  intros Hs Hmm. pose proof (next_valid state Hs) as [_ [H0 H1]].
  unfold nextInt. destruct (next state) as [st' u] eqn:E. cbn [snd] in *.
  destruct u as [a d]. unfold Qle, Qlt in *; cbn in *.
  rewrite Pos.mul_1_r.
  assert (0 <= a * (max - min + 1) / Z.pos d) by (apply Z.div_pos; nia).
  assert (a * (max - min + 1) / Z.pos d < max - min + 1)
    by (apply Z.div_lt_upper_bound; nia).
  lia.
Qed.

(** C8 fails at the seed [-2147483646]: the constructor's correction
    [state += 2147483646] leaves the state at [0], a fixed point of the
    generator; [next()] then returns [-1/2147483646], outside [[0, 1)],
    and [nextInt(0, 10)] returns [-1], below [min]. *)
Lemma rng_seed_fixed_point_draws_negative :
  let s := SeededRNG (-2147483646) in
  s = 0 /\ fst (next s) = s /\ (snd (next s) < 0)%Q /\ snd (nextInt s 0 10) = -1.
Proof. vm_compute. repeat split; reflexivity. Qed.

End RngFacts.

Module TrainingFacts.
Import Training ListFacts.
Local Open Scope Z_scope.

Lemma trained_epochs_app l1 l2 : trained_epochs (l1 ++ l2) = trained_epochs l1 ++ trained_epochs l2.
Proof. unfold trained_epochs. apply flat_map_app. Qed.

Lemma ck_lt_next (l : list CheckpointInfo) (epoch : Z) :
  Forall (fun c => ck_epoch c <= epoch) l -> Forall (fun y => y < epoch + 1) (map ck_epoch l).
Proof. intros H. apply Forall_map. eapply Forall_impl; [|exact H]. cbn. intros; lia. Qed.

Ltac tr_tac Htr :=
  let e := fresh "e" in let He := fresh "He" in
  intros e He; rewrite ?trained_epochs_app in He; cbn in He;
  repeat (rewrite in_app_iff in He); cbn in He;
  repeat match type of He with _ \/ _ => destruct He as [He|He] end;
  first [apply Htr; exact He | lia | contradiction].

Ltac sorted_tac Hs Hf :=
  rewrite ?map_app; cbn;
  first [exact Hs | apply sorted_snoc; [exact Hs | apply ck_lt_next; exact Hf]].

Ltac forall_tac Hf :=
  first [ eapply Forall_impl; [|exact Hf]; cbn; intros; lia
        | apply Forall_app; split; [eapply Forall_impl; [|exact Hf]; cbn; intros; lia
                                   | repeat constructor; cbn; lia]].

Lemma loop_final cfg env fuel : forall epoch t lo,
  loop_inv lo epoch t ->
  (forall e, In e (trained_epochs (snd (training_loop cfg env fuel epoch t)).(tlog)) -> lo <= e) /\
  Sorted Z.lt (map ck_epoch (snd (training_loop cfg env fuel epoch t)).(checkpoints)).
Proof.
  induction fuel as [|fuel IH]; intros epoch t lo [Hle [Htr [Hs Hf]]].
  - cbn. auto.
  - cbn [training_loop].
    unfold bind, get, ret, raise, modify, set_rng, log, activity, record_epoch, set_status,
      push_checkpoint, deliver, clear_decision.
    destruct (te_cancel env epoch); [cbn; auto|].
    destruct (Rng.nextInt (rng t) 0 1000000) as [rng' sh].
    destruct (te_train env epoch) as [loss|]; cbn;
    [|split; [intros e He; rewrite trained_epochs_app in He; cbn in He;
              apply in_app_iff in He; destruct He as [He|[He|[]]]; [auto|lia] | assumption]].
    destruct (js_mod_is_zero (epoch + 1) (checkpointInterval cfg));
      [destruct (te_save env (epoch + 1)) as [ck|]|]; cbn;
      [| split; [intros e He; rewrite !trained_epochs_app in He; cbn in He;
                 rewrite app_nil_r in He;
                 apply in_app_iff in He; destruct He as [He|[He|[]]]; [auto|lia] | assumption] |];
      (destruct (te_signal env epoch) as [d|]; cbn;
       [|destruct (researcherDecision t) as [d|]];
       destruct (Z.rem (epoch + 1) 10 =? 0); cbn;
       try destruct (rd_action d); cbn).
    all: first
      [ apply IH; unfold loop_inv; cbn; split; [lia|]; split; [tr_tac Htr|];
        split; [sorted_tac Hs Hf | forall_tac Hf]
      | split; [tr_tac Htr | sorted_tac Hs Hf] ].
Qed.

(** C3: resuming from a checkpoint at epoch [k], [trainEpoch] is never
    called for an epoch below [k], and the epochs of the checkpoints in
    [state.checkpoints] (the resumed one first) are strictly increasing,
    whatever the activities, signals and cancellation do. *)
Theorem training_resume_never_retrains (cfg : TrainingConfig) (env : TrainingEnv) (ck : CheckpointInfo) :
  (forall e, In e (trained_epochs (snd (mlTrainingWorkflow cfg env (Some ck))).(tlog)) -> ck.(ck_epoch) <= e) /\
  Sorted Z.lt (map ck_epoch (snd (mlTrainingWorkflow cfg env (Some ck))).(checkpoints)).
Proof.
  unfold mlTrainingWorkflow, training_body, catch, bind, get, ret, raise, modify, set_status, log, activity.
  cbn.
  destruct (te_init_ok env); cbn.
  - match goal with |- context [training_loop cfg env ?f ?ep ?st] =>
      destruct (loop_final cfg env f ep st (ck_epoch ck)) as [H1 H2];
      [ unfold loop_inv; cbn; split; [lia|]; split; [intros ? []|];
        split; [repeat constructor | repeat constructor; cbn; lia] |];
      destruct (training_loop cfg env f ep st) as [[err|u] t'] end;
    cbn in *; [|destruct (te_eval_ok env)]; cbn;
    (split; [intros e He; rewrite ?trained_epochs_app in He; cbn in He; rewrite ?app_nil_r in He; auto
            | exact H2]).
  - split; [intros ? []| repeat constructor].
Qed.


Lemma reviewed_app l1 l2 :
  reviewed_decisions (l1 ++ l2) = reviewed_decisions l1 ++ reviewed_decisions l2.
Proof. unfold reviewed_decisions. apply flat_map_app. Qed.

(** A decision delivered at or after [w] has an id no decision seen so far has. *)
Lemma fresh_id env w l e d :
  signal_ids_distinct env ->
  (forall d', In d' (reviewed_decisions l) -> exists e', e' < w /\ te_signal env e' = Some d') ->
  w <= e -> te_signal env e = Some d ->
  ~ In (rd_id d) (map rd_id (reviewed_decisions l)).
Proof.
  intros Hinj Hobs Hw Hd Hin. apply in_map_iff in Hin as [d' [Hid Hin]].
  destruct (Hobs d' Hin) as [e' [He' Hd']].
  pose proof (Hinj _ _ _ _ Hd' Hd Hid). lia.
Qed.

Ltac rv := rewrite ?reviewed_app in *; cbn in *; rewrite ?app_nil_r in *.

Ltac nodup_tac :=
  match goal with
  | Hnd : NoDup _ |- _ => first
      [ exact Hnd
      | rewrite map_app; apply NoDup_snoc; [exact Hnd|];
        match goal with
        | Hinj : signal_ids_distinct ?env, Hobs : forall d, In d _ -> _,
          Hsrc : exists e, ?w <= e <= _ /\ _ |- _ =>
            let e := fresh "e" in
            destruct Hsrc as [e [? ?]]; apply (fresh_id env w _ e _ Hinj Hobs); [lia|assumption]
        end ]
  end.

Ltac gate_inv_tac :=
  unfold gate_inv; cbn; rv;
  match goal with
  | Hobs : forall d, In d _ -> exists e, e < ?w /\ _, Hslot : forall d, _ = Some d -> _ |- _ =>
    split; [lia|]; split;
    [ let d' := fresh "d'" in let Hd' := fresh "Hd'" in
      intros d' Hd';
      first [ destruct (Hobs d' Hd') as [e' [? ?]]; exists e'; split; [lia|assumption]
            | apply in_app_iff in Hd'; destruct Hd' as [Hd'|[Hd'|[]]];
              [ destruct (Hobs d' Hd') as [e' [? ?]]; exists e'; split; [lia|assumption]
              | subst d'; match goal with Hsrc : exists e, _ |- _ =>
                  destruct Hsrc as [e [? ?]]; exists e; split; [lia|assumption] end ] ]
    | split;
      [ nodup_tac
      | let d' := fresh "d'" in let Hd' := fresh "Hd'" in
        intros d' Hd';
        first [ discriminate
              | injection Hd' as Hdd; subst;
                match goal with Hsrc : exists e, _ |- _ =>
                  destruct Hsrc as [e [? ?]]; exists e; split; [lia|assumption] end
              | destruct (Hslot d' Hd') as [e [? ?]]; exists e; split; [lia|assumption] ] ] ]
  end.

(** The review gate never sees a decision twice: after it consumed one
    (continue/adjust) the slot is cleared; after a stop the loop ends. *)
Lemma gate_loop cfg env fuel (Hinj : signal_ids_distinct env) : forall epoch t w,
  gate_inv env w epoch t ->
  NoDup (map rd_id (reviewed_decisions (snd (training_loop cfg env fuel epoch t)).(tlog))).
Proof.
  induction fuel as [|fuel IH]; intros epoch t w Hinv; pose proof Hinv as [Hle [Hobs [Hnd Hslot]]].
  - cbn. exact Hnd.
  - cbn [training_loop].
    unfold bind, get, ret, raise, modify, set_rng, log, activity, record_epoch, set_status,
      push_checkpoint, deliver, clear_decision.
    destruct (te_cancel env epoch); [cbn; exact Hnd|].
    destruct (Rng.nextInt (rng t) 0 1000000) as [rng' sh].
    destruct (te_train env epoch) as [loss|]; cbn; [|rv; exact Hnd].
    destruct (js_mod_is_zero (epoch + 1) (checkpointInterval cfg));
      [destruct (te_save env (epoch + 1)) as [ck|]|]; cbn; [| rv; exact Hnd |];
      (destruct (te_signal env epoch) as [d|] eqn:Esig; cbn;
       [|destruct (researcherDecision t) as [d|] eqn:Eslot];
       destruct (Z.rem (epoch + 1) 10 =? 0); cbn;
       try destruct (rd_action d); cbn).
    all: try (assert (Hsrc : exists e, w <= e <= epoch /\ te_signal env e = Some d)
                by first [exists epoch; split; [lia|exact Esig]
                         | destruct (Hslot d eq_refl) as [e [? ?]]; exists e; split; [lia|assumption]]).
    all: first
      [ solve [apply (IH _ _ (epoch + 1)); gate_inv_tac]
      | solve [apply (IH _ _ w); gate_inv_tac]
      | rv; solve [nodup_tac] ].
Qed.

Lemma training_reviews_distinct cfg env resume (Hinj : signal_ids_distinct env) :
  NoDup (map rd_id (reviewed_decisions (snd (mlTrainingWorkflow cfg env resume)).(tlog))).
Proof.
  unfold mlTrainingWorkflow, training_body, catch, bind, get, ret, raise, modify, set_status, log, activity.
  cbn.
  destruct (te_init_ok env); cbn; [|constructor].
  match goal with |- context [training_loop cfg env ?f ?ep ?st] =>
      pose proof (gate_loop cfg env f Hinj ep st ep) as Hl;
      destruct (training_loop cfg env f ep st) as [[err|u] t'] end;
  cbn in *; [|destruct (te_eval_ok env)]; cbn; rv;
  (apply Hl; unfold gate_inv; cbn; split; [lia|]; split; [intros ? []|];
   split; [constructor | intros ? H; discriminate]).
Qed.

End TrainingFacts.

Module AnalysisFacts.
Import Analysis ListFacts.
Local Open Scope nat_scope.

Ltac a_unfold :=
  unfold budget_gate, bind, get, ret, raise, modify, set_status, log, record_file, add_cost,
    set_budgetRemaining, set_refactorPlan, set_results, deliver, clear_budgetApproval, call,
    call_ok, catch.

(** *** The budget gate's slot *)

Lemma observed_app l1 l2 :
  observed_approvals (l1 ++ l2) = observed_approvals l1 ++ observed_approvals l2.
Proof. unfold observed_approvals. apply flat_map_app. Qed.

Lemma fresh_approval env w l k d :
  approval_ids_distinct env ->
  (forall d', In d' (observed_approvals l) -> exists k', k' < w /\ ae_budget_signal env k' = Some d') ->
  w <= k -> ae_budget_signal env k = Some d ->
  ~ In (ba_id d) (map ba_id (observed_approvals l)).
Proof.
  intros Hinj Hobs Hw Hd Hin. apply in_map_iff in Hin as [d' [Hid Hin]].
  destruct (Hobs d' Hin) as [k' [Hk' Hd']].
  pose proof (Hinj _ _ _ _ Hd' Hd Hid). lia.
Qed.

Ltac ov := rewrite ?observed_app in *; cbn in *; rewrite ?app_nil_r in *.

Ltac bnodup_tac :=
  match goal with
  | Hnd : NoDup _ |- _ => first
      [ exact Hnd
      | rewrite map_app; apply NoDup_snoc; [exact Hnd|];
        match goal with
        | Hinj : approval_ids_distinct ?env, Hobs : forall d, In d _ -> _,
          Hsrc : exists k, ?w <= k <= _ /\ _ |- _ =>
            let k := fresh "k" in
            destruct Hsrc as [k [? ?]]; apply (fresh_approval env w _ k _ Hinj Hobs); [lia|assumption]
        end ]
  end.

Ltac bgate_inv_tac :=
  unfold bgate_inv; cbn; ov;
  match goal with
  | Hobs : forall d, In d _ -> exists k, k < ?w /\ _, Hslot : forall d, _ = Some d -> _ |- _ =>
    split; [lia|]; split;
    [ let d' := fresh "d'" in let Hd' := fresh "Hd'" in
      intros d' Hd';
      first [ destruct (Hobs d' Hd') as [k' [? ?]]; exists k'; split; [lia|assumption]
            | apply in_app_iff in Hd'; destruct Hd' as [Hd'|[Hd'|[]]];
              [ destruct (Hobs d' Hd') as [k' [? ?]]; exists k'; split; [lia|assumption]
              | subst d'; match goal with Hsrc : exists k, _ |- _ =>
                  destruct Hsrc as [k [? ?]]; exists k; split; [lia|assumption] end ] ]
    | split;
      [ bnodup_tac
      | let d' := fresh "d'" in let Hd' := fresh "Hd'" in
        intros d' Hd';
        first [ discriminate
              | injection Hd' as Hdd; subst;
                match goal with Hsrc : exists k, _ |- _ =>
                  destruct Hsrc as [k [? ?]]; exists k; split; [lia|assumption] end
              | destruct (Hslot d' Hd') as [k [? ?]]; exists k; split; [lia|assumption] ] ] ]
  end.

(** Case analysis on one iteration of [file_loop] after the [analyzeFile] result. *)
Ltac file_iter_split env i d :=
  match goal with |- context [qlt_b ?c ?t] => destruct (qlt_b c t) end; cbn;
  [destruct (ae_notify_ok env (NBudget i)); cbn;
   [ try (destruct (approved d); cbn;
          [try (destruct (newBudget d) as [nb|]; cbn; [destruct (Qeq_bool nb 0)|]); cbn|]) | ] |].

Lemma bgate_loop task env (Hinj : approval_ids_distinct env) : forall fs i a w,
  bgate_inv env w i a ->
  NoDup (map ba_id (observed_approvals (snd (file_loop task env fs i a)).(alog))).
Proof.
  induction fs as [|f fs IH]; intros i a w Hinv; pose proof Hinv as [Hle [Hobs [Hnd Hslot]]].
  - cbn. exact Hnd.
  - cbn [file_loop].
    destruct (Nat.eqb (i mod 10) 0 || Nat.eqb i (List.length (files task) - 1)) eqn:Eem.
    all: a_unfold.
    all: destruct (ae_cancel env i); [cbn; exact Hnd|].
    all: destruct (ae_analyze env i) as [fa|]; cbn; [|ov; exact Hnd].
    all: destruct (ae_budget_signal env i) as [d|] eqn:Esig; cbn;
      [|destruct (budgetApproval a) as [d|] eqn:Eslot]; cbn.
    all: try (assert (Hsrc : exists k, w <= k <= i /\ ae_budget_signal env k = Some d)
                by first [exists i; split; [lia|exact Esig]
                         | destruct (Hslot d eq_refl) as [k [? ?]]; exists k; split; [lia|assumption]]).
    all: file_iter_split env i d.
    all: try (destruct (ae_progress_ok env i); cbn).
    all: first
      [ solve [ov; bnodup_tac]
      | solve [apply (IH _ _ (S i)); bgate_inv_tac]
      | solve [apply (IH _ _ w); bgate_inv_tac] ].
Qed.

Lemma batch_loop_observed env bs : forall j a,
  observed_approvals (snd (batch_loop env bs j a)).(alog) = observed_approvals a.(alog).
Proof.
  induction bs as [|b bs IH]; intros j a; [reflexivity|].
  cbn [batch_loop]. a_unfold.
  repeat (match goal with
          | |- context [ae_refactor ?e ?k] => destruct (ae_refactor e k)
          | |- context [ae_tests ?e ?k] => destruct (ae_tests e k) as [[|]|]
          | |- context [ae_rollback_ok ?e ?k] => destruct (ae_rollback_ok e k)
          | |- context [ae_notify_ok ?e ?x] => destruct (ae_notify_ok e x)
          end; cbn).
  all: rewrite ?IH; unfold observed_approvals; cbn; rewrite ?flat_map_app; cbn;
    rewrite ?app_nil_r; reflexivity.
Qed.

Lemma plan_stage_observed task env a :
  observed_approvals (snd (plan_stage task env a)).(alog) = observed_approvals a.(alog).
Proof.
  unfold plan_stage. a_unfold. cbn.
  destruct (targetImprovement task); [|reflexivity].
  destruct (analyses a); [reflexivity|]. cbn.
  destruct (ae_plan env) as [p|]; cbn; [|ov; reflexivity].
  destruct (requiresApproval task) as [[|]|]; cbn; [|ov; reflexivity..].
  destruct (ae_notify_ok env NPlan); cbn; [|ov; reflexivity].
  destruct (ae_plan_signal env) as [[|]|]; cbn; [|ov; reflexivity..].
  match goal with |- context [batch_loop env ?bs ?j ?st] =>
    pose proof (batch_loop_observed env bs j st) as Hb;
    destruct (batch_loop env bs j st) as [[e|u] st'] end;
  cbn in *; rewrite Hb; ov; reflexivity.
Qed.

Lemma analysis_approvals_distinct task env (Hinj : approval_ids_distinct env) :
  NoDup (map ba_id (observed_approvals (snd (codebaseAnalysisWorkflow task env)).(alog))).
Proof.
  unfold codebaseAnalysisWorkflow, analysis_body. a_unfold. cbn - [plan_stage].
  match goal with |- context [file_loop task env ?fs ?i ?st] =>
    pose proof (bgate_loop task env Hinj fs i st 0) as Hl;
    destruct (file_loop task env fs i st) as [[e|[|]] st'] end;
  cbn - [plan_stage] in *.
  all: specialize (Hl ltac:(unfold bgate_inv; cbn; split; [lia|]; split; [intros ? []|];
                           split; [constructor | intros ? H; discriminate])).
  all: try (ov; exact Hl).
  match goal with |- context [plan_stage task env ?st] =>
    pose proof (plan_stage_observed task env st) as Hp;
    destruct (plan_stage task env st) as [[e|[|]] st''] end;
  cbn - [plan_stage] in *; try destruct (ae_notify_ok env NDone); cbn - [plan_stage];
  unfold observed_approvals in *; cbn in *; rewrite ?flat_map_app in *; cbn in *;
  rewrite ?app_nil_r in *; rewrite ?Hp; exact Hl.
Qed.

(** *** The cost ledger *)

Lemma pending_app l m : m <> [] -> pending (l ++ m) = pending m.
Proof.
  intros Hm. unfold pending. destruct m as [|x m] using rev_ind; [congruence|].
  rewrite app_assoc, !last_last. reflexivity.
Qed.

Lemma checked_app l m :
  checked_after_analyze l = true -> pending l = false -> checked_after_analyze m = true ->
  checked_after_analyze (l ++ m) = true.
Proof.
  induction l as [|x l IH]; intros Hl Hp Hm; [exact Hm|].
  assert (Hp' : l <> [] -> pending l = false).
  { intros Hne. unfold pending in *. destruct l as [|y l]; [congruence|].
    exact Hp. }
  cbn [app]. destruct x as [| [] | | | | | | | | |]; cbn in Hl |- *;
    try (apply IH; [exact Hl | destruct l; [reflexivity | apply Hp'; discriminate] | exact Hm]).
  destruct l as [|y l]; [cbn in Hp; discriminate|].
  destruct y; try discriminate. cbn [app].
  apply IH; [exact Hl | apply Hp'; discriminate | exact Hm].
Qed.

Lemma cost_trace_app l1 l2 : cost_trace (l1 ++ l2) = cost_trace l1 ++ cost_trace l2.
Proof. unfold cost_trace. apply flat_map_app. Qed.

Ltac ledger_tac :=
  match goal with
  | H : ledger_inv ?a |- ledger_inv _ =>
    let Hck := fresh "Hck" in let Hpd := fresh "Hpd" in let Hs := fresh "Hs" in let Hf := fresh "Hf" in
    destruct H as [Hck [Hpd [Hs Hf]]];
    unfold ledger_inv; cbn; rewrite <- ?app_assoc; cbn [app];
    split; [first [exact Hck | apply checked_app; [exact Hck | exact Hpd | reflexivity]]|];
    split; [first [exact Hpd | rewrite pending_app by discriminate; reflexivity]|];
    rewrite ?cost_trace_app; cbn; rewrite ?app_nil_r;
    split;
    [ first [exact Hs | rewrite app_comm_cons; apply sorted_snoc; [exact Hs|];
                        eapply Forall_impl; [|exact Hf]; cbn; intros; lra]
    | first [exact Hf
            | rewrite app_comm_cons; apply Forall_app; split;
              [eapply Forall_impl; [|exact Hf]; cbn; intros; lra | constructor; [lra|constructor]]] ]
  end.

Lemma file_loop_ledger task env
    (Hc : forall i fa, ae_analyze env i = Some fa -> (0 <= fa_cost fa)%Q) :
  forall fs i a, ledger_inv a -> ledger_inv (snd (file_loop task env fs i a)).
Proof.
  induction fs as [|f fs IH]; intros i a Ha; [exact Ha|].
  cbn [file_loop].
  destruct (Nat.eqb (i mod 10) 0 || Nat.eqb i (List.length (files task) - 1)) eqn:Eem.
  all: a_unfold.
  all: destruct (ae_cancel env i); [cbn; ledger_tac|].
  all: destruct (ae_analyze env i) as [fa|] eqn:Ean; cbn; [|ledger_tac].
  all: pose proof (Hc i fa Ean).
  all: destruct (ae_budget_signal env i) as [d|] eqn:Esig; cbn;
      [|destruct (budgetApproval a) as [d|] eqn:Eslot]; cbn.
  all: file_iter_split env i d.
  all: try (destruct (ae_progress_ok env i); cbn).
  all: first [ apply IH; ledger_tac | ledger_tac ].
Qed.

Lemma batch_loop_ledger env (Hr : forall j c, ae_refactor env j = Some c -> (0 <= c)%Q) :
  forall bs j a, ledger_inv a -> ledger_inv (snd (batch_loop env bs j a)).
Proof.
  induction bs as [|b bs IH]; intros j a Ha; [exact Ha|].
  cbn [batch_loop]. a_unfold.
  destruct (ae_refactor env j) as [c|] eqn:Er; [pose proof (Hr j c Er)|]; cbn.
  all: repeat (match goal with
          | |- context [ae_tests ?e ?k] => destruct (ae_tests e k) as [[|]|]
          | |- context [ae_rollback_ok ?e ?k] => destruct (ae_rollback_ok e k)
          | |- context [ae_notify_ok ?e ?x] => destruct (ae_notify_ok e x)
          end; cbn).
  all: first [ apply IH; ledger_tac | ledger_tac ].
Qed.

Lemma plan_stage_ledger task env (Hr : forall j c, ae_refactor env j = Some c -> (0 <= c)%Q) a :
  ledger_inv a -> ledger_inv (snd (plan_stage task env a)).
Proof.
  intros Ha. unfold plan_stage. a_unfold. cbn.
  destruct (targetImprovement task); [|exact Ha].
  destruct (analyses a); [exact Ha|]. cbn.
  destruct (ae_plan env) as [p|]; cbn; [|ledger_tac].
  assert ((0 <= 1 # 10)%Q) by lra.
  destruct (requiresApproval task) as [[|]|]; cbn; [|ledger_tac..].
  destruct (ae_notify_ok env NPlan); cbn; [|ledger_tac].
  destruct (ae_plan_signal env) as [[|]|]; cbn; [|ledger_tac..].
  match goal with |- context [batch_loop env ?bs ?j ?st] =>
    pose proof (batch_loop_ledger env Hr bs j st) as Hb;
    destruct (batch_loop env bs j st) as [[e|u] st'] end;
  cbn in *; apply Hb; ledger_tac.
Qed.

(** *** Where the ceiling checks are *)

Lemma last_cons_default (x : AEvent) l p : last (x :: l) p = last l x.
Proof.
  revert x p; induction l as [|y l IH]; intros x p; [reflexivity|].
  change (last (x :: y :: l) p) with (last (y :: l) p). rewrite !IH. reflexivity.
Qed.

Lemma checks_app p l m :
  checks_follow_analyze p (l ++ m) = checks_follow_analyze p l && checks_follow_analyze (last l p) m.
Proof.
  revert p; induction l as [|x l IH]; intros p; [reflexivity|].
  cbn [app checks_follow_analyze]. rewrite IH, last_cons_default, andb_assoc. reflexivity.
Qed.

Lemma checks_no_check p l :
  forallb (fun ev => negb (is_ceiling_check ev)) l = true -> checks_follow_analyze p l = true.
Proof.
  revert p; induction l as [|x l IH]; intros p H; [reflexivity|].
  cbn in H |- *. apply andb_true_iff in H as [H1 H2]. rewrite H1, (IH x H2). reflexivity.
Qed.

Ltac ext_tac :=
  first
    [ exists []; rewrite app_nil_r; split; [reflexivity|];
      first [reflexivity | split; [reflexivity | intros ?; reflexivity]]
    | eexists; split; [rewrite <- ?app_assoc; reflexivity|];
      first [reflexivity | split; [reflexivity | intros ?; reflexivity]] ].

Ltac ext_rec_tac IH :=
  match goal with |- context [?f ?j ?st] =>
    match f with
    | file_loop _ _ _ => idtac
    | batch_loop _ _ => idtac
    end;
    let ext' := fresh "ext'" in let He := fresh "He" in let Hrest := fresh "Hrest" in
    destruct (IH j st) as [ext' [He Hrest]];
    destruct (f j st) as [? ?]; cbn in He, Hrest |- *; rewrite He;
    eexists; split; [rewrite <- ?app_assoc; reflexivity|];
    first
      [ destruct Hrest as [Hf Hc]; split;
        [ rewrite ?forallb_app; cbn; rewrite ?Hf; reflexivity
        | intros ?; rewrite ?checks_app; cbn; rewrite ?Hc; reflexivity ]
      | rewrite ?forallb_app; cbn; rewrite ?Hrest; reflexivity ]
  end.

(** [file_loop] only appends to the log, and what it appends holds no plan
    or batch cost and only ceiling checks that follow an analyzeFile cost. *)
Lemma file_loop_checks task env fs : forall i a,
  exists ext, alog (snd (file_loop task env fs i a)) = (alog a ++ ext)%list /\
    forallb (fun ev => negb (is_late_cost ev)) ext = true /\
    (forall p, checks_follow_analyze p ext = true).
Proof.
  induction fs as [|f fs IH]; intros i a; [cbn; ext_tac|].
  cbn [file_loop].
  destruct (Nat.eqb (i mod 10) 0 || Nat.eqb i (List.length (files task) - 1)) eqn:Eem.
  all: a_unfold.
  all: destruct (ae_cancel env i); [cbn; ext_tac|].
  all: destruct (ae_analyze env i) as [fa|] eqn:Ean; cbn; [|ext_tac].
  all: destruct (ae_budget_signal env i) as [d|] eqn:Esig; cbn;
      [|destruct (budgetApproval a) as [d|] eqn:Eslot]; cbn.
  all: file_iter_split env i d.
  all: try (destruct (ae_progress_ok env i); cbn).
  all: first [ ext_rec_tac IH | ext_tac ].
Qed.

(** [batch_loop] only appends to the log, and never a ceiling check. *)
Lemma batch_loop_checks env bs : forall j a,
  exists ext, alog (snd (batch_loop env bs j a)) = (alog a ++ ext)%list /\
    forallb (fun ev => negb (is_ceiling_check ev)) ext = true.
Proof.
  induction bs as [|b bs IH]; intros j a; [cbn; ext_tac|].
  cbn [batch_loop]. a_unfold.
  destruct (ae_refactor env j) as [c|]; cbn.
  all: repeat (match goal with
          | |- context [ae_tests ?e ?k] => destruct (ae_tests e k) as [[|]|]
          | |- context [ae_rollback_ok ?e ?k] => destruct (ae_rollback_ok e k)
          | |- context [ae_notify_ok ?e ?x] => destruct (ae_notify_ok e x)
          end; cbn).
  all: first [ ext_rec_tac IH | ext_tac ].
Qed.

(** [plan_stage] only appends to the log, and never a ceiling check. *)
Lemma plan_stage_checks task env a :
  exists ext, alog (snd (plan_stage task env a)) = (alog a ++ ext)%list /\
    forallb (fun ev => negb (is_ceiling_check ev)) ext = true.
Proof.
  unfold plan_stage. a_unfold. cbn.
  destruct (targetImprovement task); [|ext_tac].
  destruct (analyses a); [ext_tac|]. cbn.
  destruct (ae_plan env) as [p|]; cbn; [|ext_tac].
  destruct (requiresApproval task) as [[|]|]; cbn; [|ext_tac..].
  destruct (ae_notify_ok env NPlan); cbn; [|ext_tac].
  destruct (ae_plan_signal env) as [[|]|]; cbn; [|ext_tac..].
  match goal with |- context [batch_loop env ?bs ?j ?st] =>
    destruct (batch_loop_checks env bs j st) as [ext' [He Hf]];
    destruct (batch_loop env bs j st) as [[e|u] st'] end;
  cbn in He |- *; rewrite He;
  (eexists; split; [rewrite <- ?app_assoc; reflexivity|]);
  rewrite ?forallb_app; cbn; rewrite ?Hf; reflexivity.
Qed.

(** The log of a run is a part holding every ceiling check, each right
    after an analyzeFile cost, and no plan or batch cost, followed by a
    part without ceiling checks. *)
Lemma analysis_log_split task env :
  exists e1 e2, (snd (codebaseAnalysisWorkflow task env)).(alog) = (e1 ++ e2)%list /\
    forallb (fun ev => negb (is_late_cost ev)) e1 = true /\
    (forall p, checks_follow_analyze p e1 = true) /\
    forallb (fun ev => negb (is_ceiling_check ev)) e2 = true.
Proof.
  unfold codebaseAnalysisWorkflow, analysis_body. a_unfold. cbn - [plan_stage].
  match goal with |- context [file_loop task env ?fs ?i ?st] =>
    destruct (file_loop_checks task env fs i st) as [e1 [He1 [Hf1 Hc1]]];
    destruct (file_loop task env fs i st) as [[e|[|]] st'] end;
  cbn - [plan_stage] in *; rewrite He1.
  all: try (exists e1, []; rewrite app_nil_r; split; [reflexivity|];
            split; [exact Hf1|]; split; [exact Hc1 | reflexivity]).
  match goal with |- context [plan_stage task env ?st] =>
    destruct (plan_stage_checks task env st) as [e2 [He2 Hf2]];
    destruct (plan_stage task env st) as [[e|[|]] st''] end;
  cbn - [plan_stage] in *; try destruct (ae_notify_ok env NDone); cbn - [plan_stage];
  rewrite He2; cbn.
  all: exists e1; eexists; split; [rewrite <- ?app_assoc; reflexivity|].
  all: split; [exact Hf1|]; split; [exact Hc1|].
  all: rewrite ?forallb_app; cbn; rewrite ?Hf2; reflexivity.
Qed.

Lemma analysis_log_checks_only_after_analyze (L e1 e2 : list AEvent) :
  L = (e1 ++ e2)%list ->
  (forall p, checks_follow_analyze p e1 = true) ->
  forallb (fun ev => negb (is_ceiling_check ev)) e2 = true ->
  forall l1 l2 tot c, L = (l1 ++ EvCeilingCheck tot c :: l2)%list ->
    exists l0 t, l1 = (l0 ++ [EvAddCost CostAnalyze t])%list.
Proof.
  intros HL Hc1 Hf2 l1 l2 tot c HL'.
  assert (H : checks_follow_analyze EvGeneratePlan L = true)
    by (rewrite HL, checks_app, Hc1, checks_no_check; [reflexivity | exact Hf2]).
  rewrite HL', checks_app in H. apply andb_true_iff in H as [_ H].
  cbn in H. apply andb_true_iff in H as [H _].
  destruct l1 as [|x l1'] using rev_ind; [discriminate|].
  rewrite last_last in H.
  destruct x as [|[] t| | | | | | | | |]; try discriminate.
  exists l1', t. reflexivity.
Qed.

Lemma analysis_log_late_costs_unchecked (L e1 e2 : list AEvent) :
  L = (e1 ++ e2)%list ->
  forallb (fun ev => negb (is_late_cost ev)) e1 = true ->
  forallb (fun ev => negb (is_ceiling_check ev)) e2 = true ->
  forall l1 l2 src t, L = (l1 ++ EvAddCost src t :: l2)%list -> src <> CostAnalyze ->
    forall tot c, ~ In (EvCeilingCheck tot c) l2.
Proof.
  intros HL Hf1 Hf2 l1 l2 src t HL' Hsrc tot c Hin.
  rewrite forallb_forall in Hf1, Hf2.
  assert (Hno : ~ In (EvCeilingCheck tot c) e2)
    by (intros H; specialize (Hf2 _ H); discriminate).
  rewrite HL in HL'. apply app_eq_app in HL' as [l [[H1 H2] | [H1 H2]]].
  - destruct l as [|x l].
    + cbn in H2. apply Hno. rewrite <- H2. right. exact Hin.
    + injection H2 as Hx _. subst x.
      assert (Hlate : In (EvAddCost src t) e1) by (rewrite H1; apply in_or_app; right; left; reflexivity).
      specialize (Hf1 _ Hlate). destruct src; [congruence | discriminate | discriminate].
  - apply Hno. rewrite H2. apply in_or_app. right. right. exact Hin.
Qed.

(** *** Stage 4 and the refactor plan *)

Ltac nobatch_tac H2 :=
  let ev := fresh "ev" in let Hev := fresh "Hev" in
  intros ev Hev; repeat rewrite in_app_iff in Hev;
  repeat match type of Hev with
         | _ \/ _ => destruct Hev as [Hev|Hev]
         | In _ [_] => destruct Hev as [Hev|[]]
         end;
  first [destruct (H2 ev Hev) as [[]|]; assumption | subst ev; reflexivity].

Ltac in_log_tac :=
  let ev := fresh "ev" in let Hev := fresh "Hev" in
  intros ev Hev; repeat rewrite in_app_iff in Hev;
  repeat match type of Hev with
         | _ \/ _ => destruct Hev as [Hev|Hev]
         | In _ [_] => destruct Hev as [Hev|[]]
         end;
  first [left; exact Hev | right; subst ev; reflexivity].

(** [file_loop] keeps [refactorPlan], calls no stage-4 activity, analyses
    every file when it runs to the end, and sets [cancelled] when it
    returns early. *)
Lemma file_loop_shape task env fs : forall i a,
  refactorPlan (snd (file_loop task env fs i a)) = refactorPlan a /\
  no_new_batch_calls (alog a) (alog (snd (file_loop task env fs i a))) /\
  (fst (file_loop task env fs i a) = inr true ->
     List.length (analyses (snd (file_loop task env fs i a))) = List.length (analyses a) + List.length fs) /\
  (fst (file_loop task env fs i a) = inr false -> a_status (snd (file_loop task env fs i a)) = cancelled).
Proof.
  induction fs as [|f fs IH]; intros i a.
  - cbn. split; [reflexivity|]. split; [intros ev Hev; left; exact Hev|].
    split; [intros _; lia | discriminate].
  - cbn [file_loop].
    destruct (Nat.eqb (i mod 10) 0 || Nat.eqb i (List.length (files task) - 1)) eqn:Eem.
    all: a_unfold.
    all: destruct (ae_cancel env i); cbn.
    all: try (split; [reflexivity|]; split; [in_log_tac|]; split; [discriminate | reflexivity]).
    all: destruct (ae_analyze env i) as [fa|] eqn:Ean; cbn;
      [|split; [reflexivity|]; split; [in_log_tac|]; split; discriminate].
    all: destruct (ae_budget_signal env i) as [d|] eqn:Esig; cbn;
        [|destruct (budgetApproval a) as [d|] eqn:Eslot]; cbn.
    all: file_iter_split env i d.
    all: try (destruct (ae_progress_ok env i); cbn).
    all: first
      [ match goal with |- context [file_loop ?tk ?en ?fs0 ?j ?st] =>
          destruct (IH j st) as [H1 [H2 [H3 H4]]];
          destruct (file_loop tk en fs0 j st) as [r st'']
        end; cbn in *;
        split; [exact H1|];
        split; [intros ev Hev; destruct (H2 ev Hev) as [Hev'|Hev']; [|right; exact Hev'];
                clear Hev; rename Hev' into Hev; repeat rewrite in_app_iff in Hev;
                repeat match type of Hev with
                       | _ \/ _ => destruct Hev as [Hev|Hev]
                       | In _ [_] => destruct Hev as [Hev|[]]
                       end;
                first [left; exact Hev | right; subst ev; reflexivity]|];
        split; [intros Hr; rewrite (H3 Hr); rewrite length_app; cbn; lia | exact H4]
      | split; [reflexivity|]; split; [in_log_tac|]; split; first [discriminate | reflexivity] ].
Qed.

(** *** Claims *)

(** C2: Scenario D (20 files, budget 5, every file costs 0.5, an approval
    with [newBudget = 10] delivered at the first gate). The approval resumes
    the loop at file index 11, but [newBudget] only updates
    [budgetRemaining]: the ceiling checked after each file stays
    [task.budget || 100 = 5]. At file index 11 (cost 6, below 10) the gate
    fires again, this time with an empty slot, and the run returns with
    status [cancelled] after 12 files. *)
Theorem budget_gate_retriggers_after_new_budget :
  let r := codebaseAnalysisWorkflow AnalysisSamples.scenario_d_task AnalysisSamples.scenario_d_env in
  fst r = inr tt /\ a_status (snd r) = cancelled /\ filesAnalyzed (snd r) = 12 /\
  (costSoFar (snd r) == 6)%Q /\
  budget_gates (alog (snd r)) =
    [EvBudgetGate 10 (Some AnalysisSamples.budget_raise); EvBudgetGate 11 None] /\
  In (EvAnalyzeFile 11) (alog (snd r)) /\
  Forall (fun ev => match ev with EvCeilingCheck _ c => (c == 5)%Q | _ => True end) (alog (snd r)).
Proof.
  vm_compute.
  split; [reflexivity|]. split; [reflexivity|]. split; [reflexivity|].
  split; [reflexivity|]. split; [reflexivity|].
  split; [repeat (first [left; reflexivity | right]) | repeat constructor].
Qed.

(** C6 (counterexample): one file (cost 0.01) with budget 1, then a plan
    (cost 0.1) whose three approved batches cost 0.5 each. The run ends
    [completed] with [costSoFar = 1.61] above the ceiling 1: no budget gate
    ran, and the plan and refactor costs were never followed by a
    ceiling check. *)
Theorem refactor_costs_unchecked :
  let r := codebaseAnalysisWorkflow AnalysisSamples.refactor_task AnalysisSamples.refactor_env in
  fst r = inr tt /\ a_status (snd r) = completed /\
  (costSoFar (snd r) == 161 # 100)%Q /\
  qlt_b (budget_or_default (budget AnalysisSamples.refactor_task)) (costSoFar (snd r)) = true /\
  budget_gates (alog (snd r)) = [] /\
  checked_after_every_cost (alog (snd r)) = false.
Proof. vm_compute. repeat split; reflexivity. Qed.

(** C6 (amended): a ceiling check only ever comes right after an
    [analyzeFile] cost, and every [analyzeFile] cost is followed at once by
    one; after the plan cost or a [refactorBatch] cost no ceiling check is
    made at all. When every activity cost is non-negative, the running
    totals [costSoFar] recorded in the ledger form a non-decreasing
    sequence starting from 0. *)
Theorem analysis_ledger_checked task env
    (Hc : forall i fa, ae_analyze env i = Some fa -> (0 <= fa_cost fa)%Q)
    (Hr : forall j c, ae_refactor env j = Some c -> (0 <= c)%Q) :
  checked_after_analyze (snd (codebaseAnalysisWorkflow task env)).(alog) = true /\
  (forall l1 l2 tot c,
     (snd (codebaseAnalysisWorkflow task env)).(alog) = (l1 ++ EvCeilingCheck tot c :: l2)%list ->
     exists l0 t, l1 = (l0 ++ [EvAddCost CostAnalyze t])%list) /\
  (forall l1 l2 src t,
     (snd (codebaseAnalysisWorkflow task env)).(alog) = (l1 ++ EvAddCost src t :: l2)%list ->
     src <> CostAnalyze -> forall tot c, ~ In (EvCeilingCheck tot c) l2) /\
  Sorted Qle (0%Q :: cost_trace (snd (codebaseAnalysisWorkflow task env)).(alog)).
Proof.
  destruct (analysis_log_split task env) as [e1 [e2 [HL [Hf1 [Hc1 Hf2]]]]].
  enough (H : ledger_inv (snd (codebaseAnalysisWorkflow task env))).
  { destruct H as [H1 [_ [H3 _]]]. split; [exact H1|].
    split; [exact (analysis_log_checks_only_after_analyze _ e1 e2 HL Hc1 Hf2)|].
    split; [exact (analysis_log_late_costs_unchecked _ e1 e2 HL Hf1 Hf2) | exact H3]. }
  clear HL Hf1 Hc1 Hf2.
  unfold codebaseAnalysisWorkflow, analysis_body. a_unfold. cbn - [plan_stage].
  match goal with |- context [file_loop task env ?fs ?i ?st] =>
    pose proof (file_loop_ledger task env Hc fs i st) as Hl;
    destruct (file_loop task env fs i st) as [[e|[|]] st'] end;
  cbn - [plan_stage] in *.
  all: specialize (Hl ltac:(unfold ledger_inv; cbn; repeat constructor; lra)).
  all: try ledger_tac.
  match goal with |- context [plan_stage task env ?st] =>
    pose proof (plan_stage_ledger task env Hr st) as Hp;
    destruct (plan_stage task env st) as [[e|[|]] st''] end;
  cbn - [plan_stage] in *; try destruct (ae_notify_ok env NDone); cbn - [plan_stage].
  all: specialize (Hp ltac:(ledger_tac)); ledger_tac.
Qed.

Lemma analysis_ledger_checked_witness :
  let task := AnalysisSamples.refactor_task in
  let env := AnalysisSamples.refactor_env in
  ((forall i fa, ae_analyze env i = Some fa -> (0 <= fa_cost fa)%Q) /\
   (forall j c, ae_refactor env j = Some c -> (0 <= c)%Q)) /\
  (checked_after_analyze (snd (codebaseAnalysisWorkflow task env)).(alog) = true /\
   (forall l1 l2 tot c,
      (snd (codebaseAnalysisWorkflow task env)).(alog) = (l1 ++ EvCeilingCheck tot c :: l2)%list ->
      exists l0 t, l1 = (l0 ++ [EvAddCost CostAnalyze t])%list) /\
   (forall l1 l2 src t,
      (snd (codebaseAnalysisWorkflow task env)).(alog) = (l1 ++ EvAddCost src t :: l2)%list ->
      src <> CostAnalyze -> forall tot c, ~ In (EvCeilingCheck tot c) l2) /\
   Sorted Qle (0%Q :: cost_trace (snd (codebaseAnalysisWorkflow task env)).(alog))).
Proof.
  intros task env.
  assert (Hc : forall i fa, ae_analyze env i = Some fa -> (0 <= fa_cost fa)%Q)
    by (intros i fa H; cbn in H; injection H as <-; unfold Qle; simpl; lia).
  assert (Hr : forall j c, ae_refactor env j = Some c -> (0 <= c)%Q)
    by (intros j c H; cbn in H; injection H as <-; unfold Qle; simpl; lia).
  split; [split; assumption|].
  exact (analysis_ledger_checked task env Hc Hr).
Defined.

(** C10 (counterexample): with a target improvement, no
    [requiresApproval] and no files, the run ends [completed] without any
    refactor plan: the plan is only generated when some file was
    analysed. *)
Theorem no_files_no_plan :
  let r := codebaseAnalysisWorkflow (AnalysisSamples.plan_only_task []) AnalysisSamples.refactor_env in
  fst r = inr tt /\ a_status (snd r) = completed /\ refactorPlan (snd r) = None.
Proof. vm_compute. repeat split; reflexivity. Qed.

(** C10 (amended): when [targetImprovement] is set and [requiresApproval]
    is not [true], no [refactorBatch], [runTests] or [rollbackBatch]
    activity is called; and if the run ends [completed], a refactor plan is
    stored exactly when the task has at least one file. *)
Theorem plan_without_approval_runs_no_batch task env :
  targetImprovement task <> None -> requiresApproval task <> Some true ->
  (forall ev, In ev (snd (codebaseAnalysisWorkflow task env)).(alog) -> is_batch_call ev = false) /\
  ((snd (codebaseAnalysisWorkflow task env)).(a_status) = completed ->
     ((snd (codebaseAnalysisWorkflow task env)).(refactorPlan) <> None <-> files task <> [])).
Proof.
  intros Ht Hr.
  unfold codebaseAnalysisWorkflow, analysis_body. a_unfold. cbn - [plan_stage].
  match goal with |- context [file_loop ?tk ?en ?fs ?i ?st] =>
    destruct (file_loop_shape tk en fs i st) as [H1 [H2 [H3 H4]]];
    destruct (file_loop tk en fs i st) as [[e|[]] st'] end;
  cbn - [plan_stage] in *.
  - split; [|discriminate].
    nobatch_tac H2.
  - specialize (H3 eq_refl).
    unfold plan_stage; a_unfold; cbn.
    destruct (targetImprovement task) as [imp|]; [|congruence].
    destruct (analyses st') as [|fa rest] eqn:Ea; cbn in H3 |- *.
    + destruct (files task) as [|f fs]; [|cbn in H3; lia].
      destruct (ae_notify_ok env NDone); cbn; (split; [nobatch_tac H2|]).
      * intros _. rewrite H1. split; intros H; contradiction.
      * discriminate.
    + assert (Hne : files task <> []) by (intros Hf; rewrite Hf in H3; cbn in H3; lia).
      destruct (ae_plan env) as [p|]; cbn.
      * destruct (requiresApproval task) as [[|]|]; [congruence| |]; cbn;
        destruct (ae_notify_ok env NDone); cbn; (split; [nobatch_tac H2|]);
        first [discriminate | intros _; split; [intros _; exact Hne | intros _; discriminate]].
      * split; [|discriminate].
        nobatch_tac H2.
  - split; [|rewrite H4 by reflexivity; discriminate].
    nobatch_tac H2.
Qed.

Lemma plan_without_approval_runs_no_batch_witness :
  let task := AnalysisSamples.plan_only_task ["src/a.ts"%string] in
  let env := AnalysisSamples.refactor_env in
  (targetImprovement task <> None /\ requiresApproval task <> Some true) /\
  ((forall ev, In ev (snd (codebaseAnalysisWorkflow task env)).(alog) -> is_batch_call ev = false) /\
   ((snd (codebaseAnalysisWorkflow task env)).(a_status) = completed ->
      ((snd (codebaseAnalysisWorkflow task env)).(refactorPlan) <> None <-> files task <> []))).
Proof.
  intros task env.
  assert (Ht : targetImprovement task <> None) by (cbn; discriminate).
  assert (Hr : requiresApproval task <> Some true) by (cbn; discriminate).
  split; [split; assumption|].
  exact (plan_without_approval_runs_no_batch task env Ht Hr).
Defined.

End AnalysisFacts.

Module MultiAgentFacts.
Import MultiAgent.

Lemma run_child_error env c e : run_child env c = inl e -> exists e0, e = ChildFailed c e0.
Proof.
  unfold run_child. destruct (Analysis.codebaseAnalysisWorkflow _ _) as [[e0|u] st].
  - intros H; injection H as <-; eexists; reflexivity.
  - discriminate.
Qed.

(** C4 (counterexample): when both parallel children fail, the parent fails
    with the security child's error alone (it failed first) and the
    architecture child's failure is dropped; when only the security child
    fails, the parent fails although the architecture child completed, and
    its result is not used. *)
Theorem multi_agent_only_first_failure :
  fst (multiAgentCodebaseWorkflow MultiSamples.both_fail) =
    inl (ChildFailed ChSecurity (Analysis.ErrActivity (Analysis.EvAnalyzeFile 0))) /\
  (exists e, run_child MultiSamples.both_fail ChArchitecture = inl e) /\
  match run_child MultiSamples.security_fails ChArchitecture with
  | inr st => Analysis.a_status st = Analysis.completed
  | inl _ => False
  end /\
  (exists e, fst (multiAgentCodebaseWorkflow MultiSamples.security_fails) = inl e).
Proof.
  vm_compute.
  split; [reflexivity|]. split; [eexists; reflexivity|].
  split; [reflexivity | eexists; reflexivity].
Qed.

(** C4 (amended): the two parallel children are joined fail-fast. When
    the architecture or the security child fails, the parent fails with the
    error of one of them, [c], which did fail with that very error and
    finished no later than any other failed parallel child (the
    architecture child on a tie, as [Promise.all] sees it first), and the
    performance child is not started. The parent succeeds only with the
    results of both children. *)
Theorem multi_agent_fail_fast env :
  ((exists e, run_child env ChArchitecture = inl e) \/ (exists e, run_child env ChSecurity = inl e) ->
   exists c e,
     (c = ChArchitecture \/ c = ChSecurity) /\
     fst (multiAgentCodebaseWorkflow env) = inl (ChildFailed c e) /\
     run_child env c = inl (ChildFailed c e) /\
     (forall c' e', c' <> ChPerformance -> run_child env c' = inl e' ->
        (me_finish env c <= me_finish env c')%nat) /\
     snd (multiAgentCodebaseWorkflow env) = [ChArchitecture; ChSecurity]) /\
  (forall r, fst (multiAgentCodebaseWorkflow env) = inr r ->
     run_child env ChArchitecture = inr (architecture r) /\ run_child env ChSecurity = inr (security r)).
Proof.
  unfold multiAgentCodebaseWorkflow, promise_all2.
  destruct (run_child env ChArchitecture) as [ea|ar] eqn:Ea;
  destruct (run_child env ChSecurity) as [es|sr] eqn:Es.
  - pose proof (run_child_error _ _ _ Ea) as [a0 ->].
    pose proof (run_child_error _ _ _ Es) as [s0 ->].
    destruct (Nat.ltb_spec (me_finish env ChSecurity) (me_finish env ChArchitecture)) as [Hlt|Hge]; cbn;
      (split; [intros _ | intros ? Hr; discriminate]).
    + exists ChSecurity, s0. split; [right; reflexivity|]. split; [reflexivity|].
      split; [exact Es|]. split; [|reflexivity].
      intros [] e' H1 H2; first [congruence | lia].
    + exists ChArchitecture, a0. split; [left; reflexivity|]. split; [reflexivity|].
      split; [exact Ea|]. split; [|reflexivity].
      intros [] e' H1 H2; first [congruence | lia].
  - pose proof (run_child_error _ _ _ Ea) as [a0 ->]. cbn.
    split; [intros _ | intros ? Hr; discriminate].
    exists ChArchitecture, a0. split; [left; reflexivity|]. split; [reflexivity|].
    split; [exact Ea|]. split; [|reflexivity].
    intros [] e' H1 H2; first [congruence | lia].
  - pose proof (run_child_error _ _ _ Es) as [s0 ->]. cbn.
    split; [intros _ | intros ? Hr; discriminate].
    exists ChSecurity, s0. split; [right; reflexivity|]. split; [reflexivity|].
    split; [exact Es|]. split; [|reflexivity].
    intros [] e' H1 H2; first [congruence | lia].
  - split; [intros [[e H]|[e H]]; discriminate|].
    destruct (has_performance_issue ar).
    + destruct (run_child env ChPerformance) as [ep|pr] eqn:Ep; cbn; [discriminate|].
      intros r Hr; injection Hr as <-; cbn; split; reflexivity.
    + cbn. intros r Hr; injection Hr as <-; cbn; split; reflexivity.
Qed.

End MultiAgentFacts.

Module GateFacts.

(** C9: provided each delivered decision carries its own id, no gate ever
    consumes the same decision twice within one execution: the ids of the
    decisions observed by the researcher-review gates of
    [mlTrainingWorkflow] are pairwise distinct, and so are those of the
    approvals observed by the budget gates of [codebaseAnalysisWorkflow].
    A consumed decision is cleared from its slot, so a later gate starts
    from an empty slot. *)
Theorem gate_decisions_never_reobserved cfg tenv resume task aenv :
  Training.signal_ids_distinct tenv -> Analysis.approval_ids_distinct aenv ->
  NoDup (map Training.rd_id
    (Training.reviewed_decisions (snd (Training.mlTrainingWorkflow cfg tenv resume)).(Training.tlog))) /\
  NoDup (map Analysis.ba_id
    (Analysis.observed_approvals (snd (Analysis.codebaseAnalysisWorkflow task aenv)).(Analysis.alog))).
Proof.
  intros Ht Ha. split.
  - exact (TrainingFacts.training_reviews_distinct cfg tenv resume Ht).
  - exact (AnalysisFacts.analysis_approvals_distinct task aenv Ha).
Qed.

Lemma gate_decisions_never_reobserved_witness :
  let cfg := TrainingSamples.sample_training_cfg in
  let tenv := TrainingSamples.sample_training_env in
  let task := AnalysisSamples.scenario_d_task in
  let aenv := AnalysisSamples.scenario_d_env in
  (Training.signal_ids_distinct tenv /\ Analysis.approval_ids_distinct aenv) /\
  (NoDup (map Training.rd_id
     (Training.reviewed_decisions (snd (Training.mlTrainingWorkflow cfg tenv None)).(Training.tlog))) /\
   NoDup (map Analysis.ba_id
     (Analysis.observed_approvals (snd (Analysis.codebaseAnalysisWorkflow task aenv)).(Analysis.alog)))).
Proof.
  intros cfg tenv task aenv.
  assert (Ht : Training.signal_ids_distinct tenv).
  { intros e1 e2 d1 d2 H1 H2 _. unfold tenv, TrainingSamples.sample_training_env in H1, H2.
    cbn [Training.te_signal] in H1, H2.
    destruct (Z.eqb_spec e1 9), (Z.eqb_spec e2 9); congruence. }
  assert (Ha : Analysis.approval_ids_distinct aenv).
  { intros i1 i2 d1 d2 H1 H2 _.
    unfold aenv, AnalysisSamples.scenario_d_env, AnalysisSamples.base_env in H1, H2.
    cbn [Analysis.ae_budget_signal] in H1, H2.
    destruct (Nat.eqb_spec i1 10), (Nat.eqb_spec i2 10); congruence. }
  split; [split; assumption|].
  exact (gate_decisions_never_reobserved cfg tenv None task aenv Ht Ha).
Defined.

End GateFacts.


Module JsFacts.
Import Js.

Section MapFacts.
Context {V : Type}.
Implicit Types (m : list (string * V)) (k : string) (v : V).

Lemma map_get_set_same k v m : map_get k (map_set k v m) = Some v.
Proof.
  induction m as [|[k' v'] m IH]; cbn; [rewrite String.eqb_refl; reflexivity|].
  destruct (String.eqb_spec k k'); cbn; [rewrite String.eqb_refl; reflexivity|].
  destruct (String.eqb_spec k k'); [contradiction | exact IH].
Qed.

Lemma map_get_set_other k k' v m : k' <> k -> map_get k' (map_set k v m) = map_get k' m.
Proof.
  intros Hne. induction m as [|[k0 v0] m IH]; cbn.
  - destruct (String.eqb_spec k' k); [contradiction | reflexivity].
  - destruct (String.eqb_spec k k0); cbn.
    + subst k0. destruct (String.eqb_spec k' k); [contradiction | reflexivity].
    + destruct (String.eqb_spec k' k0); [reflexivity | exact IH].
Qed.

Lemma map_keys_set_present k v m : map_get k m <> None -> map fst (map_set k v m) = map fst m.
Proof.
  induction m as [|[k0 v0] m IH]; cbn; [congruence|].
  destruct (String.eqb_spec k k0); cbn; [subst; reflexivity|].
  intros H. rewrite (IH H). reflexivity.
Qed.

Lemma map_get_none_notin k m : map_get k m = None -> ~ In k (map fst m).
Proof.
  induction m as [|[k0 v0] m IH]; cbn; [tauto|].
  destruct (String.eqb_spec k k0); [discriminate|]. intros H [H'|H']; [congruence | exact (IH H H')].
Qed.

Lemma map_nodup_set k v m : NoDup (map fst m) -> NoDup (map fst (map_set k v m)).
Proof.
  induction m as [|[k0 v0] m IH]; cbn; intros Hnd; [constructor; [tauto | constructor]|].
  inversion Hnd as [|? ? Hni Hnd']; subst.
  destruct (String.eqb_spec k k0); cbn; [subst; constructor; assumption|].
  constructor; [|exact (IH Hnd')].
  intros Hin. apply Hni. clear - Hin n.
  induction m as [|[k1 v1] m IH]; cbn in *; [destruct Hin as [->|[]]; congruence|].
  destruct (String.eqb_spec k k1); cbn in Hin; [subst; exact Hin|].
  destruct Hin as [Hin|Hin]; [left; exact Hin | right; exact (IH Hin)].
Qed.

Lemma map_delete_set_fresh k v m : map_get k m = None -> map_delete k (map_set k v m) = m.
Proof.
  induction m as [|[k0 v0] m IH]; cbn; [rewrite String.eqb_refl; reflexivity|].
  destruct (String.eqb_spec k k0); [discriminate|]. intros H; cbn.
  destruct (String.eqb_spec k k0); [contradiction|]. rewrite (IH H). reflexivity.
Qed.

Lemma map_get_delete_other k k' m : k' <> k -> map_get k' (map_delete k m) = map_get k' m.
Proof.
  intros Hne. induction m as [|[k0 v0] m IH]; cbn; [reflexivity|].
  destruct (String.eqb_spec k k0); cbn.
  - subst k0. destruct (String.eqb_spec k' k); [contradiction | reflexivity].
  - destruct (String.eqb_spec k' k0); [reflexivity | exact IH].
Qed.

Lemma map_get_notin k m : ~ In k (map fst m) -> map_get k m = None.
Proof.
  induction m as [|[k0 v0] m IH]; cbn; [reflexivity|]. intros Hn.
  destruct (String.eqb_spec k k0); [subst; tauto|]. apply IH. tauto.
Qed.

Lemma map_get_delete_same k m : NoDup (map fst m) -> map_get k (map_delete k m) = None.
Proof.
  induction m as [|[k0 v0] m IH]; cbn; intros Hnd; [reflexivity|].
  inversion Hnd as [|? ? Hni Hnd']; subst.
  destruct (String.eqb_spec k k0); cbn.
  - subst k0. apply map_get_notin. exact Hni.
  - destruct (String.eqb_spec k k0); [contradiction | exact (IH Hnd')].
Qed.

Lemma map_nodup_delete k m : NoDup (map fst m) -> NoDup (map fst (map_delete k m)).
Proof.
  induction m as [|[k0 v0] m IH]; cbn; intros Hnd; [constructor|].
  inversion Hnd as [|? ? Hni Hnd']; subst.
  destruct (String.eqb_spec k k0); [exact Hnd'|]. cbn. constructor; [|exact (IH Hnd')].
  intros Hin. apply Hni. clear - Hin.
  induction m as [|[k1 v1] m IH]; cbn in *; [exact Hin|].
  destruct (String.eqb_spec k k1); cbn in Hin; [right; exact Hin|].
  destruct Hin as [Hin|Hin]; [left; exact Hin | right; exact (IH Hin)].
Qed.

(** Two maps with the same keys in the same order and the same lookups are equal. *)
Lemma map_ext m1 m2 :
  NoDup (map fst m1) -> map fst m1 = map fst m2 ->
  (forall k, map_get k m1 = map_get k m2) -> m1 = m2.
Proof.
  revert m2. induction m1 as [|[k1 v1] m1 IH]; intros [|[k2 v2] m2] Hnd Hk Hg; cbn in *;
    try discriminate; [reflexivity|].
  injection Hk as <- Hk. inversion Hnd as [|? ? Hni Hnd']; subst.
  pose proof (Hg k1) as H1. rewrite String.eqb_refl in H1. injection H1 as <-.
  f_equal. apply IH; [exact Hnd' | exact Hk|].
  intros k. specialize (Hg k). destruct (String.eqb_spec k k1); [|exact Hg].
  subst k. rewrite !map_get_notin; [reflexivity | rewrite <- Hk |]; exact Hni.
Qed.

End MapFacts.

(** [Math.floor(r * n)] for a draw [r] in [[0, 1)]. *)
Lemma floor_scaled_range (q : Q) (n : Z) :
  (0 <= q)%Q -> (q < 1)%Q -> (0 < n)%Z -> (0 <= Qfloor (q * inject_Z n) < n)%Z.
Proof.
  intros H0 H1 Hn.
  assert (Hn' : (0 < inject_Z n)%Q) by (change 0%Q with (inject_Z 0); rewrite <- Zlt_Qlt; exact Hn).
  split.
  - rewrite <- (Qfloor_Z 0). apply Qfloor_resp_le.
    apply Qmult_le_0_compat; [exact H0 | apply Qlt_le_weak; exact Hn'].
  - assert (Hlt : (q * inject_Z n < inject_Z n)%Q).
    { rewrite <- (Qmult_1_l (inject_Z n)) at 2. apply Qmult_lt_compat_r; assumption. }
    rewrite Zlt_Qlt. exact (Qle_lt_trans _ _ _ (Qfloor_le _) Hlt).
Qed.

Lemma js_index_in {A} (l : list A) (k : Z) :
  (0 <= k < Z.of_nat (List.length l))%Z -> exists x, js_index l k = Some x /\ In x l.
Proof.
  intros Hk. unfold js_index. destruct (Z.ltb_spec k 0); [lia|].
  destruct (nth_error l (Z.to_nat k)) as [x|] eqn:E.
  - exists x. split; [reflexivity | exact (nth_error_In _ _ E)].
  - apply nth_error_None in E. lia.
Qed.

End JsFacts.


Module InventoryFacts.
Import Js JsFacts Inventory.
Local Open Scope string_scope.

Lemma check_items_none db its :
  check_items db its = None <-> Forall (fun it => it.(quantity) <= or_zero (map_get it.(productId) db)) its.
Proof.
  induction its as [|it its IH]; cbn; [split; [constructor | reflexivity]|].
  destruct (Z.ltb_spec (or_zero (map_get (productId it) db)) (quantity it)).
  - split; [discriminate|]. intros H'; inversion H'; lia.
  - rewrite IH. split; [intros H'; constructor; [lia | exact H'] | intros H'; inversion H'; assumption].
Qed.

Lemma check_items_some db its :
  (exists e, check_items db its = Some e) <->
  Exists (fun it => or_zero (map_get it.(productId) db) < it.(quantity)) its.
Proof.
  induction its as [|it its IH]; cbn.
  - split; [intros [e He]; discriminate | intros H'; inversion H'].
  - destruct (Z.ltb_spec (or_zero (map_get (productId it) db)) (quantity it)).
    + split; [intros _; constructor; assumption | eauto].
    + rewrite IH. split; [intros H'; constructor 2; exact H'|].
      intros H'; inversion H'; [lia | assumption].
Qed.

Lemma total_quantity_cons p it its :
  total_quantity p (it :: its) =
  (if String.eqb p it.(productId) then it.(quantity) else 0) + total_quantity p its.
Proof. unfold total_quantity; cbn [fold_right]. destruct (String.eqb p (productId it)); lia. Qed.

Lemma reserve_get db its : stocked db its ->
  (forall p, map_get p (reserve_items db its) =
             match map_get p db with
             | Some (JInt c) => Some (JInt (c - total_quantity p its))
             | v => v
             end) /\
  map fst (reserve_items db its) = map fst db.
Proof.
  revert db. induction its as [|it its IH]; intros db Hs; cbn [reserve_items].
  - split; [|reflexivity]. intros p. destruct (map_get p db) as [[c|]|]; cbn; [f_equal; f_equal; lia | |]; reflexivity.
  - destruct (Hs it (or_introl eq_refl)) as [c0 Hc0].
    set (db1 := map_set (productId it) (js_sub (map_get (productId it) db) (quantity it)) db).
    assert (Hg1 : forall p, map_get p db1 =
              if String.eqb p (productId it) then Some (JInt (c0 - quantity it)) else map_get p db).
    { intros p. unfold db1. rewrite Hc0. cbn [js_sub].
      destruct (String.eqb_spec p (productId it)); [subst; apply map_get_set_same|].
      apply map_get_set_other; assumption. }
    assert (Hs1 : stocked db1 its).
    { intros it' Hin. rewrite Hg1. destruct (String.eqb_spec (productId it') (productId it)).
      - eexists; reflexivity.
      - exact (Hs it' (or_intror Hin)). }
    destruct (IH db1 Hs1) as [IHg IHk]. split.
    + intros p. rewrite IHg, Hg1, total_quantity_cons.
      destruct (String.eqb_spec p (productId it)).
      * subst p. rewrite Hc0. f_equal; f_equal; lia.
      * destruct (map_get p db) as [[c|]|]; [f_equal; f_equal; lia | |]; reflexivity.
    + rewrite IHk. unfold db1. apply map_keys_set_present. congruence.
Qed.

Lemma release_get db its : stocked db its ->
  (forall p, map_get p (release_items db its) =
             match map_get p db with
             | Some (JInt c) => Some (JInt (c + total_quantity p its))
             | v => v
             end) /\
  map fst (release_items db its) = map fst db.
Proof.
  revert db. induction its as [|it its IH]; intros db Hs; cbn [release_items].
  - split; [|reflexivity]. intros p. destruct (map_get p db) as [[c|]|]; cbn; [f_equal; f_equal; lia | |]; reflexivity.
  - destruct (Hs it (or_introl eq_refl)) as [c0 Hc0].
    set (db1 := map_set (productId it) (JInt (or_zero (map_get (productId it) db) + quantity it)) db).
    assert (Hg1 : forall p, map_get p db1 =
              if String.eqb p (productId it) then Some (JInt (c0 + quantity it)) else map_get p db).
    { intros p. unfold db1. rewrite Hc0. cbn [or_zero].
      destruct (String.eqb_spec p (productId it)); [subst; apply map_get_set_same|].
      apply map_get_set_other; assumption. }
    assert (Hs1 : stocked db1 its).
    { intros it' Hin. rewrite Hg1. destruct (String.eqb_spec (productId it') (productId it)).
      - eexists; reflexivity.
      - exact (Hs it' (or_intror Hin)). }
    destruct (IH db1 Hs1) as [IHg IHk]. split.
    + intros p. rewrite IHg, Hg1, total_quantity_cons.
      destruct (String.eqb_spec p (productId it)).
      * subst p. rewrite Hc0. f_equal; f_equal; lia.
      * destruct (map_get p db) as [[c|]|]; [f_equal; f_equal; lia | |]; reflexivity.
    + rewrite IHk. unfold db1. apply map_keys_set_present. congruence.
Qed.

Lemma total_quantity_absent p its :
  (forall it, In it its -> productId it <> p) -> total_quantity p its = 0.
Proof.
  induction its as [|it its IH]; intros H; [reflexivity|].
  rewrite total_quantity_cons. destruct (String.eqb_spec p (productId it)).
  - exfalso. exact (H it (or_introl eq_refl) (eq_sym e)).
  - rewrite IH; [reflexivity|]. intros it' Hin; exact (H it' (or_intror Hin)).
Qed.

(** [reserveInventory] fails exactly when some item asks for more than
    [checkInventory] reports for its product before the call (each item is
    checked on its own); a failed call changes neither map. *)
Theorem reserve_fails_iff_short uuid input s :
  ((exists e, fst (reserveInventory uuid input s) = inl e) <->
   Exists (fun it => checkInventory it.(productId) s < it.(quantity)) input.(items)) /\
  (forall e, fst (reserveInventory uuid input s) = inl e -> snd (reserveInventory uuid input s) = s).
Proof.
  unfold reserveInventory, checkInventory.
  pose proof (check_items_some (inventoryDB s) (items input)) as Hc.
  destruct (check_items (inventoryDB s) (items input)) as [e|]; cbn.
  - split; [|reflexivity]. split; [intros _; apply Hc; eauto | eauto].
  - split; [|discriminate]. split; [intros [e' He']; discriminate|].
    intros Hex. apply Hc in Hex. destruct Hex; discriminate.
Qed.

(** After a successful reservation whose products all have a numeric
    stock, [checkInventory p] has dropped by exactly the total quantity the
    items request of [p]. *)
Theorem reserve_decrements_stock uuid input s r s' p :
  stocked s.(inventoryDB) input.(items) ->
  reserveInventory uuid input s = (inr r, s') ->
  checkInventory p s' = checkInventory p s - total_quantity p input.(items).
Proof.
  intros Hs Hr. unfold reserveInventory in Hr.
  destruct (check_items (inventoryDB s) (items input)); [discriminate|].
  injection Hr as <- <-. unfold checkInventory; cbn.
  destruct (reserve_get _ _ Hs) as [Hg _]. rewrite Hg.
  destruct (map_get p (inventoryDB s)) as [[c|]|] eqn:Ep; cbn; [reflexivity| |].
  all: rewrite total_quantity_absent; [reflexivity|].
  all: intros it Hin Hp; destruct (Hs it Hin) as [c Hc]; rewrite Hp in Hc; congruence.
Qed.

(** The check compares each item with the stock before the call, so two
    items for the same product that each fit but together exceed the stock
    are both reserved, leaving a negative stock. *)
Theorem duplicate_items_overdraw uuid oid it1 it2 s p c :
  map_get p s.(inventoryDB) = Some (JInt c) ->
  it1.(productId) = p -> it2.(productId) = p ->
  it1.(quantity) <= c -> it2.(quantity) <= c -> c < it1.(quantity) + it2.(quantity) ->
  exists r s', reserveInventory uuid {| orderId := oid; items := [it1; it2] |} s = (inr r, s') /\
               checkInventory p s' = c - it1.(quantity) - it2.(quantity) /\ checkInventory p s' < 0.
Proof.
  intros Hc H1 H2 Hq1 Hq2 Hsum.
  assert (Hst : stocked (inventoryDB s) [it1; it2])
    by (intros it [<-|[<-|[]]]; eexists; rewrite ?H1, ?H2; exact Hc).
  assert (Hck : check_items (inventoryDB s) [it1; it2] = None).
  { apply check_items_none. constructor; [rewrite H1, Hc; exact Hq1|].
    constructor; [rewrite H2, Hc; exact Hq2 | constructor]. }
  unfold reserveInventory. cbn [items]. rewrite Hck.
  eexists; eexists; split; [reflexivity|].
  unfold checkInventory; cbn [inventoryDB].
  destruct (reserve_get _ _ Hst) as [Hg _]. rewrite Hg, Hc.
  unfold total_quantity; cbn [fold_right]. rewrite H1, H2, String.eqb_refl. cbn [or_zero]. lia.
Qed.

(** [releaseInventory] undoes [reserveInventory]: for a fresh reservation
    id and products that all have a numeric stock, releasing the new
    reservation gives back both maps exactly. *)
Theorem reserve_release_roundtrip uuid input s r s' :
  NoDup (map fst s.(inventoryDB)) ->
  stocked s.(inventoryDB) input.(items) ->
  map_get uuid s.(reservations) = None ->
  reserveInventory uuid input s = (inr r, s') ->
  releaseInventory r.(reservationId) s' = s.
Proof.
  intros Hnd Hs Hfresh Hr. unfold reserveInventory in Hr.
  destruct (check_items (inventoryDB s) (items input)); [discriminate|].
  injection Hr as <- <-. unfold releaseInventory; cbn. rewrite map_get_set_same. cbn.
  rewrite map_delete_set_fresh by exact Hfresh.
  destruct s as [db res]; cbn in *. f_equal.
  destruct (reserve_get _ _ Hs) as [Hg Hk].
  assert (Hs' : stocked (reserve_items db (items input)) (items input)).
  { intros it Hin. rewrite Hg. destruct (Hs it Hin) as [c Hc]. rewrite Hc. eexists; reflexivity. }
  destruct (release_get _ _ Hs') as [Hg' Hk'].
  apply map_ext.
  - rewrite Hk', Hk. exact Hnd.
  - rewrite Hk', Hk. reflexivity.
  - intros p. rewrite Hg', Hg. destruct (map_get p db) as [[c|]|]; [|reflexivity..].
    f_equal; f_equal; lia.
Qed.

(** Releasing the same reservation twice has the effect of releasing it
    once; an unknown id changes nothing. *)
Theorem release_idempotent id s :
  NoDup (map fst s.(reservations)) ->
  releaseInventory id (releaseInventory id s) = releaseInventory id s /\
  (map_get id s.(reservations) = None -> releaseInventory id s = s).
Proof.
  intros Hnd. unfold releaseInventory.
  destruct (map_get id (reservations s)) as [r|] eqn:E; [|rewrite E; split; reflexivity].
  cbn. rewrite map_get_delete_same by exact Hnd. split; [reflexivity | discriminate].
Qed.

Lemma order1_stocked : stocked (inventoryDB InventorySamples.s0) (items InventorySamples.order1).
Proof.
  intros it Hin. cbn in Hin.
  repeat (destruct Hin as [<-|Hin]; [eexists; reflexivity|]). destruct Hin.
Qed.

Lemma initial_db_nodup : NoDup (map fst (inventoryDB InventorySamples.s0)).
Proof.
  cbn. repeat constructor; cbn; intros H; repeat destruct H as [H|H]; try discriminate; exact H.
Qed.

Lemma reserve_decrements_stock_witness :
  stocked (inventoryDB InventorySamples.s0) (items InventorySamples.order1) /\
  checkInventory "product-1" (snd (reserveInventory "res-1" InventorySamples.order1 InventorySamples.s0))
  = checkInventory "product-1" InventorySamples.s0 - 5.
Proof.
  split; [exact order1_stocked|].
  destruct (reserveInventory "res-1" InventorySamples.order1 InventorySamples.s0) as [[e|r] s'] eqn:E;
    [vm_compute in E; discriminate|].
  cbn [snd]. rewrite (reserve_decrements_stock _ _ _ _ _ "product-1" order1_stocked E).
  vm_compute. reflexivity.
Defined.

Lemma duplicate_items_overdraw_witness :
  map_get "product-4" (inventoryDB InventorySamples.s0) = Some (JInt 10) /\
  exists r s', reserveInventory "res-2"
                 {| orderId := "order-2"; items := [InventorySamples.widget "product-4" 8;
                                                   InventorySamples.widget "product-4" 8] |}
                 InventorySamples.s0 = (inr r, s') /\
               checkInventory "product-4" s' = 10 - 8 - 8 /\ checkInventory "product-4" s' < 0.
Proof.
  assert (Hc : map_get "product-4" (inventoryDB InventorySamples.s0) = Some (JInt 10)) by reflexivity.
  split; [exact Hc|].
  exact (duplicate_items_overdraw "res-2" "order-2" (InventorySamples.widget "product-4" 8)
           (InventorySamples.widget "product-4" 8) InventorySamples.s0 "product-4" 10
           Hc eq_refl eq_refl ltac:(cbn; lia) ltac:(cbn; lia) ltac:(cbn; lia)).
Defined.

Lemma reserve_release_roundtrip_witness :
  map_get "res-1" (reservations InventorySamples.s0) = None /\
  releaseInventory "res-1" (snd (reserveInventory "res-1" InventorySamples.order1 InventorySamples.s0))
  = InventorySamples.s0.
Proof.
  split; [reflexivity|].
  destruct (reserveInventory "res-1" InventorySamples.order1 InventorySamples.s0) as [[e|r] s'] eqn:E;
    [vm_compute in E; discriminate|].
  assert (Hid : reservationId r = "res-1")
    by (vm_compute in E; injection E as <- _; reflexivity).
  cbn [snd]. rewrite <- Hid.
  exact (reserve_release_roundtrip _ _ _ _ _ initial_db_nodup order1_stocked eq_refl E).
Defined.

Lemma release_idempotent_witness :
  let s := snd (reserveInventory "res-1" InventorySamples.order1 InventorySamples.s0) in
  NoDup (map fst (reservations s)) /\
  releaseInventory "res-1" (releaseInventory "res-1" s) = releaseInventory "res-1" s.
Proof.
  intros s.
  assert (Hnd : NoDup (map fst (reservations s))) by (vm_compute; repeat constructor; intros []).
  split; [exact Hnd|]. exact (proj1 (release_idempotent "res-1" s Hnd)).
Defined.

End InventoryFacts.


Module PaymentFacts.
Import Js JsFacts Payment.
Local Open Scope string_scope.

Lemma find_after_set {V} (f : V -> bool) k v m :
  find f (map_values m) = None -> f v = true -> find f (map_values (map_set k v m)) = Some v.
Proof.
  intros Hn Hv. induction m as [|[k' v'] m IH]; cbn in *; [rewrite Hv; reflexivity|].
  destruct (f v') eqn:Ev'; [discriminate|].
  destruct (String.eqb k k'); cbn; [rewrite Hv; reflexivity|].
  rewrite Ev'. exact (IH Hn).
Qed.

Lemma find_same_order (o : string) l :
  find (fun p => is_success p && String.eqb o o) l = find is_success l.
Proof.
  induction l as [|p l IH]; cbn; [reflexivity|]. rewrite IH, String.eqb_refl, andb_true_r. reflexivity.
Qed.

Lemma process_inl i d s e s' :
  processPayment i d s = (inl e, s') ->
  paymentAttempts s' = paymentAttempts s + 1 /\
  (e = GatewayUnavailable -> paymentAttempts s + 1 < 3).
Proof.
  unfold processPayment. destruct (find _ _); [discriminate|].
  destruct (qlt_b (pd_random d) (3 # 10) && Z.ltb (paymentAttempts s + 1) 3) eqn:Et.
  - intros H; injection H as <- <-. apply andb_prop in Et as [_ Ht]. apply Z.ltb_lt in Ht.
    split; [reflexivity | intros; exact Ht].
  - destruct (qlt_b 10000 (amount i) && _); [|intros H; inversion H]. intros H; injection H as <- <-.
    split; [reflexivity | discriminate].
Qed.

(** The idempotency check tests [input.orderId === input.orderId], which is
    always true: once a call has returned a successful payment, every later
    call, for any order, amount or method, returns that same payment and
    changes nothing. *)
Theorem payment_reused_for_any_order inA dA s p s1 inB dB :
  processPayment inA dA s = (inr p, s1) ->
  processPayment inB dB s1 = (inr p, s1).
Proof.
  unfold processPayment. rewrite !find_same_order.
  destruct (find is_success (map_values (payments s))) as [ex|] eqn:E.
  - intros H; injection H as <- <-. rewrite E. reflexivity.
  - destruct (qlt_b (pd_random dA) _ && _); [discriminate|].
    destruct (qlt_b 10000 (amount inA) && _); [discriminate|].
    intros H; injection H as <- <-. cbn [payments].
    rewrite (find_after_set _ _ _ _ E); reflexivity.
Qed.

(** [paymentAttempts] only grows on failed calls and a transient failure
    needs [paymentAttempts < 3] after the increment: in a run of calls that
    all fail, at most [2 - paymentAttempts] of them are transient
    ([GatewayUnavailable]), whatever [Math.random()] returns. *)
Theorem transient_failures_bounded calls s :
  Forall (fun r => exists e, r = inl e) (fst (run_payments calls s)) ->
  (List.length (filter is_transient (fst (run_payments calls s))) <= Z.to_nat (2 - paymentAttempts s))%nat.
Proof.
  revert s. induction calls as [|[i d] rest IH]; intros s; cbn [run_payments]; [cbn; lia|].
  destruct (processPayment i d s) as [r s'] eqn:Ep.
  destruct (run_payments rest s') as [rs s''] eqn:Er. cbn [fst].
  intros Hf. inversion Hf as [|? ? [e He] Hrest]; subst r.
  destruct (process_inl _ _ _ _ _ Ep) as [Ha Ht].
  specialize (IH s'). rewrite Er in IH. specialize (IH Hrest). cbn [fst] in IH.
  rewrite Ha in IH. cbn [filter].
  destruct e; cbn [is_transient List.length].
  - specialize (Ht eq_refl). lia.
  - lia.
Qed.

(** [refundPayment] on a successful payment marks it [failed] with the
    message [Refunded] and keeps its id and transaction id; a second refund
    changes nothing, and other payments and [paymentAttempts] are untouched. *)
Theorem refund_marks_failed_once pid s p :
  getPaymentStatus pid s = Some p -> is_success p = true ->
  getPaymentStatus pid (refundPayment pid s) =
    Some {| paymentId := p.(paymentId); status := ps_failed;
            transactionId := p.(transactionId); errorMessage := Some "Refunded" |} /\
  refundPayment pid (refundPayment pid s) = refundPayment pid s /\
  (forall q, q <> pid -> getPaymentStatus q (refundPayment pid s) = getPaymentStatus q s) /\
  paymentAttempts (refundPayment pid s) = paymentAttempts s.
Proof.
  unfold getPaymentStatus, refundPayment. intros Hg Hs. rewrite Hg, Hs. cbn [payments paymentAttempts].
  rewrite map_get_set_same. cbn [is_success status].
  split; [reflexivity|]. split; [reflexivity|]. split; [|reflexivity].
  intros q Hq. apply map_get_set_other. exact Hq.
Qed.

Lemma payment_reused_for_any_order_witness :
  processPayment (PaymentSamples.order_payment "order-1" 100 paypal) (PaymentSamples.draws (1 # 2) "1")
    PaymentSamples.ps0 = (inr PaymentSamples.first_payment, PaymentSamples.paid_store) /\
  processPayment (PaymentSamples.order_payment "order-2" 20000 credit_card) (PaymentSamples.draws 0 "2")
    PaymentSamples.paid_store = (inr PaymentSamples.first_payment, PaymentSamples.paid_store).
Proof.
  assert (H : processPayment (PaymentSamples.order_payment "order-1" 100 paypal)
                (PaymentSamples.draws (1 # 2) "1") PaymentSamples.ps0
              = (inr PaymentSamples.first_payment, PaymentSamples.paid_store)) by (vm_compute; reflexivity).
  split; [exact H|]. exact (payment_reused_for_any_order _ _ _ _ _ _ _ H).
Defined.

Lemma transient_failures_bounded_witness :
  Forall (fun r => exists e, r = inl e) (fst (run_payments PaymentSamples.high_value_calls PaymentSamples.ps0)) /\
  (List.length (filter is_transient (fst (run_payments PaymentSamples.high_value_calls PaymentSamples.ps0)))
   <= Z.to_nat (2 - paymentAttempts PaymentSamples.ps0))%nat.
Proof.
  assert (Hf : Forall (fun r => exists e, r = inl e)
                 (fst (run_payments PaymentSamples.high_value_calls PaymentSamples.ps0)))
    by (vm_compute; repeat econstructor).
  split; [exact Hf|]. exact (transient_failures_bounded _ _ Hf).
Defined.

Lemma refund_marks_failed_once_witness :
  getPaymentStatus "pay-1" PaymentSamples.paid_store = Some PaymentSamples.first_payment /\
  is_success PaymentSamples.first_payment = true /\
  refundPayment "pay-1" (refundPayment "pay-1" PaymentSamples.paid_store)
  = refundPayment "pay-1" PaymentSamples.paid_store.
Proof.
  assert (Hg : getPaymentStatus "pay-1" PaymentSamples.paid_store = Some PaymentSamples.first_payment)
    by reflexivity.
  assert (Hs : is_success PaymentSamples.first_payment = true) by reflexivity.
  split; [exact Hg|]. split; [exact Hs|].
  exact (proj1 (proj2 (refund_marks_failed_once _ _ _ Hg Hs))).
Defined.

End PaymentFacts.


Module ShippingFacts.
Import Js JsFacts Shipping.
Local Open Scope Q_scope.
Local Open Scope string_scope.

(** With the carrier draw in [[0, 1)], [createShipment] fails only with the
    retryable carrier error and then stores nothing; on success the carrier
    is one of [CARRIERS], the tracking number starts with FED, UPS, USP or
    DHL, and the shipment is stored under its id. *)
Theorem createShipment_outcome d s :
  0 <= d.(sd_carrier) -> d.(sd_carrier) < 1 ->
  (forall e, fst (createShipment d s) = inl e -> e = CarrierUnavailable /\ snd (createShipment d s) = s) /\
  (forall sh, fst (createShipment d s) = inr sh ->
     In sh.(carrier) CARRIERS /\
     (exists pre rest, sh.(trackingNumber) = pre ++ rest /\ In pre ["FED"; "UPS"; "USP"; "DHL"]) /\
     sh.(shipmentId) = d.(sd_uuid) /\
     getShipmentTracking sh.(shipmentId) (snd (createShipment d s)) = Some sh).
Proof.
  intros H0 H1. unfold createShipment.
  destruct (qlt_b (sd_fail d) (1 # 10)).
  { cbn. split; [intros e He; injection He as <-; split; reflexivity | intros sh He; discriminate]. }
  pose proof (floor_scaled_range (sd_carrier d) 4 H0 H1 eq_refl) as Hr.
  change (inject_Z (Z.of_nat (List.length CARRIERS))) with (inject_Z 4).
  assert (Hk : Qfloor (sd_carrier d * inject_Z 4) = 0%Z \/ Qfloor (sd_carrier d * inject_Z 4) = 1%Z \/
               Qfloor (sd_carrier d * inject_Z 4) = 2%Z \/ Qfloor (sd_carrier d * inject_Z 4) = 3%Z) by lia.
  destruct Hk as [Hk|[Hk|[Hk|Hk]]]; rewrite Hk; cbn [js_index CARRIERS nth_error Z.ltb Z.compare Z.to_nat];
    cbn [fst snd].
  all: split; [intros e He; discriminate|].
  all: intros sh He; injection He as <-; cbn [carrier trackingNumber shipmentId].
  all: split; [cbn; tauto|].
  all: split; [eexists _, _; split; [reflexivity | vm_compute; tauto]|].
  all: split; [reflexivity | apply map_get_set_same].
Qed.

(** [cancelShipment] undoes [createShipment] when the new id was not in the
    map: the map is back to what it was; cancelling again changes nothing. *)
Theorem create_cancel_roundtrip d s sh s' :
  map_get d.(sd_uuid) s = None ->
  createShipment d s = (inr sh, s') ->
  cancelShipment sh.(shipmentId) s' = s /\
  cancelShipment sh.(shipmentId) (cancelShipment sh.(shipmentId) s') = s /\
  getShipmentTracking sh.(shipmentId) (cancelShipment sh.(shipmentId) s') = None.
Proof.
  intros Hf. unfold createShipment.
  destruct (qlt_b (sd_fail d) (1 # 10)); [discriminate|].
  destruct (js_index _ _) as [c|]; [|discriminate].
  intros He; injection He as <- <-. cbn [shipmentId].
  assert (Hc : forall v, cancelShipment (sd_uuid d) (map_set (sd_uuid d) v s) = s).
  { intros v. unfold cancelShipment. rewrite map_get_set_same. apply map_delete_set_fresh. exact Hf. }
  rewrite Hc. unfold cancelShipment at 1. rewrite Hf.
  split; [reflexivity|]. split; [reflexivity|]. exact Hf.
Qed.

Lemma createShipment_outcome_witness :
  0 <= sd_carrier ShippingSamples.ship_draws /\ sd_carrier ShippingSamples.ship_draws < 1 /\
  In (carrier ShippingSamples.ship_ok) CARRIERS /\
  getShipmentTracking "ship-1" (snd (createShipment ShippingSamples.ship_draws [])) = Some ShippingSamples.ship_ok.
Proof.
  assert (H0 : 0 <= sd_carrier ShippingSamples.ship_draws) by (vm_compute; discriminate).
  assert (H1 : sd_carrier ShippingSamples.ship_draws < 1) by reflexivity.
  assert (He : fst (createShipment ShippingSamples.ship_draws []) = inr ShippingSamples.ship_ok)
    by (vm_compute; reflexivity).
  destruct (proj2 (createShipment_outcome ShippingSamples.ship_draws [] H0 H1) _ He) as [Hc [_ [_ Hg]]].
  split; [exact H0|]. split; [exact H1|]. split; [exact Hc | exact Hg].
Defined.

Lemma create_cancel_roundtrip_witness :
  map_get "ship-1" ([] : list (string * ShipmentResult)) = None /\
  cancelShipment "ship-1" (snd (createShipment ShippingSamples.ship_draws [])) = [].
Proof.
  assert (Hf : map_get (sd_uuid ShippingSamples.ship_draws) ([] : list (string * ShipmentResult)) = None)
    by reflexivity.
  assert (He : createShipment ShippingSamples.ship_draws [] =
               (inr ShippingSamples.ship_ok, [("ship-1", ShippingSamples.ship_ok)]))
    by (vm_compute; reflexivity).
  split; [exact Hf|]. rewrite He.
  exact (proj1 (create_cancel_roundtrip _ _ _ _ Hf He)).
Defined.

End ShippingFacts.


Module AgentActivitiesFacts.
Import Js JsFacts AgentActivities.
Local Open Scope string_scope.

Lemma existsb_Exists {A} (p : A -> bool) (l : list A) :
  existsb p l = true <-> Exists (fun x => p x = true) l.
Proof. rewrite existsb_exists, Exists_exists. reflexivity. Qed.

Lemma existsb_eqb_In (x : string) (l : list string) : existsb (String.eqb x) l = true <-> In x l.
Proof.
  rewrite existsb_exists. split.
  - intros [y [Hy He]]. apply String.eqb_eq in He. subst y. exact Hy.
  - intros H. exists x. split; [exact H | apply String.eqb_refl].
Qed.

Lemma sev_is_spec (s : string) (i : CodeIssue) : sev_is s i = true <-> i.(severity) = Some s.
Proof.
  unfold sev_is. destruct (severity i) as [s'|]; [|split; discriminate].
  rewrite String.eqb_eq. split; congruence.
Qed.

Lemma nodup_map_inj {A B} (f : A -> B) (l : list A) :
  (forall x y, f x = f y -> x = y) -> NoDup l -> NoDup (map f l).
Proof.
  intros Hf Hn. induction Hn as [|x l Hx Hn IH]; cbn; constructor; [|exact IH].
  intros Hin. apply in_map_iff in Hin as [y [Hy Hyl]]. apply Hf in Hy. subst y. exact (Hx Hyl).
Qed.

Lemma map_priority_repeat (bs : list RefactorBatch) (pr : Priority) :
  Forall (fun b => b.(priority) = pr) bs -> map priority bs = List.repeat pr (List.length bs).
Proof.
  induction 1 as [|b bs Hb _ IH]; cbn; [reflexivity|]. rewrite Hb, IH. reflexivity.
Qed.

Section Batches.
Variable uuid : nat -> string.

Lemma create_batches_spec fuel fs pr i next :
  (List.length fs <= i + 5 * fuel)%nat ->
  List.concat (map files (create_batches uuid fuel fs pr i next)) = skipn i fs /\
  List.length (create_batches uuid fuel fs pr i next) = ((List.length fs - i + 4) / 5)%nat /\
  map batchId (create_batches uuid fuel fs pr i next)
    = map uuid (seq next (List.length (create_batches uuid fuel fs pr i next))) /\
  Forall (fun b => b.(priority) = pr /\ (1 <= List.length b.(files) <= 5)%nat)
         (create_batches uuid fuel fs pr i next).
Proof.
  revert i next. induction fuel as [|fuel IH]; intros i next Hf; cbn [create_batches].
  - rewrite skipn_all2 by lia. cbn.
    replace (List.length fs - i + 4)%nat with 4%nat by lia.
    split; [reflexivity|]. split; [reflexivity|]. split; [reflexivity | constructor].
  - destruct (Nat.ltb_spec i (List.length fs)) as [Hlt|Hge].
    + destruct (IH (i + 5)%nat (S next)) as [Hc [Hl [Hi Hp]]]; [lia|].
      cbn [map List.concat List.length seq files batchId priority].
      split; [|split; [|split]].
      * rewrite Hc. replace (i + 5)%nat with (5 + i)%nat by lia.
        rewrite <- skipn_skipn. apply firstn_skipn.
      * rewrite Hl.
        assert (Hcase : (List.length fs - i + 4 = (List.length fs - (i + 5) + 4) + 1 * 5)%nat \/
                        (List.length fs - (i + 5) = 0 /\ 5 <= List.length fs - i + 4 < 10)%nat) by lia.
        destruct Hcase as [E|[E Hm]].
        -- rewrite E, Nat.div_add by lia. lia.
        -- rewrite E. generalize dependent (List.length fs - i + 4)%nat. intros m Hm.
           assert (Hm' : (m = 5 \/ m = 6 \/ m = 7 \/ m = 8 \/ m = 9)%nat) by lia.
           destruct Hm' as [->|[->|[->|[->| ->]]]]; reflexivity.
      * rewrite Hi. reflexivity.
      * constructor; [|exact Hp]. split; [reflexivity|].
        cbn [files]. rewrite length_firstn, length_skipn. lia.
    + rewrite skipn_all2 by lia. cbn.
      replace (List.length fs - i + 4)%nat with 4%nat by lia.
      split; [reflexivity|]. split; [reflexivity|]. split; [reflexivity | constructor].
Qed.

Lemma in_concat_files (bs : list RefactorBatch) b g :
  In b bs -> In g b.(files) -> In g (List.concat (map files bs)).
Proof.
  intros Hb Hg. apply in_concat. exists (files b). split; [apply in_map; exact Hb | exact Hg].
Qed.

Lemma plan_files_aux analyses :
  let high := highPriorityFiles analyses in
  let medium := mediumPriorityFiles analyses high in
  let plan := generateRefactorPlan uuid analyses in
  List.concat (map files plan.(batches)) = (high ++ medium)%list /\
  (forall b, In b plan.(batches) -> b.(priority) = p_high -> forall g, In g b.(files) -> In g high) /\
  (forall b, In b plan.(batches) -> b.(priority) = p_medium -> forall g, In g b.(files) -> In g medium).
Proof.
  intros high medium plan. unfold plan, generateRefactorPlan. cbn [batches].
  fold high. fold medium.
  destruct (create_batches_spec (List.length high) high p_high 0 0) as [Hc1 [_ [_ Hp1]]]; [lia|].
  destruct (create_batches_spec (List.length medium) medium p_medium 0
              (List.length (create_batches uuid (List.length high) high p_high 0 0)))
    as [Hc2 [_ [_ Hp2]]]; [lia|].
  rewrite Forall_forall in Hp1, Hp2. cbn [skipn] in Hc1, Hc2.
  split; [rewrite map_app, concat_app, Hc1, Hc2; reflexivity|].
  split; intros b Hb Hpr g Hg; apply in_app_iff in Hb as [Hb|Hb].
  - rewrite <- Hc1. apply (in_concat_files _ b); assumption.
  - destruct (Hp2 b Hb) as [Hq _]. congruence.
  - destruct (Hp1 b Hb) as [Hq _]. congruence.
  - rewrite <- Hc2. apply (in_concat_files _ b); assumption.
Qed.

(** [generateRefactorPlan] puts every high-priority file and then every
    medium-priority file into the batches, in order and each once; every
    batch has one to five files; there are [ceil(h / 5)] high batches
    followed by [ceil(m / 5)] medium ones. *)
Theorem refactor_plan_batches analyses :
  let high := highPriorityFiles analyses in
  let medium := mediumPriorityFiles analyses high in
  let plan := generateRefactorPlan uuid analyses in
  List.concat (map files plan.(batches)) = (high ++ medium)%list /\
  Forall (fun b => (1 <= List.length b.(files) <= 5)%nat) plan.(batches) /\
  map priority plan.(batches)
    = (List.repeat p_high ((List.length high + 4) / 5) ++ List.repeat p_medium ((List.length medium + 4) / 5))%list /\
  List.length plan.(batches) = ((List.length high + 4) / 5 + (List.length medium + 4) / 5)%nat.
Proof.
  intros high medium plan. unfold plan, generateRefactorPlan. cbn [batches].
  fold high. fold medium.
  set (hb := create_batches uuid (List.length high) high p_high 0 0).
  set (mb := create_batches uuid (List.length medium) medium p_medium 0 (List.length hb)).
  destruct (create_batches_spec (List.length high) high p_high 0 0) as [Hc1 [Hl1 [_ Hp1]]]; [lia|].
  destruct (create_batches_spec (List.length medium) medium p_medium 0 (List.length hb))
    as [Hc2 [Hl2 [_ Hp2]]]; [lia|].
  fold hb in Hc1, Hl1, Hp1. fold mb in Hc2, Hl2, Hp2.
  rewrite Nat.sub_0_r in Hl1, Hl2.
  split; [|split; [|split]].
  - rewrite map_app, concat_app, Hc1, Hc2. reflexivity.
  - apply Forall_app. split.
    + apply (Forall_impl _ (fun b H => proj2 H) Hp1).
    + apply (Forall_impl _ (fun b H => proj2 H) Hp2).
  - rewrite map_app, (map_priority_repeat _ p_high), (map_priority_repeat _ p_medium), Hl1, Hl2;
      [reflexivity | ..].
    + apply (Forall_impl _ (fun b H => proj1 H) Hp2).
    + apply (Forall_impl _ (fun b H => proj1 H) Hp1).
  - rewrite length_app, Hl1, Hl2. reflexivity.
Qed.

(** When [uuidv4()] never repeats, the plan id and all batch ids are
    pairwise distinct. *)
Theorem refactor_plan_ids_distinct analyses :
  (forall a b, uuid a = uuid b -> a = b) ->
  let plan := generateRefactorPlan uuid analyses in
  NoDup (plan.(planId) :: map batchId plan.(batches)).
Proof.
  intros Hinj plan. unfold plan, generateRefactorPlan. cbn [batches planId].
  set (high := highPriorityFiles analyses). set (medium := mediumPriorityFiles analyses high).
  set (hb := create_batches uuid (List.length high) high p_high 0 0).
  set (mb := create_batches uuid (List.length medium) medium p_medium 0 (List.length hb)).
  destruct (create_batches_spec (List.length high) high p_high 0 0) as [_ [_ [Hi1 _]]]; [lia|].
  destruct (create_batches_spec (List.length medium) medium p_medium 0 (List.length hb))
    as [_ [_ [Hi2 _]]]; [lia|].
  fold hb in Hi1. fold mb in Hi2.
  rewrite map_app, Hi1, Hi2, <- map_app, <- seq_app, length_app. cbn [Nat.add].
  change (uuid (List.length hb + List.length mb)%nat :: map uuid (seq 0 (List.length hb + List.length mb)))
    with (map uuid ((List.length hb + List.length mb)%nat :: seq 0 (List.length hb + List.length mb))).
  apply nodup_map_inj; [exact Hinj|]. constructor; [|apply seq_NoDup].
  rewrite in_seq. lia.
Qed.

(** A file is in the plan exactly when some analysis of it reports a
    critical, high or medium issue; a file in a high-priority batch is in no
    medium-priority batch. *)
Theorem refactor_plan_files analyses f :
  let plan := generateRefactorPlan uuid analyses in
  (In f (List.concat (map files plan.(batches))) <->
   exists a, In a analyses /\ a.(filePath) = f /\
     Exists (fun i => i.(severity) = Some "critical" \/ i.(severity) = Some "high" \/
                      i.(severity) = Some "medium") a.(issues)) /\
  (forall b1 b2, In b1 plan.(batches) -> In b2 plan.(batches) ->
     b1.(priority) = p_high -> b2.(priority) = p_medium -> In f b1.(files) -> ~ In f b2.(files)).
Proof.
  intros plan.
  set (high := highPriorityFiles analyses). set (medium := mediumPriorityFiles analyses high).
  assert (Hhigh : forall g, In g high <-> exists a, In a analyses /\ existsb is_high a.(issues) = true /\
                                               a.(filePath) = g).
  { intros g. unfold high, highPriorityFiles. rewrite in_map_iff. split.
    - intros [a [<- Ha]]. apply filter_In in Ha as [Ha Hb]. eauto.
    - intros [a [Ha [Hb <-]]]. exists a. split; [reflexivity|]. apply filter_In. auto. }
  assert (Hmed : forall g, In g medium <-> exists a, In a analyses /\
                   existsb (sev_is "medium") a.(issues) = true /\ ~ In a.(filePath) high /\ a.(filePath) = g).
  { intros g. unfold medium, mediumPriorityFiles. rewrite in_map_iff. split.
    - intros [a [<- Ha]]. apply filter_In in Ha as [Ha Hb]. apply andb_prop in Hb as [Hb Hn].
      exists a. split; [exact Ha|]. split; [exact Hb|]. split; [|reflexivity].
      rewrite <- existsb_eqb_In. intros He. rewrite He in Hn. discriminate Hn.
    - intros [a [Ha [Hb [Hn <-]]]]. exists a. split; [reflexivity|]. apply filter_In.
      split; [exact Ha|]. rewrite Hb. cbn.
      destruct (existsb (String.eqb (filePath a)) high) eqn:E; [|reflexivity].
      apply existsb_eqb_In in E. contradiction. }
  destruct (plan_files_aux analyses) as [Hc [Hhb Hmb]].
  fold high medium plan in Hc, Hhb, Hmb.
  split.
  - rewrite Hc, in_app_iff, Hhigh, Hmed. split.
    + intros [[a [Ha [Hb <-]]]|[a [Ha [Hb [_ <-]]]]]; exists a; split; [exact Ha| |exact Ha|];
        (split; [reflexivity|]).
      * apply existsb_Exists in Hb. eapply Exists_impl; [|exact Hb]. cbv beta.
        intros i Hi. unfold is_high in Hi. apply orb_true_iff in Hi as [Hi|Hi];
          apply sev_is_spec in Hi; auto.
      * apply existsb_Exists in Hb. eapply Exists_impl; [|exact Hb]. cbv beta.
        intros i Hi. apply sev_is_spec in Hi. auto.
    + intros [a [Ha [<- He]]].
      destruct (existsb is_high (issues a)) eqn:Eh; [left; eauto|].
      destruct (in_dec string_dec (filePath a) high) as [Hin|Hnin]; [left; apply Hhigh in Hin; exact Hin|].
      right. exists a. split; [exact Ha|]. split; [|split; [exact Hnin | reflexivity]].
      apply existsb_Exists. apply Exists_exists in He as [i [Hi Hs]]. apply Exists_exists.
      exists i. split; [exact Hi|]. apply sev_is_spec.
      destruct Hs as [Hs|[Hs|Hs]]; [| |exact Hs]; exfalso;
        assert (Hx : existsb is_high (issues a) = true)
          by (apply existsb_exists; exists i; split; [exact Hi|]; unfold is_high;
              apply orb_true_iff; (left + right); apply sev_is_spec; exact Hs);
        congruence.
  - intros b1 b2 H1 H2 Hp1 Hp2 Hf1 Hf2.
    apply (Hhb b1 H1 Hp1) in Hf1. apply (Hmb b2 H2 Hp2) in Hf2.
    apply Hmed in Hf2 as [a [_ [_ [Hn <-]]]]. exact (Hn Hf1).
Qed.

End Batches.

Lemma refactor_plan_ids_distinct_witness :
  (forall a b, AgentSamples.uuid_seq a = AgentSamples.uuid_seq b -> a = b) /\
  NoDup ((generateRefactorPlan AgentSamples.uuid_seq AgentSamples.sample_analyses).(planId)
         :: map batchId (generateRefactorPlan AgentSamples.uuid_seq AgentSamples.sample_analyses).(batches)).
Proof.
  assert (Hl : forall n, String.length (AgentSamples.uuid_seq n) = n)
    by (induction n as [|n IH]; cbn; [reflexivity | unfold AgentSamples.uuid_seq in IH; rewrite IH; reflexivity]).
  assert (Hinj : forall a b, AgentSamples.uuid_seq a = AgentSamples.uuid_seq b -> a = b)
    by (intros a b E; rewrite <- (Hl a), <- (Hl b), E; reflexivity).
  split; [exact Hinj|].
  exact (refactor_plan_ids_distinct AgentSamples.uuid_seq AgentSamples.sample_analyses Hinj).
Defined.

Lemma issues_loop_spec fp loc rand k n :
  (forall j, (0 <= rand j)%Q /\ (rand j < 1)%Q) -> (0 < loc)%Z ->
  List.length (issues_loop fp loc rand k n) = n /\
  Forall (fun i => (exists s, i.(severity) = Some s /\ In s SEVERITIES) /\
                   (exists t, i.(issue_type) = Some t /\ In t ISSUE_TYPES) /\
                   (0 <= i.(line) < loc)%Z) (issues_loop fp loc rand k n).
Proof.
  intros Hr Hloc. revert k. induction n as [|n IH]; intros k; cbn [issues_loop List.length];
    [split; [reflexivity | constructor]|].
  destruct (IH (k + 3)%nat) as [Hl Hf]. split; [rewrite Hl; reflexivity|].
  constructor; [|exact Hf]. cbn [severity issue_type line].
  pose proof (floor_scaled_range (rand k) 4 (proj1 (Hr k)) (proj2 (Hr k)) eq_refl) as H1.
  pose proof (floor_scaled_range (rand (k + 1)%nat) 4 (proj1 (Hr (k + 1)%nat)) (proj2 (Hr (k + 1)%nat))
                eq_refl) as H2.
  pose proof (floor_scaled_range (rand (k + 2)%nat) loc (proj1 (Hr (k + 2)%nat)) (proj2 (Hr (k + 2)%nat))
                Hloc) as H3.
  split; [|split; [|exact H3]].
  - apply js_index_in. exact H1.
  - apply js_index_in. exact H2.
Qed.

(** With every [Math.random()] draw in [[0, 1)], [analyzeFile] reports
    50 to 549 lines of code, a complexity of 1 to 20 and at most four
    issues, each with a severity and a type from the fixed lists and a line
    inside the file. *)
Theorem analyzeFile_ranges fp rand :
  (forall j, (0 <= rand j)%Q /\ (rand j < 1)%Q) ->
  let r := analyzeFile fp rand in
  (50 <= r.(linesOfCode) <= 549)%Z /\ (1 <= r.(complexity) <= 20)%Z /\
  (List.length r.(issues) <= 4)%nat /\
  Forall (fun i => (exists s, i.(severity) = Some s /\ In s SEVERITIES) /\
                   (exists t, i.(issue_type) = Some t /\ In t ISSUE_TYPES) /\
                   (0 <= i.(line) < r.(linesOfCode))%Z) r.(issues).
Proof.
  intros Hr r. unfold r, analyzeFile. cbn [linesOfCode complexity issues].
  pose proof (floor_scaled_range (rand 1%nat) 500 (proj1 (Hr 1%nat)) (proj2 (Hr 1%nat)) eq_refl) as H1.
  pose proof (floor_scaled_range (rand 2%nat) 20 (proj1 (Hr 2%nat)) (proj2 (Hr 2%nat)) eq_refl) as H2.
  pose proof (floor_scaled_range (rand 3%nat) 5 (proj1 (Hr 3%nat)) (proj2 (Hr 3%nat)) eq_refl) as H3.
  change (inject_Z 500) with (500 : Q) in H1. change (inject_Z 20) with (20 : Q) in H2.
  change (inject_Z 5) with (5 : Q) in H3.
  destruct (issues_loop_spec fp (Qfloor (rand 1%nat * 500) + 50) rand 4
              (Z.to_nat (Qfloor (rand 3%nat * 5))) Hr ltac:(lia)) as [Hl Hf].
  split; [lia|]. split; [lia|]. split; [rewrite Hl; lia | exact Hf].
Qed.

Lemma analyzeFile_ranges_witness :
  (forall j, (0 <= AgentSamples.half_draws j)%Q /\ (AgentSamples.half_draws j < 1)%Q) /\
  (50 <= (analyzeFile "src/app.ts" AgentSamples.half_draws).(linesOfCode) <= 549)%Z.
Proof.
  assert (Hr : forall j, (0 <= AgentSamples.half_draws j)%Q /\ (AgentSamples.half_draws j < 1)%Q)
    by (intros j; split; [vm_compute; discriminate | reflexivity]).
  split; [exact Hr|]. exact (proj1 (analyzeFile_ranges "src/app.ts" AgentSamples.half_draws Hr)).
Defined.

End AgentActivitiesFacts.


Module AdaptiveFacts.
Import Js Adaptive.

Ltac ad_simpl H :=
  unfold bind, call, log, modify, ret, raise, get, push_result, set_strategy in H;
  cbn -[toString adaptive_loop] in H.

Lemma nth_error_snoc_prop {A} (P : nat -> A -> Prop) (l : list A) (x : A) :
  (forall j r, nth_error l j = Some r -> P j r) -> P (List.length l) x ->
  forall j r, nth_error (l ++ [x]) j = Some r -> P j r.
Proof.
  intros Hl Hx j r Hj. destruct (Nat.lt_ge_cases j (List.length l)) as [Hlt|Hge].
  - rewrite nth_error_app1 in Hj by exact Hlt. exact (Hl j r Hj).
  - rewrite nth_error_app2 in Hj by exact Hge.
    destruct (j - List.length l)%nat as [|k] eqn:E; cbn in Hj.
    + injection Hj as <-. replace j with (List.length l) by lia. exact Hx.
    + destruct k; discriminate.
Qed.

Lemma loop_results task env fuel : forall depth st d' st1,
  adaptive_loop task env fuel depth st = (inr d', st1) ->
  (1 <= depth)%Z -> (maxDepth task + 1 - depth <= Z.of_nat fuel)%Z ->
  List.length (results st) = Z.to_nat (depth - 1) ->
  (forall j r, nth_error (results st) j = Some r -> ad_analyze env (Z.of_nat j + 1) = Some r) ->
  (forall j r, nth_error (results st1) j = Some r -> ad_analyze env (Z.of_nat j + 1) = Some r) /\
  ((d' = Z.max depth (maxDepth task + 1) /\ List.length (results st1) = Z.to_nat (d' - 1)) \/
   (exists q, ad_quality env d' = Some q /\ recommendation q = rec_complete /\
              List.length (results st1) = Z.to_nat d' /\ (1 <= d' <= maxDepth task)%Z)).
Proof.
  induction fuel as [|fuel IH]; intros depth st d' st1 H Hd Hf Hl Hn.
  - cbn in H. injection H as <- <-. split; [exact Hn|]. left. split; [lia | exact Hl].
  - cbn [adaptive_loop] in H. destruct (Z.leb_spec depth (maxDepth task)) as [Hle|Hgt].
    2: { ad_simpl H. injection H as <- <-. split; [exact Hn|]. left. split; [lia | exact Hl]. }
    ad_simpl H. destruct (ad_analyze env depth) as [r|] eqn:Ea; cbn -[toString adaptive_loop] in H;
      [|discriminate].
    assert (Hl2 : List.length (results st ++ [r])%list = Z.to_nat depth)
      by (rewrite length_app, Hl; cbn; lia).
    assert (Hn2 : forall j r0, nth_error (results st ++ [r])%list j = Some r0 ->
                               ad_analyze env (Z.of_nat j + 1) = Some r0).
    { apply nth_error_snoc_prop; [exact Hn|]. rewrite Hl. rewrite <- Ea. f_equal. lia. }
    assert (Hl3 : List.length (results st ++ [r])%list = Z.to_nat (depth + 1 - 1))
      by (rewrite Hl2; f_equal; lia).
    assert (Hrec : forall st0, adaptive_loop task env fuel (depth + 1) st0 = (inr d', st1) ->
                               results st0 = (results st ++ [r])%list ->
      (forall j r, nth_error (results st1) j = Some r -> ad_analyze env (Z.of_nat j + 1) = Some r) /\
      ((d' = Z.max depth (maxDepth task + 1) /\ List.length (results st1) = Z.to_nat (d' - 1)) \/
       (exists q, ad_quality env d' = Some q /\ recommendation q = rec_complete /\
                  List.length (results st1) = Z.to_nat d' /\ (1 <= d' <= maxDepth task)%Z)))
      by (intros st0 H0 Hr0; rewrite <- Hr0 in Hl3, Hn2;
          destruct (IH (depth + 1)%Z st0 d' st1 H0 ltac:(lia) ltac:(lia) Hl3 Hn2) as [Hn' [[Hd' Hl']|Hq]];
          (split; [exact Hn'|]); [left; split; [lia | exact Hl'] | right; exact Hq]).
    destruct (ad_quality env depth) as [q|] eqn:Eq; cbn -[toString adaptive_loop] in H; [|discriminate].
    destruct (recommendation q) eqn:Er.
    + exact (Hrec _ H eq_refl).
    + destruct (suggestedStrategy q) as [s|]; cbn -[toString adaptive_loop] in H.
      * destruct (ad_publish_ok env depth); cbn -[toString adaptive_loop] in H; [|discriminate].
        exact (Hrec _ H eq_refl).
      * exact (Hrec _ H eq_refl).
    + injection H as <- <-. split; [exact Hn2|]. right. exists q.
      split; [exact Eq|]. split; [exact Er|]. split; [exact Hl2 | lia].
Qed.

Lemma pubs_snoc (l : list AdEvent) (ev : AdEvent) :
  (forall o n, In (EvPublishProgress o n) l -> o = n) ->
  (forall o n, ev = EvPublishProgress o n -> o = n) ->
  forall o n, In (EvPublishProgress o n) (l ++ [ev]) -> o = n.
Proof.
  intros Hl Hev o n Hin. apply in_app_iff in Hin as [Hin|[Hin|[]]]; [exact (Hl o n Hin)|].
  exact (Hev o n Hin).
Qed.

Lemma last_published_snoc_pub l o n s0 :
  last_published (l ++ [EvPublishProgress o n]) s0 = n.
Proof. unfold last_published. rewrite fold_left_app. reflexivity. Qed.

Lemma last_published_snoc_other l ev s0 :
  (forall o n, ev <> EvPublishProgress o n) ->
  last_published (l ++ [ev]) s0 = last_published l s0.
Proof.
  intros Hev. unfold last_published. rewrite fold_left_app. cbn.
  destruct ev as [| |o n]; [reflexivity | reflexivity | destruct (Hev o n eq_refl)].
Qed.

Ltac strategy_inv :=
  repeat first [ rewrite last_published_snoc_pub
               | rewrite last_published_snoc_other by (intros ? ? E; discriminate E) ];
  repeat (apply pubs_snoc;
          [| intros ? ? E; first [ discriminate E | injection E as <- <-; reflexivity ] ]).

Lemma loop_strategy task env fuel : forall depth s r l,
  (forall o n, In (EvPublishProgress o n) l -> o = n) -> s = last_published l breadth_first ->
  (forall o n, In (EvPublishProgress o n) (adlog (snd (adaptive_loop task env fuel depth (mkAd s r l)))) ->
               o = n) /\
  strategy (snd (adaptive_loop task env fuel depth (mkAd s r l)))
    = last_published (adlog (snd (adaptive_loop task env fuel depth (mkAd s r l)))) breadth_first.
Proof.
  induction fuel as [|fuel IH]; intros depth s r l H1 H2; [split; assumption|].
  cbn [adaptive_loop]. destruct (Z.leb depth (maxDepth task)); [|split; assumption].
  unfold bind, call, log, modify, ret, raise, get, push_result, set_strategy.
  cbn -[toString adaptive_loop].
  destruct (ad_analyze env depth) as [a|]; cbn -[toString adaptive_loop];
    [|split; strategy_inv; assumption].
  destruct (ad_quality env depth) as [q|]; cbn -[toString adaptive_loop];
    [|split; strategy_inv; assumption].
  destruct (recommendation q); cbn -[toString adaptive_loop].
  - apply IH; strategy_inv; assumption.
  - destruct (suggestedStrategy q) as [s'|]; cbn -[toString adaptive_loop].
    + destruct (ad_publish_ok env depth); cbn -[toString adaptive_loop].
      * apply IH; strategy_inv; [assumption | reflexivity].
      * split; strategy_inv; [assumption | reflexivity].
    + apply IH; strategy_inv; assumption.
  - split; strategy_inv; assumption.
Qed.

(** A successful [adaptiveAnalysisWorkflow] run keeps the [analyzeFile]
    result of depth [j + 1] at index [j]. It either ran every depth up to
    [maxDepth] and reports that depth, or stopped at a depth whose quality
    check said [complete] and reports one less than the number of results,
    because [break] skips [depth++]. *)
Theorem adaptive_depth_results task env s d res :
  fst (adaptiveAnalysisWorkflow task env) = inr (s, d, res) ->
  (forall j r, nth_error res j = Some r -> env.(ad_analyze) (Z.of_nat j + 1) = Some r) /\
  ((d = Z.max 0 task.(maxDepth) /\ Z.of_nat (List.length res) = d) \/
   (exists q, env.(ad_quality) (d + 1) = Some q /\ q.(recommendation) = rec_complete /\
              Z.of_nat (List.length res) = d + 1 /\ (0 <= d < task.(maxDepth))%Z)).
Proof.
  unfold adaptiveAnalysisWorkflow, bind, get, ret.
  destruct (adaptive_loop task env (Z.to_nat (maxDepth task)) 1 (mkAd breadth_first [] []))
    as [[e|dl] st1] eqn:E; cbn; [discriminate|].
  intros H; injection H as <- <- <-.
  assert (H0 : forall j r, nth_error (results (mkAd breadth_first [] [])) j = Some r ->
                           ad_analyze env (Z.of_nat j + 1) = Some r)
    by (intros j r Hj; destruct j; discriminate Hj).
  destruct (loop_results task env _ 1 _ dl st1 E ltac:(lia) ltac:(lia) eq_refl H0)
    as [Hn [[Hd Hl]|[q [Hq [Hr [Hl Hb]]]]]].
  - split; [exact Hn|]. left. split; [lia|]. rewrite Hl. lia.
  - split; [exact Hn|]. right. exists q. replace (dl - 1 + 1)%Z with dl by lia.
    split; [exact Hq|]. split; [exact Hr|]. split; [rewrite Hl; lia | lia].
Qed.

(** [publishProgress] reads [strategy] after the assignment, so every
    strategy-switch event it records has equal old and new strategies. The
    strategy the workflow ends with, and returns on success, is the new
    strategy of the last such event, or breadth-first if there is none. *)
Theorem adaptive_strategy_events task env :
  let st := snd (adaptiveAnalysisWorkflow task env) in
  (forall o n, In (EvPublishProgress o n) st.(adlog) -> o = n) /\
  st.(strategy) = last_published st.(adlog) breadth_first /\
  (forall s d res, fst (adaptiveAnalysisWorkflow task env) = inr (s, d, res) -> s = st.(strategy)).
Proof.
  intros st. unfold st, adaptiveAnalysisWorkflow, bind, get, ret.
  pose proof (loop_strategy task env (Z.to_nat (maxDepth task)) 1 breadth_first [] []
                (fun o n (H : In _ []) => match H with end) eq_refl) as [H1 H2].
  destruct (adaptive_loop task env (Z.to_nat (maxDepth task)) 1 (mkAd breadth_first [] []))
    as [[e|dl] st1]; cbn in H1, H2 |- *.
  - split; [exact H1|]. split; [exact H2 | discriminate].
  - split; [exact H1|]. split; [exact H2|]. intros s d res H; injection H as <- _ _. reflexivity.
Qed.

Lemma adaptive_depth_results_witness :
  fst (adaptiveAnalysisWorkflow AdaptiveSamples.ad_task AdaptiveSamples.ad_env)
    = inr (depth_first, 1%Z, [AgentSamples.sample_analysis "auth" ["low"%string];
                              AgentSamples.sample_analysis "auth" ["low"%string]]) /\
  exists q, AdaptiveSamples.ad_env.(ad_quality) 2 = Some q /\ q.(recommendation) = rec_complete.
Proof.
  assert (H : fst (adaptiveAnalysisWorkflow AdaptiveSamples.ad_task AdaptiveSamples.ad_env)
    = inr (depth_first, 1%Z, [AgentSamples.sample_analysis "auth" ["low"%string];
                              AgentSamples.sample_analysis "auth" ["low"%string]]))
    by (vm_compute; reflexivity).
  split; [exact H|].
  destruct (adaptive_depth_results _ _ _ _ _ H) as [_ [[Hd _]|[q [Hq [Hr _]]]]];
    [vm_compute in Hd; discriminate Hd | exists q; split; [exact Hq | exact Hr]].
Defined.

End AdaptiveFacts.


Module MerkleFacts.
Import Js Merkle.
Local Open Scope string_scope.

Lemma str_app_assoc (s1 s2 s3 : string) : (s1 ++ s2) ++ s3 = s1 ++ (s2 ++ s3).
Proof. induction s1 as [|c s1 IH]; cbn; [reflexivity | rewrite IH; reflexivity]. Qed.

Lemma str_app_nil (s : string) : s ++ "" = s.
Proof. induction s as [|c s IH]; cbn; [reflexivity | rewrite IH; reflexivity]. Qed.

Lemma str_length_app (s1 s2 : string) :
  String.length (s1 ++ s2) = (String.length s1 + String.length s2)%nat.
Proof. induction s1 as [|c s1 IH]; cbn; [reflexivity | rewrite IH; reflexivity]. Qed.

Lemma list_ascii_app (s1 s2 : string) :
  list_ascii_of_string (s1 ++ s2) = (list_ascii_of_string s1 ++ list_ascii_of_string s2)%list.
Proof. induction s1 as [|c s1 IH]; cbn; [reflexivity | rewrite IH; reflexivity]. Qed.

Lemma repeat_char_spec n c :
  String.length (repeat_char n c) = n /\ Forall (fun c' => c' = c) (list_ascii_of_string (repeat_char n c)).
Proof.
  induction n as [|n [IHl IHf]]; cbn; [split; [reflexivity | constructor]|].
  split; [rewrite IHl; reflexivity | constructor; [reflexivity | exact IHf]].
Qed.

Lemma toInt32_range x : -2 ^ 31 <= Training.toInt32 x < 2 ^ 31.
Proof.
  unfold Training.toInt32. pose proof (Z.mod_pos_bound x (2 ^ 32) ltac:(lia)).
  destruct (Z.leb_spec (2 ^ 31) (x mod 2 ^ 32)); lia.
Qed.

Lemma hash_chars_range h s : -2 ^ 31 <= h < 2 ^ 31 -> -2 ^ 31 <= Training.hash_chars h s < 2 ^ 31.
Proof.
  revert h. induction s as [|c s IH]; intros h Hh; cbn [Training.hash_chars]; [exact Hh|].
  apply IH. apply toInt32_range.
Qed.

Lemma digit_char_hex d : 0 <= d < 16 -> In (digit_char d) (list_ascii_of_string "0123456789abcdef").
Proof.
  intros Hd.
  assert (Hc : d = 0 \/ d = 1 \/ d = 2 \/ d = 3 \/ d = 4 \/ d = 5 \/ d = 6 \/ d = 7 \/ d = 8 \/
               d = 9 \/ d = 10 \/ d = 11 \/ d = 12 \/ d = 13 \/ d = 14 \/ d = 15) by lia.
  repeat destruct Hc as [->|Hc]; [..|subst d];
    vm_compute; repeat first [left; reflexivity | right].
Qed.

Lemma digits_hex fuel : forall n acc k,
  0 <= n -> n < 16 ^ Z.of_nat k -> (1 <= k)%nat ->
  exists ds, digits fuel 16 n acc = ds ++ acc /\ (String.length ds <= k)%nat /\
             Forall (fun c => In c (list_ascii_of_string "0123456789abcdef")) (list_ascii_of_string ds).
Proof.
  induction fuel as [|fuel IH]; intros n acc k H0 Hk H1.
  - exists "". split; [reflexivity|]. split; [cbn; lia | constructor].
  - cbn [digits]. pose proof (Z.mod_pos_bound n 16 ltac:(lia)) as Hm.
    destruct (Z.eqb_spec (n / 16) 0) as [Hz|Hnz].
    + exists (String (digit_char (n mod 16)) ""). split; [reflexivity|].
      split; [cbn; lia|]. constructor; [apply digit_char_hex; exact Hm | constructor].
    + destruct k as [|k]; [lia|].
      assert (Hk' : n / 16 < 16 ^ Z.of_nat k).
      { apply Z.div_lt_upper_bound; [lia|]. rewrite Nat2Z.inj_succ, Z.pow_succ_r in Hk by lia. lia. }
      destruct k as [|k].
      { exfalso. cbn in Hk'. pose proof (Z.div_pos n 16 H0 ltac:(lia)). lia. }
      destruct (IH (n / 16) (String (digit_char (n mod 16)) acc) (S k)
                  ltac:(apply Z.div_pos; lia) Hk' ltac:(lia)) as [ds [Hd [Hl Hf]]].
      exists (ds ++ String (digit_char (n mod 16)) ""). split; [rewrite Hd, str_app_assoc; reflexivity|].
      split; [rewrite str_length_app; cbn; lia|].
      rewrite list_ascii_app. apply Forall_app. split; [exact Hf|].
      constructor; [apply digit_char_hex; exact Hm | constructor].
Qed.

(** [generateMerkleRoot] always returns [0x] followed by exactly 64
    lowercase hexadecimal digits: the hash is a 32-bit integer, so its
    absolute value has at most eight hex digits, padded with zeros. *)
Theorem merkle_root_format modelId epoch loss_toFixed6 :
  exists h, generateMerkleRoot modelId epoch loss_toFixed6 = "0x" ++ h /\ String.length h = 64%nat /\
            Forall (fun c => In c (list_ascii_of_string "0123456789abcdef")) (list_ascii_of_string h).
Proof.
  unfold generateMerkleRoot.
  set (m := Z.abs (Training.hash_chars 0 _)).
  assert (Hm : 0 <= m <= 2 ^ 31).
  { unfold m. pose proof (hash_chars_range 0 (modelId ++ "-" ++ toString 10 epoch ++ "-" ++ loss_toFixed6)
                            ltac:(lia)). lia. }
  destruct (digits_hex (S (Z.to_nat (Z.log2 (Z.abs m)))) (Z.abs m) "" 8
              ltac:(lia) ltac:(cbn; lia) ltac:(lia)) as [ds [Hd [Hl Hf]]].
  unfold toString. rewrite Hd, str_app_nil.
  destruct (Z.ltb_spec m 0) as [Hneg|_]; [lia|].
  exists (padStart ds 64 "0"). split; [reflexivity|].
  unfold padStart. destruct (Nat.ltb_spec (String.length ds) 64) as [Hlt|Hge]; [|lia].
  destruct (repeat_char_spec (64 - String.length ds) "0") as [Hrl Hrf].
  split; [rewrite str_length_app, Hrl; lia|].
  rewrite list_ascii_app. apply Forall_app. split; [|exact Hf].
  refine (Forall_impl _ _ Hrf). intros c ->. cbn. left; reflexivity.
Qed.

End MerkleFacts.


Module TrainingSeedFacts.
Import Training.

Lemma nextInt_step (s : Z) :
  Rng.valid_state s ->
  Rng.valid_state (fst (Rng.nextInt s 0 1000000)) /\ 0 <= snd (Rng.nextInt s 0 1000000) <= 1000000.
Proof.
  intros Hv. split; [|exact (RngFacts.nextInt_range s 0 1000000 Hv ltac:(lia))].
  pose proof (proj1 (RngFacts.next_valid s Hv)) as H.
  unfold Rng.nextInt. destruct (Rng.next s) as [s' u]. exact H.
Qed.

Lemma seed_of_ok cfg env :
  (forall s, cfg.(randomSeed) = Some s -> Z.rem s Rng.MODULUS <> -2147483646) ->
  Z.rem (seed_of cfg env) Rng.MODULUS <> -2147483646.
Proof.
  intros Hs. unfold seed_of.
  assert (Hh : Z.rem (hashWorkflowId (te_workflowId env)) Rng.MODULUS <> -2147483646).
  { unfold hashWorkflowId, Rng.MODULUS.
    pose proof (Z.rem_nonneg (Z.abs (hash_chars 0 (te_workflowId env))) 2147483647
                  ltac:(lia) ltac:(lia)). lia. }
  destruct (randomSeed cfg) as [s|] eqn:E; [|exact Hh].
  destruct (Z.eqb s 0); [exact Hh | exact (Hs s eq_refl)].
Qed.

Ltac seeds_tac Hs Hsh :=
  let e0 := fresh "e" in let s0 := fresh "s" in let Hin := fresh "Hin" in
  intros e0 s0 Hin; repeat (rewrite in_app_iff in Hin); cbn in Hin;
  repeat match type of Hin with _ \/ _ => destruct Hin as [Hin|Hin] end;
  first [ exact (Hs _ _ Hin) | discriminate Hin | injection Hin as <- <-; exact Hsh | destruct Hin ].

Lemma loop_seeds cfg env fuel : forall epoch t,
  Rng.valid_state t.(rng) ->
  (forall e sh, In (EvTrainEpoch e sh) t.(tlog) -> 0 <= sh <= 1000000) ->
  (forall e sh, In (EvTrainEpoch e sh) (snd (training_loop cfg env fuel epoch t)).(tlog) -> 0 <= sh <= 1000000) /\
  Rng.valid_state (snd (training_loop cfg env fuel epoch t)).(rng).
Proof.
  induction fuel as [|fuel IH]; intros epoch t Hv Hs.
  - cbn. auto.
  - cbn [training_loop].
    unfold bind, get, ret, raise, modify, set_rng, log, activity, record_epoch, set_status,
      push_checkpoint, deliver, clear_decision.
    destruct (te_cancel env epoch); [cbn; auto|].
    pose proof (nextInt_step (rng t) Hv) as [Hv' Hsh].
    destruct (Rng.nextInt (rng t) 0 1000000) as [rng' sh]. cbn [fst snd] in Hv', Hsh.
    destruct (te_train env epoch) as [loss|]; cbn; [|split; [seeds_tac Hs Hsh | exact Hv']].
    destruct (js_mod_is_zero (epoch + 1) (checkpointInterval cfg));
      [destruct (te_save env (epoch + 1)) as [ck|]|]; cbn;
      [| split; [seeds_tac Hs Hsh | exact Hv'] |];
      (destruct (te_signal env epoch) as [d|]; cbn;
       [|destruct (researcherDecision t) as [d|]];
       destruct (Z.rem (epoch + 1) 10 =? 0); cbn;
       try destruct (rd_action d); cbn).
    all: first [ apply IH; cbn; [exact Hv' | seeds_tac Hs Hsh]
               | split; [seeds_tac Hs Hsh | exact Hv'] ].
Qed.

(** Every [shuffleSeed] passed to [trainEpoch] lies in [[0, 1000000]],
    whatever the activities, signals and cancellation do, unless
    [config.randomSeed] is a seed whose remainder modulo 2147483647 is
    -2147483646; the hashed workflow id used by default is never such a
    seed. *)
Theorem training_shuffle_seeds_in_range cfg env resume :
  (forall s, cfg.(randomSeed) = Some s -> Z.rem s Rng.MODULUS <> -2147483646) ->
  forall e sh, In (EvTrainEpoch e sh) (snd (mlTrainingWorkflow cfg env resume)).(tlog) -> 0 <= sh <= 1000000.
Proof.
  intros Hseed.
  pose proof (RngFacts.SeededRNG_valid _ (seed_of_ok cfg env Hseed)) as Hv.
  assert (Hs0 : forall e sh, In (EvTrainEpoch e sh) (tlog (init_state cfg env resume)) -> 0 <= sh <= 1000000)
    by (intros e sh []).
  unfold mlTrainingWorkflow, training_body, catch, bind, get, ret, raise, modify, set_status, log, activity.
  cbn. cbn in Hs0.
  destruct (te_init_ok env); cbn.
  - match goal with |- context [training_loop cfg env ?f ?ep ?st] =>
      destruct (loop_seeds cfg env f ep st) as [H1 H2]; [exact Hv | exact Hs0 |];
      destruct (training_loop cfg env f ep st) as [[err|u] t'] end;
    cbn in *; [|destruct (te_eval_ok env)]; cbn; seeds_tac H1 H1.
  - seeds_tac Hs0 Hs0.
Qed.

Lemma training_shuffle_seeds_in_range_witness :
  (forall s, TrainingSamples.sample_training_cfg.(randomSeed) = Some s -> Z.rem s Rng.MODULUS <> -2147483646) /\
  (forall e sh, In (EvTrainEpoch e sh)
     (snd (mlTrainingWorkflow TrainingSamples.sample_training_cfg TrainingSamples.sample_training_env None)).(tlog) ->
     0 <= sh <= 1000000).
Proof.
  assert (H : forall s, TrainingSamples.sample_training_cfg.(randomSeed) = Some s ->
                        Z.rem s Rng.MODULUS <> -2147483646)
    by (intros s E; injection E as <-; vm_compute; discriminate).
  split; [exact H|]. exact (training_shuffle_seeds_in_range _ _ None H).
Defined.

End TrainingSeedFacts.
